(** * Synth-Head GPU driver link protocol: packet codec, fragmenter, receiver

    A shallow embedding of the framing code of the GPU driver test tools

      - [tests/run_hardware_tests.py] and [tests/run_extended_tests.py]:
        class [UartPacket] (short form, 2-byte magic, XOR checksum) and
        [SerialInterface.receive_packet];
      - [tests/run_hardware_tests_v2.py]: [PacketHeader], [PacketFooter],
        [calc_checksum], [build_packet], the fragment builders and
        [SerialInterface.receive_packet] (extended form, 3-byte sync,
        additive checksum).

    Python [bytes] are lists of [byte]; Python [int]s are [Z]; a raised
    exception is the [Err] case of [result]. *)

From Stdlib Require Import ZArith List Lia Bool Permutation.
From coqutil Require Import Byte Z.bitblast Word.LittleEndianList.
Import ListNotations.
Local Open Scope Z_scope.

(** ** Exceptions and the error monad *)

(** The exceptions the modelled functions raise.  The source raises
    [ValueError] with a message, [struct.error] and [IndexError]; each
    distinct raise site gets a constructor. *)
Inductive error : Type :=
| PayloadTooLarge    (* ValueError("Payload too large: ...")            *)
| PacketTooShort     (* ValueError("Packet too short")                  *)
| BadMagic           (* ValueError("Invalid magic: ...")                *)
| IncompletePacket   (* ValueError("Incomplete packet")                 *)
| ChecksumMismatch   (* ValueError("CRC mismatch")                      *)
| InvalidFrameSize   (* ValueError("Invalid HUB75/OLED data size: ...") *)
| NotEnoughData      (* ValueError("Not enough data for header/footer") *)
| ByteRange          (* ValueError: bytes must be in range(0, 256)      *)
| StructError        (* struct.error                                    *)
| IndexError.        (* IndexError: index out of range                  *)

Inductive result (A : Type) : Type :=
| Ok (a : A)
| Err (e : error).
Arguments Ok {A} a.
Arguments Err {A} e.

Definition bind {A B : Type} (r : result A) (k : A -> result B) : result B :=
  match r with
  | Ok a => k a
  | Err e => Err e
  end.

Notation "x <- r ;; k" := (bind r (fun x => k))
  (at level 61, r at next level, right associativity).

(** ** Python values *)

Abbreviation bytes := (list byte).

(** [len(x)] *)
Definition len {A : Type} (l : list A) : Z := Z.of_nat (length l).

(** [data[a:b]] for non-negative [a], [b] (the only slices the code takes);
    out-of-range bounds are clamped, as in Python. *)
Definition slice {A : Type} (data : list A) (a b : Z) : list A :=
  skipn (Z.to_nat a) (firstn (Z.to_nat b) data).

(** [data[i]] on a [bytes] object yields an [int]; out of range it raises
    [IndexError]. Indices in the code are never negative. *)
Definition getitem (data : bytes) (i : Z) : result Z :=
  if i <? 0 then Err IndexError
  else match nth_error data (Z.to_nat i) with
       | Some b => Ok (byte.unsigned b)
       | None => Err IndexError
       end.

(** [bytes([v0, v1, ...])]: every value must be in [range(256)]. *)
Fixpoint bytes_of_ints (vs : list Z) : result bytes :=
  match vs with
  | [] => Ok []
  | v :: vs' =>
      if (0 <=? v) && (v <? 256)
      then (rest <- bytes_of_ints vs' ;; Ok (byte.of_Z v :: rest))
      else Err ByteRange
  end.

(** Equality of two [bytes] objects. *)
Fixpoint bytes_eqb (x y : bytes) : bool :=
  match x, y with
  | [], [] => true
  | a :: x', b :: y' => (byte.unsigned a =? byte.unsigned b) && bytes_eqb x' y'
  | _, _ => false
  end.

(** ** Short form: [UartPacket] *)

Module UartPacket.

Definition MAGIC : bytes := [byte.of_Z 0xAA; byte.of_Z 0x55].
Definition MAX_PAYLOAD : Z := 255.

(** The loop [for b in payload: crc ^= b]. *)
Definition xor_bytes (crc : Z) (payload : bytes) : Z :=
  fold_left (fun acc b => Z.lxor acc (byte.unsigned b)) payload crc.

Definition encode (cmd : Z) (payload : bytes) : result bytes :=
  if MAX_PAYLOAD <? len payload then Err PayloadTooLarge
  else
    fields <- bytes_of_ints [cmd; len payload] ;;
    let header := MAGIC ++ fields in
    let crc := xor_bytes (Z.lxor cmd (len payload)) payload in
    tail <- bytes_of_ints [Z.land crc 0xFF] ;;
    Ok (header ++ payload ++ tail).

Definition decode (data : bytes) : result (Z * bytes) :=
  if len data <? 5 then Err PacketTooShort
  else if negb (bytes_eqb (slice data 0 2) MAGIC) then Err BadMagic
  else
    cmd <- getitem data 2 ;;
    length <- getitem data 3 ;;
    if len data <? 4 + length + 1 then Err IncompletePacket
    else
      let payload := slice data 4 (4 + length) in
      received_crc <- getitem data (4 + length) ;;
      let expected_crc := Z.land (xor_bytes (Z.lxor cmd length) payload) 0xFF in
      if negb (received_crc =? expected_crc) then Err ChecksumMismatch
      else Ok (cmd, payload).

End UartPacket.

(** ** The [struct] module, little-endian standard layout (['<'] prefix) *)

Module struct.

(** Format characters used by the code: [B] (u8), [H] (u16), [I] (u32). *)
Inductive code : Type := B | H | I.

Definition size (c : code) : nat :=
  match c with B => 1 | H => 2 | I => 4 end.

Definition calcsize (fmt : list code) : nat :=
  fold_right (fun c n => (size c + n)%nat) 0%nat fmt.

(** One packed value; [struct.error] when it does not fit the field. *)
Definition pack_one (c : code) (v : Z) : result bytes :=
  if (0 <=? v) && (v <? 2 ^ (8 * Z.of_nat (size c)))
  then Ok (le_split (size c) v)
  else Err StructError.

(** [struct.pack(fmt, v0, v1, ...)]; a wrong number of values is a
    [struct.error] too. *)
Fixpoint pack (fmt : list code) (vs : list Z) : result bytes :=
  match fmt, vs with
  | [], [] => Ok []
  | c :: fmt', v :: vs' =>
      b <- pack_one c v ;;
      rest <- pack fmt' vs' ;;
      Ok (b ++ rest)
  | _, _ => Err StructError
  end.

Fixpoint unpack_fields (fmt : list code) (data : bytes) : list Z :=
  match fmt with
  | [] => []
  | c :: fmt' =>
      le_combine (firstn (size c) data)
        :: unpack_fields fmt' (skipn (size c) data)
  end.

(** [struct.unpack(fmt, data)]: the buffer must have exactly
    [calcsize(fmt)] bytes. *)
Definition unpack (fmt : list code) (data : bytes) : result (list Z) :=
  if Nat.eqb (length data) (calcsize fmt)
  then Ok (unpack_fields fmt data)
  else Err StructError.

End struct.

(** ** Extended form: protocol constants *)

Definition SYNC_BYTE_1 : Z := 0xAA.
Definition SYNC_BYTE_2 : Z := 0x55.
Definition SYNC_BYTE_3 : Z := 0xCC.
Definition END_BYTE : Z := 0x55.

Definition HUB75_WIDTH : Z := 128.
Definition HUB75_HEIGHT : Z := 32.
Definition HUB75_RGB_SIZE : Z := HUB75_WIDTH * HUB75_HEIGHT * 3.

Definition OLED_WIDTH : Z := 128.
Definition OLED_HEIGHT : Z := 128.
Definition OLED_MONO_SIZE : Z := (OLED_WIDTH * OLED_HEIGHT) / 8.

Definition FRAGMENT_SIZE : Z := 1024.
Definition HUB75_FRAGMENT_COUNT : Z := 12.
Definition OLED_FRAGMENT_COUNT : Z := 2.

Module MsgType.
Definition PING : Z := 0x01.
Definition PONG : Z := 0x02.
Definition ACK : Z := 0x03.
Definition NACK : Z := 0x04.
Definition STATUS : Z := 0x05.
Definition FRAME_REQUEST : Z := 0x06.
Definition RESEND_FRAG : Z := 0x07.
Definition HUB75_FRAME : Z := 0x10.
Definition HUB75_FRAG : Z := 0x11.
Definition OLED_FRAME : Z := 0x12.
Definition OLED_FRAG : Z := 0x13.
Definition SET_FPS : Z := 0x20.
Definition SET_BRIGHTNESS : Z := 0x21.
Definition STATS_REQUEST : Z := 0x30.
Definition STATS_RESPONSE : Z := 0x31.
End MsgType.

(** ** Packet structures *)

Module PacketHeader.

Definition SIZE : Z := 10.

Record t : Type := mk {
  sync1 : Z; sync2 : Z; sync3 : Z;
  msg_type : Z; payload_len : Z; frame_num : Z;
  frag_index : Z; frag_total : Z
}.

(** [__init__] *)
Definition init (msg_type payload_len frame_num frag_index frag_total : Z) : t :=
  mk SYNC_BYTE_1 SYNC_BYTE_2 SYNC_BYTE_3
     msg_type payload_len frame_num frag_index frag_total.

(** The format string ['<BBBHHHBB'] shared by [pack] and [unpack]. *)
Definition fmt : list struct.code :=
  [struct.B; struct.B; struct.B; struct.H; struct.H; struct.H;
   struct.B; struct.B].

Definition pack (self : t) : result bytes :=
  struct.pack fmt
    [sync1 self; sync2 self; sync3 self;
     msg_type self; payload_len self; frame_num self;
     frag_index self; frag_total self].

Definition unpack (data : bytes) : result t :=
  if len data <? SIZE then Err NotEnoughData
  else
    fields <- struct.unpack fmt (slice data 0 10) ;;
    match fields with
    | [s1; s2; s3; msg_type; payload_len; frame_num; frag_idx; frag_total] =>
        Ok (mk s1 s2 s3 msg_type payload_len frame_num frag_idx frag_total)
    | _ => Err StructError
    end.

End PacketHeader.

Module PacketFooter.

Definition SIZE : Z := 3.

Record t : Type := mk { checksum : Z; end_byte : Z }.

(** [__init__] *)
Definition init (checksum : Z) : t := mk checksum END_BYTE.

(** The format string ['<HB']. *)
Definition fmt : list struct.code := [struct.H; struct.B].

Definition pack (self : t) : result bytes :=
  struct.pack fmt [checksum self; end_byte self].

Definition unpack (data : bytes) : result t :=
  if len data <? SIZE then Err NotEnoughData
  else
    fields <- struct.unpack fmt (slice data 0 3) ;;
    match fields with
    | [checksum; end_byte] => Ok (mk checksum end_byte)
    | _ => Err StructError
    end.

End PacketFooter.

(** ** Utility functions *)

(** "Simple sum checksum" *)
Definition calc_checksum (data : bytes) : Z :=
  Z.land (fold_left (fun total b => total + byte.unsigned b) data 0) 0xFFFF.

Definition build_packet (msg_type : Z) (payload : bytes)
    (frame_num frag_index frag_total : Z) : result bytes :=
  let header :=
    PacketHeader.init msg_type (len payload) frame_num frag_index frag_total in
  header_bytes <- PacketHeader.pack header ;;
  let checksum := calc_checksum header_bytes + calc_checksum payload in
  let footer := PacketFooter.init (Z.land checksum 0xFFFF) in
  footer_bytes <- PacketFooter.pack footer ;;
  Ok (header_bytes ++ payload ++ footer_bytes).

(** [build_ping_packet] with an explicit timestamp (the clock default is
    outside the model). *)
Definition build_ping_packet (timestamp_us : Z) : result bytes :=
  payload <- struct.pack [struct.I] [timestamp_us] ;;
  build_packet MsgType.PING payload 0 0 1.

Definition build_hub75_frame_packet (rgb_data : bytes) (frame_num : Z) : result bytes :=
  if negb (len rgb_data =? HUB75_RGB_SIZE) then Err InvalidFrameSize
  else build_packet MsgType.HUB75_FRAME rgb_data frame_num 0 1.

(** [range(n)] *)
Definition range (n : Z) : list Z := map Z.of_nat (seq 0 (Z.to_nat n)).

(** A [for] loop whose body may raise: the state is threaded through the
    iterations and the first exception ends the loop. *)
Fixpoint for_each {A S : Type} (xs : list A) (body : S -> A -> result S) (s : S)
    : result S :=
  match xs with
  | [] => Ok s
  | x :: xs' => s' <- body s x ;; for_each xs' body s'
  end.

Definition build_hub75_fragment_packets (rgb_data : bytes) (frame_num : Z)
    : result (list bytes) :=
  if negb (len rgb_data =? HUB75_RGB_SIZE) then Err InvalidFrameSize
  else
    for_each (range HUB75_FRAGMENT_COUNT)
      (fun packets i =>
         let offset := i * FRAGMENT_SIZE in
         let frag_data := slice rgb_data offset (offset + FRAGMENT_SIZE) in
         packet <- build_packet MsgType.HUB75_FRAG frag_data frame_num i
                     HUB75_FRAGMENT_COUNT ;;
         Ok (packets ++ [packet]))
      [].

Definition build_oled_fragment_packets (mono_data : bytes) (frame_num : Z)
    : result (list bytes) :=
  if negb (len mono_data =? OLED_MONO_SIZE) then Err InvalidFrameSize
  else
    for_each (range OLED_FRAGMENT_COUNT)
      (fun packets i =>
         let offset := i * FRAGMENT_SIZE in
         let frag_data := slice mono_data offset (offset + FRAGMENT_SIZE) in
         packet <- build_packet MsgType.OLED_FRAG frag_data frame_num i
                     OLED_FRAGMENT_COUNT ;;
         Ok (packets ++ [packet]))
      [].

(** ** Bit corruption, as the noisy-channel simulator and the CRC test do it *)

(** [corrupted = bytearray(packet); corrupted[i] ^= (1 << k)]; storing a
    value outside [range(256)] in a [bytearray] raises [ValueError]. *)
Definition flip_bit (packet : bytes) (i : Z) (k : Z) : result bytes :=
  b <- getitem packet i ;;
  flipped <- bytes_of_ints [Z.lxor b (Z.shiftl 1 k)] ;;
  Ok (firstn (Z.to_nat i) packet ++ flipped ++ skipn (S (Z.to_nat i)) packet).

(** ** The serial port *)

(** A computation on the port: the state is the input that has arrived and
    was not read yet; the computation may raise. *)
Definition port (A : Type) : Type := bytes -> result A * bytes.

Definition ret {A : Type} (a : A) : port A := fun rx => (Ok a, rx).

Definition lift {A : Type} (r : result A) : port A := fun rx => (r, rx).

Definition pbind {A B : Type} (m : port A) (k : A -> port B) : port B :=
  fun rx =>
    match m rx with
    | (Ok a, rx') => k a rx'
    | (Err e, rx') => (Err e, rx')
    end.

Notation "x <~ m ;; k" := (pbind m (fun x => k))
  (at level 61, m at next level, right associativity).

(** [self.ser.read(n)]: the next [n] bytes, fewer when the input runs out
    before the read timeout. *)
Definition read (n : Z) : port bytes :=
  fun rx => (Ok (firstn (Z.to_nat n) rx), skipn (Z.to_nat n) rx).

(** *** Short form receiver ([run_hardware_tests.py]) *)

Module SerialInterface.

(** The loop "Look for magic bytes".  [fuel] is the number of iterations
    the deadline [time.time() - start_time < timeout] allows; the result
    is [magic_found]. *)
Fixpoint seek_magic (fuel : nat) : port bool :=
  match fuel with
  | O => ret false
  | S fuel' =>
      byte <~ read 1 ;;
      match byte with
      | [] => seek_magic fuel'
      | b0 :: _ =>
          if byte.unsigned b0 =? 0xAA then
            next_byte <~ read 1 ;;
            match next_byte with
            | n0 :: _ =>
                if byte.unsigned n0 =? 0x55 then ret true
                else seek_magic fuel'
            | [] => seek_magic fuel'
            end
          else seek_magic fuel'
      end
  end.

Definition receive_packet (connected : bool) (fuel : nat)
    : port (option (Z * bytes)) :=
  if negb connected then ret None
  else
    magic_found <~ seek_magic fuel ;;
    if negb magic_found then ret None
    else
      header <~ read 2 ;;
      if len header <? 2 then ret None
      else
        cmd <~ lift (getitem header 0) ;;
        length <~ lift (getitem header 1) ;;
        data <~ read (length + 1) ;;
        if len data <? length + 1 then ret None
        else
          let payload := slice data 0 length in
          received_crc <~ lift (getitem data length) ;;
          let expected_crc :=
            Z.land (UartPacket.xor_bytes (Z.lxor cmd length) payload) 0xFF in
          if negb (received_crc =? expected_crc) then ret None
          else ret (Some (cmd, payload)).

End SerialInterface.

(** *** Extended form receiver ([run_hardware_tests_v2.py]) *)

Module SerialInterfaceV2.

Definition packet : Type := PacketHeader.t * bytes * PacketFooter.t.

(** The loop "Look for 3-byte sync pattern"; the result is [sync_found]. *)
Fixpoint seek_sync (fuel : nat) : port bool :=
  match fuel with
  | O => ret false
  | S fuel' =>
      byte1 <~ read 1 ;;
      match byte1 with
      | [] => seek_sync fuel'
      | b1 :: _ =>
          if byte.unsigned b1 =? SYNC_BYTE_1 then
            byte2 <~ read 1 ;;
            match byte2 with
            | b2 :: _ =>
                if byte.unsigned b2 =? SYNC_BYTE_2 then
                  byte3 <~ read 1 ;;
                  match byte3 with
                  | b3 :: _ =>
                      if byte.unsigned b3 =? SYNC_BYTE_3 then ret true
                      else seek_sync fuel'
                  | [] => seek_sync fuel'
                  end
                else seek_sync fuel'
            | [] => seek_sync fuel'
            end
          else seek_sync fuel'
      end
  end.

(** "Read footer" and "Verify checksum" (the message printed on a
    mismatch is not modelled). *)
Definition receive_footer (header_data : bytes) (header : PacketHeader.t)
    (payload : bytes) : port (option packet) :=
  footer_data <~ read PacketFooter.SIZE ;;
  if len footer_data <? PacketFooter.SIZE then ret None
  else
    footer <~ lift (PacketFooter.unpack footer_data) ;;
    let expected_checksum :=
      Z.land (calc_checksum header_data + calc_checksum payload) 0xFFFF in
    if negb (PacketFooter.checksum footer =? expected_checksum) then ret None
    else ret (Some (header, payload, footer)).

(** "Read payload", then the footer. *)
Definition receive_payload (header_data : bytes) (header : PacketHeader.t)
    : port (option packet) :=
  if 0 <? PacketHeader.payload_len header then
    payload <~ read (PacketHeader.payload_len header) ;;
    if len payload <? PacketHeader.payload_len header then ret None
    else receive_footer header_data header payload
  else receive_footer header_data header [].

Definition receive_packet (connected : bool) (fuel : nat) : port (option packet) :=
  if negb connected then ret None
  else
    sync_found <~ seek_sync fuel ;;
    if negb sync_found then ret None
    else
      remaining_header <~ read (PacketHeader.SIZE - 3) ;;
      if len remaining_header <? PacketHeader.SIZE - 3 then ret None
      else
        sync <~ lift (bytes_of_ints [SYNC_BYTE_1; SYNC_BYTE_2; SYNC_BYTE_3]) ;;
        let header_data := sync ++ remaining_header in
        header <~ lift (PacketHeader.unpack header_data) ;;
        receive_payload header_data header.

End SerialInterfaceV2.

(** ** Observations on a buffer, used to state the properties *)

(** The two magic bytes, as [byte]s. *)
Definition xAA : byte := byte.of_Z 0xAA.
Definition x55 : byte := byte.of_Z 0x55.

(** The XOR of a sequence of integers. *)
Definition xor_of (vs : list Z) : Z := fold_right Z.lxor 0 vs.

(** The byte at offset [i] of a buffer, as an integer ([0] past the end). *)
Definition byte_at (data : bytes) (i : nat) : Z :=
  byte.unsigned (nth i data (byte.of_Z 0)).

(** The fields of a short-form frame, read at their fixed offsets. *)
Definition magic_ok (data : bytes) : Prop :=
  byte_at data 0 = 0xAA /\ byte_at data 1 = 0x55.
Definition cmd_field (data : bytes) : Z := byte_at data 2.
Definition declared_len (data : bytes) : Z := byte_at data 3.
Definition framed_payload (data : bytes) : bytes :=
  firstn (Z.to_nat (declared_len data)) (skipn 4 data).
Definition transmitted_crc (data : bytes) : Z :=
  byte_at data (4 + Z.to_nat (declared_len data)).
Definition recomputed_crc (data : bytes) : Z :=
  xor_of (cmd_field data :: declared_len data
            :: map byte.unsigned (framed_payload data)).



(** The wire image of an extended-form packet whose header holds the
    given fields, as [PacketHeader.pack] and [PacketFooter.pack] lay it out:
    three sync bytes, then the message type, the payload length and the frame
    number in two little-endian bytes each, the fragment index and the
    fragment count in one byte each, the payload, the checksum in two
    little-endian bytes and the end byte. *)
Definition header_image (h : PacketHeader.t) : bytes :=
  [byte.of_Z (PacketHeader.sync1 h); byte.of_Z (PacketHeader.sync2 h);
   byte.of_Z (PacketHeader.sync3 h)]
    ++ le_split 2 (PacketHeader.msg_type h)
    ++ le_split 2 (PacketHeader.payload_len h)
    ++ le_split 2 (PacketHeader.frame_num h)
    ++ [byte.of_Z (PacketHeader.frag_index h);
        byte.of_Z (PacketHeader.frag_total h)].

(** The sum of the bytes of a buffer. *)
Definition sum_of (data : bytes) : Z :=
  fold_right (fun b total => byte.unsigned b + total) 0 data.

Definition packet_image (h : PacketHeader.t) (payload : bytes) : bytes :=
  header_image h ++ payload
    ++ le_split 2 ((sum_of (header_image h) + sum_of payload) mod 65536)
    ++ [byte.of_Z END_BYTE].

(** The header fields fit their wire fields. *)
Definition fields_fit (h : PacketHeader.t) : Prop :=
  0 <= PacketHeader.msg_type h <= 65535
  /\ 0 <= PacketHeader.frame_num h <= 65535
  /\ 0 <= PacketHeader.frag_index h <= 255
  /\ 0 <= PacketHeader.frag_total h <= 255.

(** The [i]-th fragment of a frame: [data[i*1024 : i*1024 + 1024]]. *)
Definition chunk (data : bytes) (i : Z) : bytes :=
  slice data (i * FRAGMENT_SIZE) (i * FRAGMENT_SIZE + FRAGMENT_SIZE).

(** ** Short form sender ([run_hardware_tests.py]) *)

(** [SerialInterface.send_packet]: [tx] holds the bytes written to the port
    so far.  An exception of [encode] is caught and reported as [False];
    a failing [ser.write] is outside the model. *)
Definition send_packet (connected : bool) (cmd : Z) (payload : bytes)
    (tx : bytes) : bool * bytes :=
  if negb connected then (false, tx)
  else
    match UartPacket.encode cmd payload with
    | Ok packet => (true, tx ++ packet)
    | Err _ => (false, tx)
    end.

(** ** The noisy channel simulator ([run_extended_tests.py]) *)

Module UartSimulator.

(** The simulator's attributes.  [error_rate] and [drop_rate] are only
    compared with [random.random()]; the outcomes of these comparisons and
    of [random.randint(0, 7)] are inputs of [send_packet] below. *)
Record t : Type := mk {
  tx_buffer : list Z;
  rx_buffer : list Z;
  bytes_sent : Z;
  bytes_received : Z;
  packets_sent : Z;
  packets_dropped : Z;
  crc_errors : Z
}.

(** [__init__] *)
Definition init : t := mk [] [] 0 0 0 0 0.

(** The loop over the bytes of a packet: [noise] gives, byte by byte, the
    outcome of [random.random() < self.error_rate] and, when it holds, the
    bit [random.randint(0, 7)] to flip ([None]: the byte goes out as it
    is); the result is what is appended to [tx_buffer]. *)
Fixpoint transmit (packet : bytes) (noise : list (option Z)) : list Z :=
  match packet with
  | [] => []
  | byte :: packet' =>
      let byte' :=
        match hd None noise with
        | Some k => Z.lxor (byte.unsigned byte) (Z.shiftl 1 k)
        | None => byte.unsigned byte
        end in
      byte' :: transmit packet' (tl noise)
  end.

(** [send_packet]; [dropped] is the outcome of
    [random.random() < self.drop_rate].  An exception of [encode] leaves
    the simulator as it was. *)
Definition send_packet (self : t) (cmd : Z) (payload : bytes)
    (dropped : bool) (noise : list (option Z)) : result (bool * t) :=
  packet <- UartPacket.encode cmd payload ;;
  if dropped then
    Ok (false,
        mk (tx_buffer self) (rx_buffer self) (bytes_sent self)
           (bytes_received self) (packets_sent self)
           (packets_dropped self + 1) (crc_errors self))
  else
    Ok (true,
        mk (tx_buffer self ++ transmit packet noise) (rx_buffer self)
           (bytes_sent self + len packet) (bytes_received self)
           (packets_sent self + 1) (packets_dropped self) (crc_errors self)).

(** [receive]: [bytes(self.tx_buffer)], then the buffer is cleared. *)
Definition receive (self : t) : result (bytes * t) :=
  data <- bytes_of_ints (tx_buffer self) ;;
  Ok (data,
      mk [] (rx_buffer self) (bytes_sent self) (bytes_received self)
         (packets_sent self) (packets_dropped self) (crc_errors self)).

(** ["CRC" in str(e)], on the messages of [decode]'s errors: only
    "CRC mismatch: ..." contains it. *)
Definition mentions_crc (e : error) : bool :=
  match e with
  | ChecksumMismatch => true
  | _ => false
  end.

(** The errors [decode] raises as [ValueError], which [try_decode] catches. *)
Definition is_value_error (e : error) : bool :=
  match e with
  | StructError | IndexError => false
  | _ => true
  end.

(** [try_decode] *)
Definition try_decode (self : t) (data : bytes)
    : result (option (Z * bytes) * t) :=
  match UartPacket.decode data with
  | Ok r => Ok (Some r, self)
  | Err e =>
      if is_value_error e then
        if mentions_crc e then
          Ok (None,
              mk (tx_buffer self) (rx_buffer self) (bytes_sent self)
                 (bytes_received self) (packets_sent self)
                 (packets_dropped self) (crc_errors self + 1))
        else Ok (None, self)
      else Err e
  end.

(** The bit indices [random.randint(0, 7)] can return. *)
Definition noise_ok (noise : list (option Z)) : Prop :=
  Forall (fun n => forall k, n = Some k -> 0 <= k <= 7) noise.

(** The states the simulator can be in: a fresh one, and what the three
    methods make of a state it can be in. *)
Inductive reachable : t -> Prop :=
| reach_init : reachable init
| reach_send (self self' : t) (cmd : Z) (payload : bytes) (dropped : bool)
    (noise : list (option Z)) (sent : bool) :
    reachable self ->
    noise_ok noise ->
    send_packet self cmd payload dropped noise = Ok (sent, self') ->
    reachable self'
| reach_receive (self self' : t) (data : bytes) :
    reachable self ->
    receive self = Ok (data, self') ->
    reachable self'
| reach_try_decode (self self' : t) (data : bytes) (r : option (Z * bytes)) :
    reachable self ->
    try_decode self data = Ok (r, self') ->
    reachable self'.

End UartSimulator.

(** ** The GPU simulator ([run_extended_tests.py]) *)

(** [range(a, b)] *)
Definition range2 (a b : Z) : list Z :=
  map (fun k => a + Z.of_nat k) (seq 0 (Z.to_nat (b - a))).

(** A Python list index resolved against a list of length [n]: a negative
    index counts from the end; [None] stands for [IndexError]. *)
Definition list_index (n : nat) (i : Z) : option nat :=
  let j := if i <? 0 then Z.of_nat n + i else i in
  if (0 <=? j) && (j <? Z.of_nat n) then Some (Z.to_nat j) else None.

(** [l[i]] on a list. *)
Definition list_get {A : Type} (l : list A) (i : Z) : result A :=
  match list_index (length l) i with
  | Some k =>
      match nth_error l k with
      | Some v => Ok v
      | None => Err IndexError
      end
  | None => Err IndexError
  end.

(** [l[i] = v] on a list; the updated list is returned. *)
Definition list_set {A : Type} (l : list A) (i : Z) (v : A) : result (list A) :=
  match list_index (length l) i with
  | Some k => Ok (firstn k l ++ v :: skipn (S k) l)
  | None => Err IndexError
  end.

Module Opcode.
Definition NOP : Z := 0x00.
Definition SET_PIXEL : Z := 0x01.
Definition FILL_RECT : Z := 0x02.
Definition DRAW_LINE : Z := 0x03.
Definition DRAW_CIRCLE : Z := 0x04.
Definition CLEAR : Z := 0x10.
Definition FLIP : Z := 0x11.
Definition SET_COLOR : Z := 0x12.
Definition SYNC : Z := 0xF0.
Definition RESET : Z := 0xFF.
End Opcode.

Module FrameBuffer.

Record t : Type := mk {
  width : Z;
  height : Z;
  pixels : list (list Z)
}.

(** [__init__]: [[[0] * width for _ in range(height)]] *)
Definition init (width height : Z) : t :=
  mk width height
     (map (fun _ => repeat 0 (Z.to_nat width)) (range height)).

(** [self.pixels[y][x] = color] *)
Definition store (pixels : list (list Z)) (x y color : Z)
    : result (list (list Z)) :=
  row <- list_get pixels y ;;
  row' <- list_set row x color ;;
  list_set pixels y row'.

(** [self.pixels[y][x]] *)
Definition load (pixels : list (list Z)) (x y : Z) : result Z :=
  row <- list_get pixels y ;;
  list_get row x.

Definition in_bounds (self : t) (x y : Z) : bool :=
  ((0 <=? x) && (x <? width self)) && ((0 <=? y) && (y <? height self)).

Definition set_pixel (self : t) (x y color : Z) : result t :=
  if in_bounds self x y then
    pixels' <- store (pixels self) x y color ;;
    Ok (mk (width self) (height self) pixels')
  else Ok self.

Definition get_pixel (self : t) (x y : Z) : result Z :=
  if in_bounds self x y then load (pixels self) x y
  else Ok 0.

Definition clear (self : t) (color : Z) : result t :=
  pixels' <-
    for_each (range (height self))
      (fun pixels y =>
         for_each (range (width self))
           (fun pixels x => store pixels x y color)
           pixels)
      (pixels self) ;;
  Ok (mk (width self) (height self) pixels').

Definition fill_rect (self : t) (x y w h color : Z) : result t :=
  pixels' <-
    for_each (range2 (Z.max 0 y) (Z.min (height self) (y + h)))
      (fun pixels py =>
         for_each (range2 (Z.max 0 x) (Z.min (width self) (x + w)))
           (fun pixels px => store pixels px py color)
           pixels)
      (pixels self) ;;
  Ok (mk (width self) (height self) pixels').

(** The shape [__init__] gives the pixel rows: [height] rows of [width]
    pixels each (none for a negative size). *)
Definition shaped (self : t) : Prop :=
  length (pixels self) = Z.to_nat (height self)
  /\ Forall (fun row => length row = Z.to_nat (width self)) (pixels self).

End FrameBuffer.

Module GpuSimulator.

Record t : Type := mk {
  fb : FrameBuffer.t;
  current_color : Z;
  blend_mode : Z;
  clip_x : Z;
  clip_y : Z;
  clip_w : Z;
  clip_h : Z;
  commands_executed : Z
}.

(** [__init__] *)
Definition init (width height : Z) : t :=
  mk (FrameBuffer.init width height) 0xFFFFFF 0 0 0 width height 0.

Definition with_fb (self : t) (fb' : FrameBuffer.t) : t :=
  mk fb' (current_color self) (blend_mode self) (clip_x self) (clip_y self)
     (clip_w self) (clip_h self) (commands_executed self).

(** [struct.unpack(fmt, data)] with the tuple taken apart. *)
Definition unpack1 (c : struct.code) (data : bytes) : result Z :=
  fields <- struct.unpack [c] data ;;
  match fields with
  | [v] => Ok v
  | _ => Err StructError
  end.

Definition unpack2 (c1 c2 : struct.code) (data : bytes) : result (Z * Z) :=
  fields <- struct.unpack [c1; c2] data ;;
  match fields with
  | [v1; v2] => Ok (v1, v2)
  | _ => Err StructError
  end.

Definition unpack4 (c1 c2 c3 c4 : struct.code) (data : bytes)
    : result (Z * Z * Z * Z) :=
  fields <- struct.unpack [c1; c2; c3; c4] data ;;
  match fields with
  | [v1; v2; v3; v4] => Ok (v1, v2, v3, v4)
  | _ => Err StructError
  end.

Definition execute (self : t) (cmd : Z) (payload : bytes) : result (bool * t) :=
  let self :=
    mk (fb self) (current_color self) (blend_mode self) (clip_x self)
       (clip_y self) (clip_w self) (clip_h self) (commands_executed self + 1) in
  if cmd =? Opcode.NOP then Ok (true, self)
  else if cmd =? Opcode.CLEAR then
    color <- (if 4 <=? len payload
              then unpack1 struct.I (slice payload 0 4)
              else Ok 0) ;;
    fb' <- FrameBuffer.clear (fb self) color ;;
    Ok (true, with_fb self fb')
  else if cmd =? Opcode.SET_PIXEL then
    if 6 <=? len payload then
      xy <- unpack2 struct.H struct.H (slice payload 0 4) ;;
      color <- unpack1 struct.H (slice payload 4 6) ;;
      fb' <- FrameBuffer.set_pixel (fb self) (fst xy) (snd xy) color ;;
      Ok (true, with_fb self fb')
    else Ok (false, self)
  else if cmd =? Opcode.FILL_RECT then
    if 12 <=? len payload then
      xywh <- unpack4 struct.H struct.H struct.H struct.H (slice payload 0 8) ;;
      color <- unpack1 struct.I (slice payload 8 12) ;;
      let '(x, y, w, h) := xywh in
      fb' <- FrameBuffer.fill_rect (fb self) x y w h color ;;
      Ok (true, with_fb self fb')
    else Ok (false, self)
  else if cmd =? Opcode.SET_COLOR then
    if 4 <=? len payload then
      color <- unpack1 struct.I (slice payload 0 4) ;;
      Ok (true,
          mk (fb self) color (blend_mode self) (clip_x self) (clip_y self)
             (clip_w self) (clip_h self) (commands_executed self))
    else Ok (false, self)
  else if cmd =? Opcode.FLIP then Ok (true, self)
  else if cmd =? Opcode.RESET then
    Ok (true,
        init (FrameBuffer.width (fb self)) (FrameBuffer.height (fb self)))
  else Ok (false, self).

(** The loop [for cmd, payload in commands: gpu.execute(cmd, payload)]. *)
Definition run (commands : list (Z * bytes)) (self : t) : result t :=
  for_each commands
    (fun gpu command =>
       r <- execute gpu (fst command) (snd command) ;;
       Ok (snd r))
    self.

End GpuSimulator.

(** ** Observations on the frame buffer *)

Definition pixel_at (pixels : list (list Z)) (x y : Z) : Z :=
  nth (Z.to_nat x) (nth (Z.to_nat y) pixels []) 0.

Definition inside (v : Z) (xs : list Z) : bool := existsb (Z.eqb v) xs.

Definition grid (W H : nat) (pixels : list (list Z)) : Prop :=
  length pixels = H /\ Forall (fun row => length row = W) pixels.


(** ** Fixed-point helpers and the line algorithm ([run_extended_tests.py]) *)

Definition FIXED_SCALE : Z := 65536.

Definition fixed_mul (a b : Z) : Z := Z.shiftr (a * b) 16.

Definition fixed_div (a b : Z) : Z :=
  if negb (b =? 0) then Z.shiftl a 16 / b else 0.

(** The [while True] loop of [bresenham_line]; [fuel] bounds the number of
    iterations, and [None] means it was used up before the [break]. *)
Fixpoint bresenham_loop (fuel : nat) (x0 y0 x1 y1 dx dy sx sy err : Z)
    (points : list (Z * Z)) : option (list (Z * Z)) :=
  match fuel with
  | O => None
  | S fuel' =>
      let points := points ++ [(x0, y0)] in
      if (x0 =? x1) && (y0 =? y1) then Some points
      else
        let e2 := 2 * err in
        let '(err, x0) :=
          if dy <=? e2 then (err + dy, x0 + sx) else (err, x0) in
        let '(err, y0) :=
          if e2 <=? dx then (err + dx, y0 + sy) else (err, y0) in
        bresenham_loop fuel' x0 y0 x1 y1 dx dy sx sy err points
  end.

Definition bresenham_line (fuel : nat) (x0 y0 x1 y1 : Z)
    : option (list (Z * Z)) :=
  let dx := Z.abs (x1 - x0) in
  let dy := - Z.abs (y1 - y0) in
  let sx := if x0 <? x1 then 1 else -1 in
  let sy := if y0 <? y1 then 1 else -1 in
  let err := dx + dy in
  bresenham_loop fuel x0 y0 x1 y1 dx dy sx sy err [].

(** Every two consecutive elements of a list are related by [R]. *)
Fixpoint consecutive {A : Type} (R : A -> A -> Prop) (l : list A) : Prop :=
  match l with
  | p :: (q :: _) as rest => R p q /\ consecutive R rest
  | _ => True
  end.

(** [q] is one of the eight neighbours of [p], and nearer to [(x1, y1)] in
    neither coordinate farther and in at least one closer. *)
Definition towards (x1 y1 : Z) (p q : Z * Z) : Prop :=
  Z.abs (fst q - fst p) <= 1 /\ Z.abs (snd q - snd p) <= 1
  /\ Z.abs (x1 - fst q) <= Z.abs (x1 - fst p)
  /\ Z.abs (y1 - snd q) <= Z.abs (y1 - snd p)
  /\ Z.abs (x1 - fst q) + Z.abs (y1 - snd q)
     < Z.abs (x1 - fst p) + Z.abs (y1 - snd p).

(** ** Colour arithmetic ([run_extended_tests.py]) *)

(** The RGB565 conversion of [test_color_grayscale] and its way back. *)
Definition rgb565 (r g b : Z) : Z :=
  Z.lor (Z.lor (Z.shiftl (Z.shiftr r 3) 11) (Z.shiftl (Z.shiftr g 2) 5))
        (Z.shiftr b 3).

Definition r_back (rgb565 : Z) : Z :=
  Z.shiftl (Z.land (Z.shiftr rgb565 11) 0x1F) 3.

Definition g_back (rgb565 : Z) : Z :=
  Z.shiftl (Z.land (Z.shiftr rgb565 5) 0x3F) 2.

Definition b_back (rgb565 : Z) : Z :=
  Z.shiftl (Z.land rgb565 0x1F) 3.

(** [alpha_blend] of [test_color_alpha_blend]. *)
Definition alpha_blend (src dst alpha : Z) : Z :=
  (src * alpha + dst * (255 - alpha)) / 255.

(** The three fields of an RGB565 word come back as they went in. *)
Definition fields_come_back (hi mid lo : Z) : bool :=
  let w := Z.lor (Z.lor (Z.shiftl hi 11) (Z.shiftl mid 5)) lo in
  (Z.land (Z.shiftr w 11) 0x1F =? hi)
  && (Z.land (Z.shiftr w 5) 0x3F =? mid)
  && (Z.land w 0x1F =? lo)
  && (w <? 65536).

(** ** The extended-form wire format, written out byte by byte *)

(** The header as the format string ['<BBBHHHBB'] lays its eight values
    out: the three sync bytes, the message type, the payload length and the
    frame number in two little-endian bytes each, the fragment index and the
    fragment count in one byte each. *)
Definition wire_header
    (msg_type payload_len frame_num frag_index frag_total : Z) : bytes :=
  [byte.of_Z 0xAA; byte.of_Z 0x55; byte.of_Z 0xCC;
   byte.of_Z msg_type; byte.of_Z (Z.shiftr msg_type 8);
   byte.of_Z payload_len; byte.of_Z (Z.shiftr payload_len 8);
   byte.of_Z frame_num; byte.of_Z (Z.shiftr frame_num 8);
   byte.of_Z frag_index; byte.of_Z frag_total].

(** A whole packet: header, payload, the sum of the header and payload
    bytes modulo 65536 in two little-endian bytes, and the end byte. *)
Definition wire_packet
    (msg_type payload_len frame_num frag_index frag_total : Z)
    (payload : bytes) : bytes :=
  let header :=
    wire_header msg_type payload_len frame_num frag_index frag_total in
  let checksum := (sum_of header + sum_of payload) mod 65536 in
  header ++ payload
    ++ [byte.of_Z checksum; byte.of_Z (Z.shiftr checksum 8); byte.of_Z 0x55].

(** The 16-bit little-endian field at offset [i] of a buffer. *)
Definition u16_at (data : bytes) (i : nat) : Z :=
  byte_at data i + 256 * byte_at data (i + 1).




(** * Properties *)

(** ** Arithmetic of bytes *)

Lemma lxor_byte_range (a b : Z) :
  0 <= a < 256 -> 0 <= b < 256 -> 0 <= Z.lxor a b < 256.
Proof.
  intros Ha Hb.
  assert (E : Z.lxor a b = Z.lxor a b mod 2 ^ 8).
  { rewrite <- (Z.mod_small a (2 ^ 8)) at 1 by (change (2 ^ 8) with 256; lia).
    rewrite <- (Z.mod_small b (2 ^ 8)) at 1 by (change (2 ^ 8) with 256; lia).
    Z.bitblast. }
  rewrite E. change 256 with (2 ^ 8). apply Z.mod_pos_bound. lia.
Qed.

Lemma land_ff_small (x : Z) : 0 <= x < 256 -> Z.land x 0xFF = x.
Proof.
  intros Hx. change 0xFF with (Z.ones 8).
  rewrite Z.land_ones by lia. apply Z.mod_small. change (2 ^ 8) with 256. lia.
Qed.

Lemma unsigned_range256 (b : byte) : 0 <= byte.unsigned b < 256.
Proof. apply byte.unsigned_range. Qed.

Lemma unsigned_of_Z_small (z : Z) :
  0 <= z < 256 -> byte.unsigned (byte.of_Z z) = z.
Proof.
  intros Hz. rewrite byte.unsigned_of_Z. unfold byte.wrap.
  apply Z.mod_small. change (2 ^ 8) with 256. lia.
Qed.

Lemma xor_bytes_range (payload : bytes) (crc : Z) :
  0 <= crc < 256 -> 0 <= UartPacket.xor_bytes crc payload < 256.
Proof.
  unfold UartPacket.xor_bytes. revert crc.
  induction payload as [|b payload IH]; intros crc Hc; simpl.
  - exact Hc.
  - apply IH. apply lxor_byte_range; [exact Hc | apply unsigned_range256].
Qed.

Lemma len_nonneg {A : Type} (l : list A) : 0 <= len l.
Proof. unfold len. lia. Qed.

Lemma len_cons {A : Type} (x : A) (l : list A) : len (x :: l) = 1 + len l.
Proof. unfold len. simpl length. lia. Qed.

Lemma len_app {A : Type} (l1 l2 : list A) : len (l1 ++ l2) = len l1 + len l2.
Proof. unfold len. rewrite length_app. lia. Qed.

(** ** Short form: what [decode] does on a buffer of at least five bytes *)

Lemma decode_short (data : bytes) :
  len data < 5 -> UartPacket.decode data = Err PacketTooShort.
Proof.
  intros H. unfold UartPacket.decode.
  destruct (Z.ltb_spec (len data) 5); [reflexivity | lia].
Qed.

Lemma slice_app_middle {A : Type} (x y z : list A) :
  slice (x ++ y ++ z) (len x) (len x + len y) = y.
Proof.
  unfold slice, len. rewrite Nat2Z.id.
  replace (Z.to_nat (Z.of_nat (length x) + Z.of_nat (length y)))
    with (length x + length y)%nat by lia.
  rewrite firstn_app.
  replace (length x + length y - length x)%nat with (length y) by lia.
  rewrite firstn_all2 by lia.
  rewrite firstn_app, Nat.sub_diag, firstn_all. cbn [firstn].
  rewrite app_nil_r, skipn_app, Nat.sub_diag, skipn_all. reflexivity.
Qed.

Lemma decode_framed (m0 m1 c l : byte) (rest : bytes) :
  (1 <= length rest)%nat ->
  UartPacket.decode (m0 :: m1 :: c :: l :: rest) =
    if negb ((byte.unsigned m0 =? 0xAA) && (byte.unsigned m1 =? 0x55))
    then Err BadMagic
    else if len rest <? byte.unsigned l + 1 then Err IncompletePacket
    else
      let n := Z.to_nat (byte.unsigned l) in
      match nth_error rest n with
      | Some crc =>
          if byte.unsigned crc =?
             UartPacket.xor_bytes (Z.lxor (byte.unsigned c) (byte.unsigned l))
               (firstn n rest)
          then Ok (byte.unsigned c, firstn n rest)
          else Err ChecksumMismatch
      | None => Err IndexError
      end.
Proof.
  intros Hrest. unfold UartPacket.decode.
  destruct (Z.ltb_spec (len (m0 :: m1 :: c :: l :: rest)) 5) as [Hlt|_].
  { rewrite !len_cons in Hlt. unfold len in Hlt. lia. }
  unfold slice at 1. change (Z.to_nat 0) with 0%nat. change (Z.to_nat 2) with 2%nat.
  cbn [firstn skipn]. unfold UartPacket.MAGIC. cbn [bytes_eqb].
  rewrite !unsigned_of_Z_small by lia. rewrite andb_true_r.
  destruct (negb ((byte.unsigned m0 =? 170) && (byte.unsigned m1 =? 85)));
    [reflexivity|].
  unfold getitem at 1 2. change (Z.to_nat 2) with 2%nat.
  change (Z.to_nat 3) with 3%nat. cbn [Z.ltb Z.compare nth_error bind].
  pose proof (unsigned_range256 l) as Hl.
  rewrite !len_cons.
  replace (1 + (1 + (1 + (1 + len rest))) <? 4 + byte.unsigned l + 1)
    with (len rest <? byte.unsigned l + 1)
    by (destruct (Z.ltb_spec (len rest) (byte.unsigned l + 1));
        destruct (Z.ltb_spec (1 + (1 + (1 + (1 + len rest))))
                    (4 + byte.unsigned l + 1)); lia || reflexivity).
  destruct (Z.ltb_spec (len rest) (byte.unsigned l + 1)) as [|Hlen];
    [reflexivity|].
  unfold slice, getitem.
  destruct (Z.ltb_spec (4 + byte.unsigned l) 0) as [|_]; [lia|].
  replace (Z.to_nat (4 + byte.unsigned l))
    with (S (S (S (S (Z.to_nat (byte.unsigned l)))))) by lia.
  change (Z.to_nat 4) with 4%nat. cbn [firstn skipn nth_error].
  cbv zeta.
  destruct (nth_error rest (Z.to_nat (byte.unsigned l))) as [crc|];
    [|reflexivity].
  cbn [bind].
  rewrite land_ff_small
    by (apply xor_bytes_range, lxor_byte_range; apply unsigned_range256).
  destruct (byte.unsigned crc =? _); reflexivity.
Qed.

Lemma unsigned_eq_of_Z (b : byte) (z : Z) :
  byte.unsigned b = z -> b = byte.of_Z z.
Proof. intros <-. symmetry. apply byte.of_Z_unsigned. Qed.

Lemma bytes_of_ints_1 (v : Z) :
  0 <= v < 256 -> bytes_of_ints [v] = Ok [byte.of_Z v].
Proof.
  intros Hv. cbn [bytes_of_ints].
  destruct (Z.leb_spec 0 v); [|lia]. destruct (Z.ltb_spec v 256); [|lia].
  reflexivity.
Qed.

Lemma bytes_of_ints_2 (v w : Z) :
  0 <= v < 256 -> 0 <= w < 256 ->
  bytes_of_ints [v; w] = Ok [byte.of_Z v; byte.of_Z w].
Proof.
  intros Hv Hw. cbn [bytes_of_ints].
  destruct (Z.leb_spec 0 v); [|lia]. destruct (Z.ltb_spec v 256); [|lia].
  destruct (Z.leb_spec 0 w); [|lia]. destruct (Z.ltb_spec w 256); [|lia].
  reflexivity.
Qed.

(** The bytes [encode] produces for a command byte and a payload that fits. *)
Lemma encode_bytes (cmd : Z) (payload : bytes) :
  0 <= cmd < 256 -> len payload <= 255 ->
  UartPacket.encode cmd payload =
    Ok (xAA :: x55 :: byte.of_Z cmd :: byte.of_Z (len payload)
          :: payload
          ++ [byte.of_Z (UartPacket.xor_bytes (Z.lxor cmd (len payload)) payload)]).
Proof.
  intros Hc Hl. unfold UartPacket.encode, UartPacket.MAX_PAYLOAD.
  pose proof (len_nonneg payload) as Hn.
  destruct (Z.ltb_spec 255 (len payload)); [lia|].
  rewrite bytes_of_ints_2 by lia. cbn [bind].
  assert (Hx : 0 <= UartPacket.xor_bytes (Z.lxor cmd (len payload)) payload < 256)
    by (apply xor_bytes_range, lxor_byte_range; lia).
  rewrite land_ff_small by exact Hx.
  rewrite bytes_of_ints_1 by exact Hx. reflexivity.
Qed.

(** [decode] on a buffer that is laid out as a frame followed by anything. *)
Lemma decode_frame (cb l crc : byte) (p tail : bytes) :
  len p = byte.unsigned l ->
  UartPacket.decode (xAA :: x55 :: cb :: l :: p ++ crc :: tail) =
    if byte.unsigned crc =?
       UartPacket.xor_bytes (Z.lxor (byte.unsigned cb) (byte.unsigned l)) p
    then Ok (byte.unsigned cb, p)
    else Err ChecksumMismatch.
Proof.
  intros Hp. rewrite decode_framed by (rewrite length_app; simpl; lia).
  unfold xAA, x55. rewrite !unsigned_of_Z_small by lia.
  cbn [Z.eqb Pos.eqb andb negb].
  rewrite len_app, len_cons.
  pose proof (len_nonneg tail).
  destruct (Z.ltb_spec (len p + (1 + len tail)) (byte.unsigned l + 1)); [lia|].
  cbv zeta. rewrite <- Hp. unfold len. rewrite Nat2Z.id.
  rewrite nth_error_app2 by lia. rewrite Nat.sub_diag. cbn [nth_error].
  rewrite firstn_app, Nat.sub_diag, firstn_all. cbn [firstn].
  rewrite app_nil_r. reflexivity.
Qed.

(** Every accepted buffer is laid out as a frame followed by anything. *)
Lemma decode_Ok_inv (data : bytes) (cmd : Z) (payload : bytes) :
  UartPacket.decode data = Ok (cmd, payload) ->
  exists cb l crc tail,
    data = xAA :: x55 :: cb :: l :: payload ++ crc :: tail
    /\ cmd = byte.unsigned cb
    /\ len payload = byte.unsigned l
    /\ byte.unsigned crc =
         UartPacket.xor_bytes (Z.lxor (byte.unsigned cb) (byte.unsigned l)) payload.
Proof.
  intros H.
  destruct (Z.ltb_spec (len data) 5) as [Hs|Hs].
  { rewrite decode_short in H by exact Hs. discriminate. }
  destruct data as [|m0 [|m1 [|cb [|l rest]]]];
    try (unfold len in Hs; simpl in Hs; lia).
  assert (Hr : (1 <= length rest)%nat)
    by (unfold len in Hs; simpl in Hs; lia).
  rewrite decode_framed in H by exact Hr.
  destruct (Z.eqb_spec (byte.unsigned m0) 0xAA) as [E0|]; [|discriminate].
  destruct (Z.eqb_spec (byte.unsigned m1) 0x55) as [E1|]; [|discriminate].
  cbn [andb negb] in H.
  destruct (Z.ltb_spec (len rest) (byte.unsigned l + 1)) as [|Hlen];
    [discriminate|].
  cbv zeta in H.
  destruct (nth_error rest (Z.to_nat (byte.unsigned l))) as [crc|] eqn:En;
    [|discriminate].
  destruct (Z.eqb_spec (byte.unsigned crc)
              (UartPacket.xor_bytes (Z.lxor (byte.unsigned cb) (byte.unsigned l))
                 (firstn (Z.to_nat (byte.unsigned l)) rest))) as [Ec|];
    [|discriminate].
  injection H as Hcmd Hpay.
  pose proof (unsigned_range256 l) as Hl.
  destruct (nth_error_split rest _ En) as (l1 & l2 & Hsplit & Hlen1).
  assert (Hp : payload = l1).
  { rewrite <- Hpay, Hsplit, <- Hlen1.
    rewrite firstn_app, Nat.sub_diag, firstn_all. cbn [firstn].
    apply app_nil_r. }
  exists cb, l, crc, l2. subst l1.
  repeat split.
  - rewrite (unsigned_eq_of_Z _ _ E0), (unsigned_eq_of_Z _ _ E1), Hsplit.
    reflexivity.
  - symmetry. exact Hcmd.
  - unfold len. rewrite Hlen1. lia.
  - rewrite Ec, Hpay. reflexivity.
Qed.

Lemma xor_bytes_xor_of (acc : Z) (p : bytes) :
  UartPacket.xor_bytes acc p = Z.lxor acc (xor_of (map byte.unsigned p)).
Proof.
  unfold UartPacket.xor_bytes, xor_of. revert acc.
  induction p as [|b p IH]; intros acc; simpl.
  - symmetry. apply Z.lxor_0_r.
  - rewrite IH. apply Z.lxor_assoc.
Qed.

Lemma xor_bytes_fields (a b : Z) (p : bytes) :
  UartPacket.xor_bytes (Z.lxor a b) p = xor_of (a :: b :: map byte.unsigned p).
Proof.
  rewrite xor_bytes_xor_of. unfold xor_of. simpl. apply Z.lxor_assoc.
Qed.

(** ** C1, C2: short-form encoding and round trip *)

(** C1. Short-form round-trip law: for every command byte [cmd] in 0..255 and
    every payload of at most 255 bytes, [encode] succeeds and [decode] of the
    encoded packet succeeds and returns exactly [(cmd, payload)]. *)
Theorem short_form_roundtrip (cmd : Z) (payload : bytes) :
  0 <= cmd <= 255 ->
  (length payload <= 255)%nat ->
  exists packet,
    UartPacket.encode cmd payload = Ok packet
    /\ UartPacket.decode packet = Ok (cmd, payload).
Proof.
  intros Hc Hl.
  assert (Hlen : 0 <= len payload <= 255) by (unfold len; lia).
  eexists. split; [apply encode_bytes; lia|].
  rewrite decode_frame by (rewrite unsigned_of_Z_small; lia).
  rewrite !unsigned_of_Z_small; try lia.
  - rewrite Z.eqb_refl. reflexivity.
  - apply xor_bytes_range, lxor_byte_range; lia.
Qed.

Lemma short_form_roundtrip_witness :
  exists packet,
    UartPacket.encode 0x01 (map byte.of_Z [10; 20; 255; 0; 0]) = Ok packet
    /\ UartPacket.decode packet = Ok (0x01, map byte.of_Z [10; 20; 255; 0; 0]).
Proof.
  apply (short_form_roundtrip 0x01 (map byte.of_Z [10; 20; 255; 0; 0]));
    simpl; lia.
Defined.

(** C2. Short-form [encode] emits exactly
    [0xAA][0x55][cmd][len][payload][checksum], the checksum byte being the XOR
    of [cmd], [len] and all payload bytes; [encode(0x00, b'')] is
    [AA 55 00 00 00] and [encode(0x10, b'')] is [AA 55 10 00 10]. *)
Theorem short_form_layout (cmd : Z) (payload : bytes) :
  0 <= cmd <= 255 ->
  (length payload <= 255)%nat ->
  let checksum := xor_of (cmd :: len payload :: map byte.unsigned payload) in
  UartPacket.encode cmd payload =
    Ok ([byte.of_Z 0xAA; byte.of_Z 0x55; byte.of_Z cmd; byte.of_Z (len payload)]
          ++ payload ++ [byte.of_Z checksum])
  /\ byte.unsigned (byte.of_Z cmd) = cmd
  /\ byte.unsigned (byte.of_Z (len payload)) = len payload
  /\ byte.unsigned (byte.of_Z checksum) = checksum
  /\ UartPacket.encode 0x00 [] = Ok (map byte.of_Z [0xAA; 0x55; 0x00; 0x00; 0x00])
  /\ UartPacket.encode 0x10 [] = Ok (map byte.of_Z [0xAA; 0x55; 0x10; 0x00; 0x10]).
Proof.
  intros Hc Hl checksum.
  assert (Hlen : 0 <= len payload <= 255) by (unfold len; lia).
  assert (Hx : 0 <= checksum < 256).
  { unfold checksum. rewrite <- xor_bytes_fields.
    apply xor_bytes_range, lxor_byte_range; lia. }
  repeat split.
  - rewrite encode_bytes by lia. unfold checksum.
    rewrite xor_bytes_fields. reflexivity.
  - apply unsigned_of_Z_small. lia.
  - apply unsigned_of_Z_small. lia.
  - apply unsigned_of_Z_small. exact Hx.
Qed.

Lemma short_form_layout_witness :
  let cmd := 0x01 in
  let payload := map byte.of_Z [10; 20; 255; 0; 0] in
  UartPacket.encode cmd payload =
    Ok ([byte.of_Z 0xAA; byte.of_Z 0x55; byte.of_Z cmd; byte.of_Z (len payload)]
          ++ payload
          ++ [byte.of_Z (xor_of (cmd :: len payload :: map byte.unsigned payload))]).
Proof.
  intros cmd payload.
  refine (proj1 (short_form_layout cmd payload _ _)); subst cmd payload;
    simpl; lia.
Defined.

(** ** C4: error taxonomy of short-form [decode] *)

Lemma nth_error_unsigned_nth (rest : bytes) (n : nat) :
  (n < length rest)%nat ->
  nth_error rest n = Some (nth n rest (byte.of_Z 0)).
Proof. intros H. apply nth_error_nth'. exact H. Qed.

(** C4. For every buffer [b], [decode b] fails with [PacketTooShort] exactly
    when [b] has fewer than 5 bytes; otherwise with [BadMagic] exactly when
    the first two bytes are not [AA 55]; otherwise with [IncompletePacket]
    exactly when the declared length exceeds the bytes available after the
    header and before the checksum byte; otherwise with [ChecksumMismatch]
    exactly when the recomputed XOR differs from the transmitted byte; and
    returns [(cmd, payload)] in all remaining cases. *)
Theorem decode_error_taxonomy (b : bytes) :
  (UartPacket.decode b = Err PacketTooShort <-> len b < 5)
  /\ (UartPacket.decode b = Err BadMagic <-> 5 <= len b /\ ~ magic_ok b)
  /\ (UartPacket.decode b = Err IncompletePacket <->
        5 <= len b /\ magic_ok b /\ len b - 5 < declared_len b)
  /\ (UartPacket.decode b = Err ChecksumMismatch <->
        5 <= len b /\ magic_ok b /\ declared_len b <= len b - 5
        /\ recomputed_crc b <> transmitted_crc b)
  /\ (UartPacket.decode b = Ok (cmd_field b, framed_payload b) <->
        5 <= len b /\ magic_ok b /\ declared_len b <= len b - 5
        /\ recomputed_crc b = transmitted_crc b)
  /\ (UartPacket.decode b = Err PacketTooShort
      \/ UartPacket.decode b = Err BadMagic
      \/ UartPacket.decode b = Err IncompletePacket
      \/ UartPacket.decode b = Err ChecksumMismatch
      \/ UartPacket.decode b = Ok (cmd_field b, framed_payload b)).
Proof.
  destruct (Z.ltb_spec (len b) 5) as [Hs|Hs].
  { rewrite decode_short by exact Hs.
    repeat split; intros; try discriminate; try lia; try tauto. }
  destruct b as [|m0 [|m1 [|cb [|l rest]]]];
    try (unfold len in Hs; simpl in Hs; lia).
  assert (Hr : (1 <= length rest)%nat)
    by (unfold len in Hs; simpl in Hs; lia).
  rewrite decode_framed by exact Hr.
  unfold magic_ok, recomputed_crc, transmitted_crc, framed_payload,
    cmd_field, declared_len, byte_at.
  cbn [nth skipn Nat.add].
  rewrite !len_cons.
  pose proof (unsigned_range256 l) as Hl.
  assert (Hn : 1 <= len rest) by (unfold len; lia).
  destruct (Z.eqb_spec (byte.unsigned m0) 0xAA) as [E0|E0];
    [|cbn [andb negb];
      repeat split; intros; try discriminate; try lia; try tauto].
  destruct (Z.eqb_spec (byte.unsigned m1) 0x55) as [E1|E1];
    [|cbn [andb negb];
      repeat split; intros; try discriminate; try lia; try tauto].
  cbn [andb negb].
  destruct (Z.ltb_spec (len rest) (byte.unsigned l + 1)) as [Hlen|Hlen].
  { repeat split; intros; try discriminate; try lia; try tauto. }
  cbv zeta.
  rewrite nth_error_unsigned_nth by (unfold len in Hlen; lia).
  rewrite xor_bytes_fields.
  destruct (Z.eqb_spec
              (byte.unsigned (nth (Z.to_nat (byte.unsigned l)) rest (byte.of_Z 0)))
              (xor_of (byte.unsigned cb :: byte.unsigned l
                         :: map byte.unsigned
                              (firstn (Z.to_nat (byte.unsigned l)) rest))))
    as [Ec|Ec].
  - repeat split; intros; try discriminate; try lia; try tauto.
  - repeat split; intros; try discriminate; try lia; try tauto.
Qed.

(** ** C10: [decode] reads only a prefix of its input *)

(** C10. For every buffer on which [decode] succeeds, only the first
    [5 + len(payload)] bytes are inspected: replacing whatever follows them
    by any bytes, and in particular appending any [junk], leaves the result
    unchanged. *)
Theorem decode_prefix_only (packet junk : bytes) (cmd : Z) (payload : bytes) :
  UartPacket.decode packet = Ok (cmd, payload) ->
  UartPacket.decode (packet ++ junk) = Ok (cmd, payload)
  /\ UartPacket.decode (firstn (5 + length payload) packet ++ junk)
       = Ok (cmd, payload)
  /\ UartPacket.decode (firstn (5 + length payload) packet)
       = Ok (cmd, payload).
Proof.
  intros H.
  destruct (decode_Ok_inv _ _ _ H) as (cb & l & crc & tail & -> & -> & Hp & Hc).
  assert (Hpre : forall t,
            UartPacket.decode (xAA :: x55 :: cb :: l :: payload ++ crc :: t)
            = Ok (byte.unsigned cb, payload)).
  { intros t. rewrite decode_frame by exact Hp. rewrite Hc, Z.eqb_refl.
    reflexivity. }
  assert (Hcut : firstn (5 + length payload)
                   (xAA :: x55 :: cb :: l :: payload ++ crc :: tail)
                 = xAA :: x55 :: cb :: l :: payload ++ [crc]).
  { replace (5 + length payload)%nat
      with (S (S (S (S (length payload + 1))))) by lia.
    cbn [firstn]. do 4 f_equal.
    rewrite firstn_app.
    replace (length payload + 1 - length payload)%nat with 1%nat by lia.
    rewrite firstn_all2 by lia. reflexivity. }
  repeat split.
  - cbn [app]. rewrite <- app_assoc. cbn [app]. apply Hpre.
  - rewrite Hcut. cbn [app]. rewrite <- app_assoc. cbn [app]. apply Hpre.
  - rewrite Hcut. apply Hpre.
Qed.

Lemma decode_prefix_only_witness :
  let packet := map byte.of_Z [0xAA; 0x55; 0x10; 0; 0x10] in
  let junk := map byte.of_Z [0xDE; 0xAD] in
  UartPacket.decode (packet ++ junk) = Ok (0x10, []).
Proof.
  intros packet junk.
  refine (proj1 (decode_prefix_only packet junk 0x10 [] _)).
  vm_compute. reflexivity.
Defined.

(** ** Extended form: what [build_packet] emits *)

Lemma pack_one_ok (c : struct.code) (v : Z) :
  0 <= v < 2 ^ (8 * Z.of_nat (struct.size c)) ->
  struct.pack_one c v = Ok (le_split (struct.size c) v).
Proof.
  intros Hv. unfold struct.pack_one.
  destruct (Z.leb_spec 0 v); [|lia].
  destruct (Z.ltb_spec v (2 ^ (8 * Z.of_nat (struct.size c)))); [|lia].
  reflexivity.
Qed.

Lemma pack_one_err (c : struct.code) (v : Z) :
  2 ^ (8 * Z.of_nat (struct.size c)) <= v ->
  struct.pack_one c v = Err StructError.
Proof.
  intros Hv. unfold struct.pack_one.
  destruct (Z.ltb_spec v (2 ^ (8 * Z.of_nat (struct.size c)))); [lia|].
  rewrite andb_false_r. reflexivity.
Qed.

Lemma pack_one_outcome (c : struct.code) (v : Z) :
  struct.pack_one c v = Ok (le_split (struct.size c) v)
  \/ struct.pack_one c v = Err StructError.
Proof.
  unfold struct.pack_one.
  destruct ((0 <=? v) && (v <? 2 ^ (8 * Z.of_nat (struct.size c))));
    [left|right]; reflexivity.
Qed.

Lemma calc_checksum_sum (data : bytes) :
  calc_checksum data = sum_of data mod 65536.
Proof.
  unfold calc_checksum. change 0xFFFF with (Z.ones 16).
  rewrite Z.land_ones by lia. change (2 ^ 16) with 65536. f_equal.
  assert (G : forall acc,
            fold_left (fun total b => total + byte.unsigned b) data acc
            = acc + sum_of data).
  { induction data as [|b data IH]; intros acc; simpl; [lia|].
    rewrite IH. lia. }
  rewrite G. lia.
Qed.

Lemma sum_of_nonneg (data : bytes) : 0 <= sum_of data.
Proof.
  induction data as [|b data IH]; simpl; [lia|].
  pose proof (unsigned_range256 b). lia.
Qed.

Lemma sum_of_app (x y : bytes) : sum_of (x ++ y) = sum_of x + sum_of y.
Proof. induction x as [|b x IH]; simpl; [reflexivity|]. rewrite IH. lia. Qed.

Lemma header_pack_ok (msg_type payload_len frame_num frag_index frag_total : Z) :
  let h := PacketHeader.init msg_type payload_len frame_num frag_index frag_total in
  fields_fit h -> 0 <= payload_len <= 65535 ->
  PacketHeader.pack h = Ok (header_image h).
Proof.
  intros h Hfit Hp. subst h.
  unfold PacketHeader.pack, PacketHeader.fmt, header_image, fields_fit,
    PacketHeader.init in *.
  cbn [PacketHeader.sync1 PacketHeader.sync2 PacketHeader.sync3
       PacketHeader.msg_type PacketHeader.payload_len PacketHeader.frame_num
       PacketHeader.frag_index PacketHeader.frag_total] in *.
  destruct Hfit as (Hm & Hf & Hi & Ht).
  cbn [struct.pack].
  rewrite !pack_one_ok
    by (cbn [struct.size]; unfold SYNC_BYTE_1, SYNC_BYTE_2, SYNC_BYTE_3;
        first [ change (2 ^ (8 * Z.of_nat 1)) with 256
              | change (2 ^ (8 * Z.of_nat 2)) with 65536 ]; lia).
  reflexivity.
Qed.

Lemma header_pack_len_err (msg_type payload_len frame_num frag_index frag_total : Z) :
  let h := PacketHeader.init msg_type payload_len frame_num frag_index frag_total in
  fields_fit h -> 65535 < payload_len ->
  PacketHeader.pack h = Err StructError.
Proof.
  intros h Hfit Hp. subst h.
  unfold PacketHeader.pack, PacketHeader.fmt, header_image, fields_fit,
    PacketHeader.init in *.
  cbn [PacketHeader.sync1 PacketHeader.sync2 PacketHeader.sync3
       PacketHeader.msg_type PacketHeader.payload_len PacketHeader.frame_num
       PacketHeader.frag_index PacketHeader.frag_total] in *.
  destruct Hfit as (Hm & Hf & Hi & Ht).
  cbn [struct.pack].
  rewrite !pack_one_ok
    by (cbn [struct.size]; unfold SYNC_BYTE_1, SYNC_BYTE_2, SYNC_BYTE_3;
        first [ change (2 ^ (8 * Z.of_nat 1)) with 256
              | change (2 ^ (8 * Z.of_nat 2)) with 65536 ]; lia).
  rewrite (pack_one_err struct.H payload_len)
    by (cbn [struct.size]; change (2 ^ (8 * Z.of_nat 2)) with 65536; lia).
  reflexivity.
Qed.

Lemma build_packet_image (msg_type : Z) (payload : bytes)
    (frame_num frag_index frag_total : Z) :
  let h :=
    PacketHeader.init msg_type (len payload) frame_num frag_index frag_total in
  fields_fit h -> len payload <= 65535 ->
  build_packet msg_type payload frame_num frag_index frag_total
  = Ok (packet_image h payload).
Proof.
  intros h Hfit Hlen. unfold build_packet.
  pose proof (len_nonneg payload) as Hn.
  pose proof (header_pack_ok msg_type (len payload) frame_num frag_index
                frag_total Hfit (conj Hn Hlen)) as Hpack.
  fold h in Hpack |- *. rewrite Hpack. cbn [bind].
  unfold PacketFooter.pack, PacketFooter.init, PacketFooter.fmt.
  cbn [PacketFooter.checksum PacketFooter.end_byte struct.pack].
  rewrite !calc_checksum_sum.
  change 0xFFFF with (Z.ones 16). rewrite Z.land_ones by lia.
  change (2 ^ 16) with 65536.
  rewrite <- Z.add_mod by lia.
  rewrite !pack_one_ok.
  - reflexivity.
  - cbn [struct.size]. change (2 ^ (8 * Z.of_nat 1)) with 256.
    unfold END_BYTE. lia.
  - cbn [struct.size]. change (2 ^ (8 * Z.of_nat 2)) with 65536.
    apply Z.mod_pos_bound. lia.
Qed.

Lemma header_image_length (h : PacketHeader.t) :
  length (header_image h) = 11%nat.
Proof. unfold header_image. rewrite !length_app, !length_le_split. reflexivity. Qed.

(** [PacketHeader.unpack] hands [struct.unpack] ten bytes for an eleven-byte
    format, so it raises on every input. *)
Lemma header_unpack_raises (data : bytes) :
  PacketHeader.unpack data = Err NotEnoughData
  \/ PacketHeader.unpack data = Err StructError.
Proof.
  unfold PacketHeader.unpack.
  destruct (len data <? PacketHeader.SIZE); [left; reflexivity|right].
  unfold struct.unpack.
  assert (H : (length (slice data 0 10) <= 10)%nat).
  { unfold slice. change (Z.to_nat 0) with 0%nat. cbn [skipn].
    rewrite length_firstn. change (Z.to_nat 10) with 10%nat. lia. }
  destruct (Nat.eqb_spec (length (slice data 0 10))
              (struct.calcsize PacketHeader.fmt)) as [E|]; [|reflexivity].
  change (struct.calcsize PacketHeader.fmt) with 11%nat in E. lia.
Qed.

(** ** C3: the extended-form layout that [build_packet] really emits *)

(** C3 (the code departs from the documented layout). [build_packet] for a
    PING without payload emits fourteen bytes: the message type takes two
    bytes, because the format string is ['<BBBHHHBB'], so the header has
    eleven bytes and not the ten of [PacketHeader.SIZE]; and
    [PacketHeader.unpack] of the first [SIZE] bytes of that packet raises
    [struct.error]. *)
Theorem build_packet_header_eleven_bytes :
  build_packet MsgType.PING [] 0 0 1
  = Ok (map byte.of_Z [0xAA; 0x55; 0xCC; 0x01; 0x00; 0x00; 0x00; 0x00; 0x00;
                       0x00; 0x01; 0xCD; 0x01; 0x55])
  /\ PacketHeader.pack (PacketHeader.init MsgType.PING 0 0 0 1)
     = Ok (map byte.of_Z [0xAA; 0x55; 0xCC; 0x01; 0x00; 0x00; 0x00; 0x00; 0x00;
                          0x00; 0x01])
  /\ 11 <> PacketHeader.SIZE
  /\ 14 <> PacketHeader.SIZE + 0 + PacketFooter.SIZE
  /\ PacketHeader.unpack
       (map byte.of_Z [0xAA; 0x55; 0xCC; 0x01; 0x00; 0x00; 0x00; 0x00; 0x00;
                       0x00])
     = Err StructError.
Proof.
  repeat split; try (vm_compute; reflexivity); vm_compute; discriminate.
Qed.

(** ** C8: payload limits on encode *)

(** C8 (as stated, refuted). A 1025-byte payload, one byte more than the
    fragment size, is encoded by [build_packet] without any error. *)
Lemma build_packet_accepts_oversized_payload :
  let payload := repeat (byte.of_Z 0) 1025 in
  FRAGMENT_SIZE < len payload
  /\ build_packet MsgType.HUB75_FRAG payload 0 0 1
     = Ok (packet_image (PacketHeader.init MsgType.HUB75_FRAG 1025 0 0 1) payload)
  /\ build_packet MsgType.HUB75_FRAG payload 0 0 1 <> Err PayloadTooLarge
  /\ packet_image (PacketHeader.init MsgType.HUB75_FRAG 1025 0 0 1) payload
     = wire_packet 0x11 1025 0 0 1 payload.
Proof.
  intros payload.
  assert (Hl : len payload = 1025) by (vm_compute; reflexivity).
  assert (E : build_packet MsgType.HUB75_FRAG payload 0 0 1
              = Ok (packet_image (PacketHeader.init MsgType.HUB75_FRAG 1025 0 0 1)
                      payload)).
  { rewrite <- Hl.
    apply (build_packet_image MsgType.HUB75_FRAG payload 0 0 1).
    - unfold fields_fit, PacketHeader.init, MsgType.HUB75_FRAG; simpl; lia.
    - lia. }
  split; [|split; [|split]].
  - rewrite Hl. unfold FRAGMENT_SIZE. lia.
  - exact E.
  - rewrite E. discriminate.
  - reflexivity.
Qed.

(** C8 (amended). Short-form [encode] fails with [PayloadTooLarge] exactly
    when the payload has more than 255 bytes. Extended-form [build_packet]
    has no payload limit of its own and never fails with [PayloadTooLarge]:
    with header fields that fit, it encodes every payload of at most 65535
    bytes and raises [struct.error] exactly when the length does not fit the
    16-bit length field.  The encoded packet is, byte for byte, the three
    sync bytes, the message type, the payload length and the frame number in
    two little-endian bytes each, the fragment index, the fragment count,
    the payload, the checksum and the end byte. *)
Theorem payload_limits_on_encode (cmd : Z) (payload : bytes)
    (msg_type frame_num frag_index frag_total : Z) :
  fields_fit
    (PacketHeader.init msg_type (len payload) frame_num frag_index frag_total) ->
  (UartPacket.encode cmd payload = Err PayloadTooLarge
     <-> UartPacket.MAX_PAYLOAD < len payload)
  /\ (build_packet msg_type payload frame_num frag_index frag_total
      = Err StructError <-> 65535 < len payload)
  /\ (build_packet msg_type payload frame_num frag_index frag_total
      = Ok (packet_image
              (PacketHeader.init msg_type (len payload) frame_num frag_index
                 frag_total) payload)
      <-> len payload <= 65535)
  /\ build_packet msg_type payload frame_num frag_index frag_total
     <> Err PayloadTooLarge
  /\ packet_image
       (PacketHeader.init msg_type (len payload) frame_num frag_index
          frag_total) payload
     = wire_packet msg_type (len payload) frame_num frag_index frag_total
         payload.
Proof.
  intros Hfit.
  assert (Hshort : UartPacket.encode cmd payload = Err PayloadTooLarge
                   <-> UartPacket.MAX_PAYLOAD < len payload).
  { unfold UartPacket.encode.
    destruct (Z.ltb_spec UartPacket.MAX_PAYLOAD (len payload)) as [H|H].
    - split; [intros _; exact H | reflexivity].
    - split; [|lia]. intros E. exfalso.
      cbn [bytes_of_ints] in E.
      destruct ((0 <=? cmd) && (cmd <? 256)); [|discriminate].
      destruct ((0 <=? len payload) && (len payload <? 256)); [|discriminate].
      cbn [bind] in E.
      destruct ((0 <=? Z.land _ 255) && (Z.land _ 255 <? 256)); discriminate. }
  destruct (Z.leb_spec (len payload) 65535) as [Hle|Hgt].
  - rewrite build_packet_image by assumption.
    repeat split; intros; try discriminate; try lia; try assumption;
      try apply Hshort; try assumption.
  - assert (E : build_packet msg_type payload frame_num frag_index frag_total
                = Err StructError).
    { unfold build_packet.
      rewrite (header_pack_len_err msg_type (len payload) frame_num frag_index
                 frag_total Hfit Hgt). reflexivity. }
    rewrite E.
    repeat split; intros; try discriminate; try lia; try assumption;
      try apply Hshort; try assumption.
Qed.

Lemma payload_limits_on_encode_witness :
  (UartPacket.encode 0x01 (repeat (byte.of_Z 0) 256) = Err PayloadTooLarge
     <-> UartPacket.MAX_PAYLOAD < len (repeat (byte.of_Z 0) 256)).
Proof.
  refine (proj1 (payload_limits_on_encode 0x01 (repeat (byte.of_Z 0) 256)
                   MsgType.HUB75_FRAG 0 0 1 _)).
  unfold fields_fit, MsgType.HUB75_FRAG. simpl. lia.
Defined.

(** ** C5: fragmentation *)

Lemma for_each_collect {A B : Type} (f : A -> result B) (g : A -> B)
    (xs : list A) (acc : list B) :
  (forall x, In x xs -> f x = Ok (g x)) ->
  for_each xs (fun packets x => y <- f x ;; Ok (packets ++ [y])) acc
  = Ok (acc ++ map g xs).
Proof.
  revert acc. induction xs as [|x xs IH]; intros acc Hf; cbn [for_each map].
  - rewrite app_nil_r. reflexivity.
  - rewrite (Hf x) by (left; reflexivity). cbn [bind].
    rewrite IH by (intros y Hy; apply Hf; right; exact Hy).
    rewrite <- app_assoc. reflexivity.
Qed.

Lemma in_range (n i : Z) : In i (range n) <-> 0 <= i < n.
Proof.
  unfold range. rewrite in_map_iff. split.
  - intros (k & <- & Hk). apply in_seq in Hk. lia.
  - intros Hi. exists (Z.to_nat i). split; [lia|]. apply in_seq. lia.
Qed.

Lemma range_length (n : Z) : length (range n) = Z.to_nat n.
Proof. unfold range. rewrite length_map, length_seq. reflexivity. Qed.

Lemma nth_error_range (n : Z) (i : nat) :
  (i < Z.to_nat n)%nat -> nth_error (range n) i = Some (Z.of_nat i).
Proof.
  intros Hi. unfold range. rewrite nth_error_map.
  rewrite (nth_error_nth' _ 0%nat) by (rewrite length_seq; exact Hi).
  rewrite seq_nth by exact Hi. reflexivity.
Qed.

Lemma len_chunk (data : bytes) (i : Z) :
  0 <= i -> i * FRAGMENT_SIZE + FRAGMENT_SIZE <= len data ->
  len (chunk data i) = FRAGMENT_SIZE.
Proof.
  unfold chunk, slice, len, FRAGMENT_SIZE. intros Hi Hlen.
  rewrite length_skipn, length_firstn. lia.
Qed.

Lemma concat_chunks (data : bytes) (n : nat) :
  concat (map (chunk data) (map Z.of_nat (seq 0 n)))
  = firstn (n * Z.to_nat FRAGMENT_SIZE) data.
Proof.
  induction n as [|n IH].
  - reflexivity.
  - rewrite seq_S, !map_app, concat_app, IH. cbn [Nat.add map concat].
    rewrite app_nil_r. unfold chunk, slice.
    replace (Z.to_nat (Z.of_nat n * FRAGMENT_SIZE))
      with (n * Z.to_nat FRAGMENT_SIZE)%nat by (unfold FRAGMENT_SIZE; lia).
    replace (Z.to_nat (Z.of_nat n * FRAGMENT_SIZE + FRAGMENT_SIZE))
      with (S n * Z.to_nat FRAGMENT_SIZE)%nat by (unfold FRAGMENT_SIZE; lia).
    rewrite <- (firstn_skipn (n * Z.to_nat FRAGMENT_SIZE)
                  (firstn (S n * Z.to_nat FRAGMENT_SIZE) data)) at 2.
    rewrite firstn_firstn. f_equal. f_equal. lia.
Qed.

(** The fragment loop shared by the two builders. *)
Lemma fragment_loop (data : bytes) (msg_type frame_num : Z) (count : nat) :
  len data = Z.of_nat count * FRAGMENT_SIZE ->
  0 <= msg_type <= 65535 -> 0 <= frame_num <= 65535 -> (count <= 255)%nat ->
  for_each (range (Z.of_nat count))
    (fun packets i =>
       let offset := i * FRAGMENT_SIZE in
       let frag_data := slice data offset (offset + FRAGMENT_SIZE) in
       packet <- build_packet msg_type frag_data frame_num i (Z.of_nat count) ;;
       Ok (packets ++ [packet]))
    []
  = Ok (map (fun i =>
               packet_image
                 (PacketHeader.init msg_type FRAGMENT_SIZE frame_num i
                    (Z.of_nat count))
                 (chunk data i))
          (range (Z.of_nat count))).
Proof.
  intros Hlen Hm Hf Hc.
  refine (for_each_collect
            (fun i => build_packet msg_type (chunk data i) frame_num i
                        (Z.of_nat count))
            (fun i => packet_image
                        (PacketHeader.init msg_type FRAGMENT_SIZE frame_num i
                           (Z.of_nat count))
                        (chunk data i))
            (range (Z.of_nat count)) [] _).
  intros i Hi. apply in_range in Hi.
  assert (Hk : len (chunk data i) = FRAGMENT_SIZE)
    by (apply len_chunk; unfold FRAGMENT_SIZE in *; nia).
  rewrite <- Hk.
  apply build_packet_image.
  - unfold fields_fit, PacketHeader.init; simpl; lia.
  - rewrite Hk. unfold FRAGMENT_SIZE. lia.
Qed.

Lemma unsigned_of_Z_mod (v : Z) : byte.unsigned (byte.of_Z v) = v mod 256.
Proof. rewrite byte.unsigned_of_Z. reflexivity. Qed.

Lemma u16_of_bytes (v : Z) :
  0 <= v <= 65535 ->
  byte.unsigned (byte.of_Z v) + 256 * byte.unsigned (byte.of_Z (Z.shiftr v 8))
  = v.
Proof.
  intros Hv. rewrite !unsigned_of_Z_mod, Z.shiftr_div_pow2 by lia.
  change (2 ^ 8) with 256.
  pose proof (Z.div_mod v 256 ltac:(lia)).
  pose proof (Z.mod_pos_bound v 256 ltac:(lia)).
  assert (0 <= v / 256 < 256)
    by (split; [apply Z.div_pos | apply Z.div_lt_upper_bound]; lia).
  rewrite (Z.mod_small (v / 256)) by lia. lia.
Qed.

(** The header fields of a packet, read back from its bytes. *)
Lemma wire_packet_fields
    (msg_type payload_len frame_num frag_index frag_total : Z)
    (payload : bytes) :
  0 <= msg_type <= 65535 -> 0 <= payload_len <= 65535 ->
  0 <= frame_num <= 65535 -> 0 <= frag_index <= 255 ->
  0 <= frag_total <= 255 ->
  let packet :=
    wire_packet msg_type payload_len frame_num frag_index frag_total payload in
  u16_at packet 3 = msg_type
  /\ u16_at packet 5 = payload_len
  /\ u16_at packet 7 = frame_num
  /\ byte_at packet 9 = frag_index
  /\ byte_at packet 10 = frag_total
  /\ slice packet 11 (11 + len payload) = payload
  /\ len packet = 11 + len payload + 3.
Proof.
  intros Hm Hp Hf Hi Ht packet. subst packet.
  unfold wire_packet, wire_header, u16_at, byte_at. cbn [app nth Nat.add].
  rewrite !u16_of_bytes by assumption.
  rewrite !unsigned_of_Z_small by lia.
  repeat split.
  - set (header := [byte.of_Z 170; byte.of_Z 85; byte.of_Z 204;
                    byte.of_Z msg_type; byte.of_Z (Z.shiftr msg_type 8);
                    byte.of_Z payload_len; byte.of_Z (Z.shiftr payload_len 8);
                    byte.of_Z frame_num; byte.of_Z (Z.shiftr frame_num 8);
                    byte.of_Z frag_index; byte.of_Z frag_total]).
    match goal with
    | |- slice ?l _ _ = _ =>
        match l with
        | context [payload ++ ?footer] =>
            change l with (header ++ payload ++ footer);
            apply (slice_app_middle header payload footer)
        end
    end.
  - unfold len. cbn [length]. rewrite length_app. cbn [length]. lia.
Qed.

(** C5. Fragmenting a 12288-byte HUB75 frame yields exactly 12 packets in
    increasing fragment-index order 0..11.  The [i]-th packet is, byte for
    byte, the header [AA 55 CC], message type [0x11], payload length 1024,
    the given frame number, fragment index [i] and fragment count 12, then
    the 1024 bytes [data[1024*i : 1024*i + 1024]], the checksum and the end
    byte; read back from the packet, the length field is 1024, the frame
    number field the given frame number, the index field [i] and the count
    field 12.  The payloads add up to the 12288 bytes of the frame.  A
    2048-byte OLED frame likewise yields exactly 2 fragments, of type
    [0x13].  The frame number is the 16-bit field of the wire format. *)
Theorem fragmentation_postcondition (rgb_data mono_data : bytes) (frame_num : Z) :
  len rgb_data = 12288 -> len mono_data = 2048 -> 0 <= frame_num <= 65535 ->
  (exists packets,
      build_hub75_fragment_packets rgb_data frame_num = Ok packets
      /\ length packets = 12%nat
      /\ (forall i, (i < 12)%nat ->
            exists packet,
              nth_error packets i = Some packet
              /\ packet = wire_packet 0x11 1024 frame_num (Z.of_nat i) 12
                            (chunk rgb_data (Z.of_nat i))
              /\ len (chunk rgb_data (Z.of_nat i)) = 1024
              /\ u16_at packet 5 = 1024
              /\ u16_at packet 7 = frame_num
              /\ byte_at packet 9 = Z.of_nat i
              /\ byte_at packet 10 = 12
              /\ slice packet 11 (11 + 1024) = chunk rgb_data (Z.of_nat i))
      /\ concat (map (chunk rgb_data) (range 12)) = rgb_data
      /\ len (concat (map (chunk rgb_data) (range 12))) = 12288)
  /\ (exists packets,
      build_oled_fragment_packets mono_data frame_num = Ok packets
      /\ length packets = 2%nat
      /\ (forall i, (i < 2)%nat ->
            exists packet,
              nth_error packets i = Some packet
              /\ packet = wire_packet 0x13 1024 frame_num (Z.of_nat i) 2
                            (chunk mono_data (Z.of_nat i))
              /\ len (chunk mono_data (Z.of_nat i)) = 1024
              /\ u16_at packet 5 = 1024
              /\ u16_at packet 7 = frame_num
              /\ byte_at packet 9 = Z.of_nat i
              /\ byte_at packet 10 = 2
              /\ slice packet 11 (11 + 1024) = chunk mono_data (Z.of_nat i))
      /\ concat (map (chunk mono_data) (range 2)) = mono_data
      /\ len (concat (map (chunk mono_data) (range 2))) = 2048).
Proof.
  intros Hrgb Hmono Hf.
  assert (Hcat_rgb : concat (map (chunk rgb_data) (range 12)) = rgb_data).
  { unfold range. change (Z.to_nat 12) with 12%nat. rewrite concat_chunks.
    apply firstn_all2. unfold len in Hrgb. unfold FRAGMENT_SIZE. lia. }
  assert (Hcat_mono : concat (map (chunk mono_data) (range 2)) = mono_data).
  { unfold range. change (Z.to_nat 2) with 2%nat. rewrite concat_chunks.
    apply firstn_all2. unfold len in Hmono. unfold FRAGMENT_SIZE. lia. }
  assert (Hpacket : forall data msg_type i total,
            len (chunk data i) = 1024 -> 0 <= msg_type <= 65535 ->
            0 <= i <= 255 -> 0 <= total <= 255 ->
            let packet := wire_packet msg_type 1024 frame_num i total
                            (chunk data i) in
            packet = packet
            /\ len (chunk data i) = 1024
            /\ u16_at packet 5 = 1024
            /\ u16_at packet 7 = frame_num
            /\ byte_at packet 9 = i
            /\ byte_at packet 10 = total
            /\ slice packet 11 (11 + 1024) = chunk data i).
  { intros data msg_type i total Hlen Hm Hi Ht packet.
    destruct (wire_packet_fields msg_type 1024 frame_num i total (chunk data i))
      as (_ & H5 & H7 & H9 & H10 & Hs & _); try lia.
    rewrite Hlen in Hs. repeat split; assumption. }
  split.
  - eexists. split; [|split; [|split; [|split]]].
    + unfold build_hub75_fragment_packets, HUB75_RGB_SIZE, HUB75_WIDTH,
        HUB75_HEIGHT.
      rewrite Hrgb. cbn [Z.mul Pos.mul Z.eqb Pos.eqb negb].
      apply (fragment_loop rgb_data MsgType.HUB75_FRAG frame_num 12);
        unfold MsgType.HUB75_FRAG, FRAGMENT_SIZE; lia.
    + rewrite length_map, range_length. reflexivity.
    + intros i Hi. eexists. split.
      * rewrite nth_error_map, nth_error_range by (simpl; lia). reflexivity.
      * cbn [option_map].
        change (packet_image
                  (PacketHeader.init MsgType.HUB75_FRAG FRAGMENT_SIZE frame_num
                     (Z.of_nat i) (Z.of_nat 12))
                  (chunk rgb_data (Z.of_nat i)))
          with (wire_packet 0x11 1024 frame_num (Z.of_nat i) 12
                  (chunk rgb_data (Z.of_nat i))).
        apply (Hpacket rgb_data 0x11 (Z.of_nat i) 12); try lia.
        apply len_chunk; unfold FRAGMENT_SIZE; lia.
    + exact Hcat_rgb.
    + rewrite Hcat_rgb. exact Hrgb.
  - eexists. split; [|split; [|split; [|split]]].
    + unfold build_oled_fragment_packets, OLED_MONO_SIZE, OLED_WIDTH,
        OLED_HEIGHT.
      rewrite Hmono. change (negb (2048 =? 128 * 128 / 8)) with false.
      cbv iota.
      apply (fragment_loop mono_data MsgType.OLED_FRAG frame_num 2);
        unfold MsgType.OLED_FRAG, FRAGMENT_SIZE; lia.
    + rewrite length_map, range_length. reflexivity.
    + intros i Hi. eexists. split.
      * rewrite nth_error_map, nth_error_range by (simpl; lia). reflexivity.
      * cbn [option_map].
        change (packet_image
                  (PacketHeader.init MsgType.OLED_FRAG FRAGMENT_SIZE frame_num
                     (Z.of_nat i) (Z.of_nat 2))
                  (chunk mono_data (Z.of_nat i)))
          with (wire_packet 0x13 1024 frame_num (Z.of_nat i) 2
                  (chunk mono_data (Z.of_nat i))).
        apply (Hpacket mono_data 0x13 (Z.of_nat i) 2); try lia.
        apply len_chunk; unfold FRAGMENT_SIZE; lia.
    + exact Hcat_mono.
    + rewrite Hcat_mono. exact Hmono.
Qed.

Lemma fragmentation_postcondition_witness :
  let frame := repeat (byte.of_Z 7) (Z.to_nat 12288) in
  exists packets packet,
    build_hub75_fragment_packets frame 513 = Ok packets
    /\ length packets = 12%nat
    /\ nth_error packets 3 = Some packet
    /\ firstn 11 packet
       = map byte.of_Z [0xAA; 0x55; 0xCC; 0x11; 0x00; 0x00; 0x04; 0x01; 0x02;
                        0x03; 0x0C]
    /\ u16_at packet 7 = 513
    /\ byte_at packet 9 = 3
    /\ byte_at packet 10 = 12.
Proof.
  intros frame.
  destruct (fragmentation_postcondition frame
              (repeat (byte.of_Z 0) (Z.to_nat 2048)) 513)
    as [(packets & Hrun & Hcount & Hnth & _) _].
  - vm_compute. reflexivity.
  - vm_compute. reflexivity.
  - lia.
  - destruct (Hnth 3%nat ltac:(lia))
      as (packet & Hp & Hbytes & _ & _ & H7 & H9 & H10 & _).
    exists packets, packet.
    repeat split; try assumption.
    rewrite Hbytes. vm_compute. reflexivity.
Defined.

(** ** C6: seeking the sync marker *)

Lemma seek_sync_skip (fuel : nat) (b : byte) (s : bytes) :
  byte.unsigned b <> SYNC_BYTE_1 ->
  SerialInterfaceV2.seek_sync (S fuel) (b :: s)
  = SerialInterfaceV2.seek_sync fuel s.
Proof.
  intros Hb. cbn [SerialInterfaceV2.seek_sync]. unfold pbind at 1, read at 1.
  change (Z.to_nat 1) with 1%nat. cbn [firstn skipn].
  destruct (Z.eqb_spec (byte.unsigned b) SYNC_BYTE_1); [contradiction|].
  reflexivity.
Qed.

Lemma seek_sync_here (fuel : nat) (s : bytes) :
  SerialInterfaceV2.seek_sync (S fuel)
    (byte.of_Z 0xAA :: byte.of_Z 0x55 :: byte.of_Z 0xCC :: s)
  = (Ok true, s).
Proof.
  cbn [SerialInterfaceV2.seek_sync]. unfold pbind at 1, read at 1.
  change (Z.to_nat 1) with 1%nat. cbn [firstn skipn].
  rewrite unsigned_of_Z_small by lia.
  change (170 =? SYNC_BYTE_1) with true. cbv iota.
  unfold pbind at 1, read at 1. change (Z.to_nat 1) with 1%nat.
  cbn [firstn skipn]. rewrite unsigned_of_Z_small by lia.
  change (85 =? SYNC_BYTE_2) with true. cbv iota.
  unfold pbind at 1, read at 1. change (Z.to_nat 1) with 1%nat.
  cbn [firstn skipn]. rewrite unsigned_of_Z_small by lia.
  reflexivity.
Qed.

(** After a first sync byte, a byte that is not the second sync byte is
    consumed and the search restarts with the byte that follows it, also
    when the consumed byte is itself a first sync byte. *)
Lemma seek_sync_restarts_past_mismatch (fuel : nat) (b1 b2 : byte) (s : bytes) :
  byte.unsigned b1 = SYNC_BYTE_1 ->
  byte.unsigned b2 <> SYNC_BYTE_2 ->
  SerialInterfaceV2.seek_sync (S fuel) (b1 :: b2 :: s)
  = SerialInterfaceV2.seek_sync fuel s.
Proof.
  intros H1 H2. cbn [SerialInterfaceV2.seek_sync]. unfold pbind at 1, read at 1.
  change (Z.to_nat 1) with 1%nat. cbn [firstn skipn].
  destruct (Z.eqb_spec (byte.unsigned b1) SYNC_BYTE_1); [|contradiction].
  unfold pbind at 1, read at 1. change (Z.to_nat 1) with 1%nat.
  cbn [firstn skipn].
  destruct (Z.eqb_spec (byte.unsigned b2) SYNC_BYTE_2); [contradiction|].
  reflexivity.
Qed.

Lemma seek_sync_without_first_byte (s : bytes) :
  Forall (fun b => byte.unsigned b <> SYNC_BYTE_1) s ->
  forall fuel, fst (SerialInterfaceV2.seek_sync fuel s) = Ok false.
Proof.
  intros Hs fuel. revert s Hs.
  induction fuel as [|fuel IH]; intros s Hs; [reflexivity|].
  destruct Hs as [|b s Hb Hs].
  - cbn [SerialInterfaceV2.seek_sync]. unfold pbind at 1, read at 1.
    change (Z.to_nat 1) with 1%nat. cbn [firstn skipn].
    apply IH. constructor.
  - rewrite seek_sync_skip by exact Hb. apply IH. exact Hs.
Qed.

Lemma seek_magic_skip (fuel : nat) (b : byte) (s : bytes) :
  byte.unsigned b <> 0xAA ->
  SerialInterface.seek_magic (S fuel) (b :: s)
  = SerialInterface.seek_magic fuel s.
Proof.
  intros Hb. cbn [SerialInterface.seek_magic]. unfold pbind at 1, read at 1.
  change (Z.to_nat 1) with 1%nat. cbn [firstn skipn].
  destruct (Z.eqb_spec (byte.unsigned b) 0xAA); [contradiction|].
  reflexivity.
Qed.

Lemma seek_magic_restarts_past_mismatch (fuel : nat) (b1 b2 : byte) (s : bytes) :
  byte.unsigned b1 = 0xAA ->
  byte.unsigned b2 <> 0x55 ->
  SerialInterface.seek_magic (S fuel) (b1 :: b2 :: s)
  = SerialInterface.seek_magic fuel s.
Proof.
  intros H1 H2. cbn [SerialInterface.seek_magic]. unfold pbind at 1, read at 1.
  change (Z.to_nat 1) with 1%nat. cbn [firstn skipn].
  destruct (Z.eqb_spec (byte.unsigned b1) 0xAA); [|contradiction].
  unfold pbind at 1, read at 1. change (Z.to_nat 1) with 1%nat.
  cbn [firstn skipn].
  destruct (Z.eqb_spec (byte.unsigned b2) 0x55); [contradiction|].
  reflexivity.
Qed.

Lemma seek_magic_without_first_byte (s : bytes) :
  Forall (fun b => byte.unsigned b <> 0xAA) s ->
  forall fuel, fst (SerialInterface.seek_magic fuel s) = Ok false.
Proof.
  intros Hs fuel. revert s Hs.
  induction fuel as [|fuel IH]; intros s Hs; [reflexivity|].
  destruct Hs as [|b s Hb Hs].
  - cbn [SerialInterface.seek_magic]. unfold pbind at 1, read at 1.
    change (Z.to_nat 1) with 1%nat. cbn [firstn skipn].
    apply IH. constructor.
  - rewrite seek_magic_skip by exact Hb. apply IH. exact Hs.
Qed.

Lemma receive_v2_no_sync (fuel : nat) (s : bytes) :
  fst (SerialInterfaceV2.seek_sync fuel s) = Ok false ->
  fst (SerialInterfaceV2.receive_packet true fuel s) = Ok None.
Proof.
  intros H. unfold SerialInterfaceV2.receive_packet. cbn [negb].
  unfold pbind at 1.
  destruct (SerialInterfaceV2.seek_sync fuel s) as [[found|e] rx];
    cbn [fst] in H; [|discriminate].
  injection H as ->. reflexivity.
Qed.

Lemma receive_v1_no_magic (fuel : nat) (s : bytes) :
  fst (SerialInterface.seek_magic fuel s) = Ok false ->
  fst (SerialInterface.receive_packet true fuel s) = Ok None.
Proof.
  intros H. unfold SerialInterface.receive_packet. cbn [negb].
  unfold pbind at 1.
  destruct (SerialInterface.seek_magic fuel s) as [[found|e] rx];
    cbn [fst] in H; [|discriminate].
  injection H as ->. reflexivity.
Qed.

(** Whatever follows, as long as it holds no further [0xAA]: the marker that
    starts at the second [AA] of [AA AA 55 CC ...] is never found. *)
Lemma seek_sync_loses_overlap (fuel : nat) (rest : bytes) :
  Forall (fun b => byte.unsigned b <> SYNC_BYTE_1) rest ->
  fst (SerialInterfaceV2.receive_packet true fuel
         (byte.of_Z 0xAA :: byte.of_Z 0xAA :: byte.of_Z 0x55 :: byte.of_Z 0xCC
            :: rest))
  = Ok None.
Proof.
  intros Hrest. apply receive_v2_no_sync.
  destruct fuel as [|fuel]; [reflexivity|].
  rewrite seek_sync_restarts_past_mismatch
    by (vm_compute; (reflexivity || discriminate)).
  apply seek_sync_without_first_byte.
  repeat (constructor; [vm_compute; discriminate|]). exact Hrest.
Qed.

Ltac no_first_sync_byte :=
  repeat (constructor; [vm_compute; discriminate|]); constructor.

(** C6 (the code loses the overlapping marker). Fed [0xAA] followed by a
    valid extended-form PING packet, that is the stream
    [AA AA 55 CC 01 ...], the receiver consumes the second [AA] as the
    mismatching byte and restarts the search after it; it never
    synchronizes, whatever the deadline, and returns [None]. The short-form
    receiver does the same on [AA] followed by a valid short-form packet.
    Without the extra leading [AA] the short-form packet is received. *)
Theorem overlapping_sync_marker_is_missed (fuel : nat) :
  build_ping_packet 0
  = Ok (map byte.of_Z [0xAA; 0x55; 0xCC; 0x01; 0x00; 0x04; 0x00; 0x00; 0x00;
                       0x00; 0x01; 0; 0; 0; 0; 0xD1; 0x01; 0x55])
  /\ fst (SerialInterfaceV2.receive_packet true fuel
            (map byte.of_Z [0xAA; 0xAA; 0x55; 0xCC; 0x01; 0x00; 0x04; 0x00;
                            0x00; 0x00; 0x00; 0x01; 0; 0; 0; 0; 0xD1; 0x01;
                            0x55]))
     = Ok None
  /\ UartPacket.encode 0x10 [] = Ok (map byte.of_Z [0xAA; 0x55; 0x10; 0x00; 0x10])
  /\ fst (SerialInterface.receive_packet true fuel
            (map byte.of_Z [0xAA; 0xAA; 0x55; 0x10; 0x00; 0x10]))
     = Ok None
  /\ SerialInterface.receive_packet true 1
       (map byte.of_Z [0xAA; 0x55; 0x10; 0x00; 0x10])
     = (Ok (Some (0x10, [])), []).
Proof.
  split; [vm_compute; reflexivity|].
  split.
  { apply receive_v2_no_sync. destruct fuel as [|fuel]; [reflexivity|].
    cbn [map].
    rewrite seek_sync_restarts_past_mismatch
      by (vm_compute; (reflexivity || discriminate)).
    apply seek_sync_without_first_byte. no_first_sync_byte. }
  split; [vm_compute; reflexivity|].
  split; [|vm_compute; reflexivity].
  apply receive_v1_no_magic. destruct fuel as [|fuel]; [reflexivity|].
  cbn [map].
  rewrite seek_magic_restarts_past_mismatch
    by (vm_compute; (reflexivity || discriminate)).
  apply seek_magic_without_first_byte. no_first_sync_byte.
Qed.

(** ** C7: the end marker *)

Lemma land_low_shift (a b : Z) :
  0 <= a < 2 ^ 8 -> Z.land a (Z.shiftl b 8) = 0.
Proof.
  intros Ha. apply Z.bits_inj'. intros n Hn.
  rewrite Z.land_spec, Z.bits_0.
  destruct (Z.ltb_spec n 8) as [Hlt|Hge].
  - rewrite Z.shiftl_spec_low by exact Hlt. apply andb_false_r.
  - rewrite <- (Z.mod_small a (2 ^ 8)) by exact Ha.
    rewrite Z.mod_pow2_bits_high by lia. reflexivity.
Qed.

Lemma le_combine_2 (lo hi : byte) :
  le_combine [lo; hi] = byte.unsigned lo + 256 * byte.unsigned hi.
Proof.
  cbv [le_combine].
  change (Z.shiftl 0 8) with 0. rewrite Z.lor_0_r.
  rewrite Z.or_to_plus by (apply land_low_shift, byte.unsigned_range).
  rewrite Z.shiftl_mul_pow2 by lia. change (2 ^ 8) with 256. lia.
Qed.

Lemma le_combine_1_unsigned (e : byte) : le_combine [e] = byte.unsigned e.
Proof. cbv [le_combine]. change (Z.shiftl 0 8) with 0. apply Z.lor_0_r. Qed.

Lemma footer_unpack_3 (lo hi e : byte) :
  PacketFooter.unpack [lo; hi; e]
  = Ok (PacketFooter.mk (byte.unsigned lo + 256 * byte.unsigned hi)
          (byte.unsigned e)).
Proof.
  unfold PacketFooter.unpack, PacketFooter.SIZE, struct.unpack.
  change (len [lo; hi; e] <? 3) with false. cbv iota.
  unfold slice. change (Z.to_nat 0) with 0%nat. change (Z.to_nat 3) with 3%nat.
  cbn [firstn skipn length PacketFooter.fmt struct.calcsize fold_right
       struct.size Nat.add Nat.eqb bind struct.unpack_fields].
  rewrite le_combine_2, le_combine_1_unsigned. reflexivity.
Qed.

Lemma footer_unpack_prefix (lo hi e : byte) (rest : bytes) :
  PacketFooter.unpack (lo :: hi :: e :: rest)
  = Ok (PacketFooter.mk (byte.unsigned lo + 256 * byte.unsigned hi)
          (byte.unsigned e)).
Proof.
  rewrite <- (footer_unpack_3 lo hi e).
  unfold PacketFooter.unpack, PacketFooter.SIZE.
  assert (H : (len (lo :: hi :: e :: rest) <? 3) = false).
  { rewrite !len_cons. pose proof (len_nonneg rest).
    destruct (Z.ltb_spec (1 + (1 + (1 + len rest))) 3); [lia|reflexivity]. }
  rewrite H. reflexivity.
Qed.








(** ** C9: single-bit corruption of a short-form buffer *)

Lemma bit_mask_range (k : Z) : 0 <= k <= 7 -> 0 < Z.shiftl 1 k < 256.
Proof.
  intros Hk. rewrite Z.shiftl_1_l. split.
  - apply Z.pow_pos_nonneg; lia.
  - apply Z.le_lt_trans with (2 ^ 7); [|reflexivity].
    apply Z.pow_le_mono_r; lia.
Qed.

Lemma lxor_cancel_r (a b c : Z) : Z.lxor a c = Z.lxor b c -> a = b.
Proof.
  intros H.
  rewrite <- (Z.lxor_0_r a), <- (Z.lxor_0_r b), <- (Z.lxor_nilpotent c).
  rewrite <- !Z.lxor_assoc, H. reflexivity.
Qed.

Lemma lxor_cancel_l (a b c : Z) : Z.lxor c a = Z.lxor c b -> a = b.
Proof. rewrite !(Z.lxor_comm c). apply lxor_cancel_r. Qed.

Lemma lxor_mask_changes (x d : Z) : d <> 0 -> Z.lxor x d <> x.
Proof.
  intros Hd H. apply Hd.
  apply (lxor_cancel_r d 0 x). rewrite Z.lxor_0_l, Z.lxor_comm. exact H.
Qed.


Lemma xor_of_app (x y : list Z) :
  xor_of (x ++ y) = Z.lxor (xor_of x) (xor_of y).
Proof.
  unfold xor_of. induction x as [|a x IH]; simpl.
  - symmetry. apply Z.lxor_0_l.
  - rewrite IH. symmetry. apply Z.lxor_assoc.
Qed.

(** Changing one byte of the payload changes the XOR over it. *)
Lemma xor_bytes_one_byte (acc : Z) (p1 p2 : bytes) (x x' : byte) :
  byte.unsigned x' <> byte.unsigned x ->
  UartPacket.xor_bytes acc (p1 ++ x' :: p2)
  <> UartPacket.xor_bytes acc (p1 ++ x :: p2).
Proof.
  intros Hne H. apply Hne.
  rewrite !xor_bytes_xor_of, !map_app in H. cbn [map] in H.
  rewrite !xor_of_app in H.
  change (xor_of (byte.unsigned x' :: map byte.unsigned p2))
    with (Z.lxor (byte.unsigned x') (xor_of (map byte.unsigned p2))) in H.
  change (xor_of (byte.unsigned x :: map byte.unsigned p2))
    with (Z.lxor (byte.unsigned x) (xor_of (map byte.unsigned p2))) in H.
  do 2 apply lxor_cancel_l in H.
  apply lxor_cancel_r in H. exact H.
Qed.

(** Where a byte of a framed buffer can sit: in the magic, the command,
    the length, the payload, the checksum or the trailing bytes. *)
Lemma frame_split_cases (cb l crc x : byte) (payload tail l1 l2 : bytes) :
  xAA :: x55 :: cb :: l :: payload ++ crc :: tail = l1 ++ x :: l2 ->
  (l1 = [] /\ x = xAA /\ l2 = x55 :: cb :: l :: payload ++ crc :: tail)
  \/ (l1 = [xAA] /\ x = x55 /\ l2 = cb :: l :: payload ++ crc :: tail)
  \/ (l1 = [xAA; x55] /\ x = cb /\ l2 = l :: payload ++ crc :: tail)
  \/ (l1 = [xAA; x55; cb] /\ x = l /\ l2 = payload ++ crc :: tail)
  \/ (exists p1 p2,
        payload = p1 ++ x :: p2
        /\ l1 = xAA :: x55 :: cb :: l :: p1 /\ l2 = p2 ++ crc :: tail)
  \/ (l1 = xAA :: x55 :: cb :: l :: payload /\ x = crc /\ l2 = tail)
  \/ (exists t1,
        l1 = xAA :: x55 :: cb :: l :: payload ++ crc :: t1
        /\ tail = t1 ++ x :: l2).
Proof.
  intros H.
  destruct l1 as [|a0 [|a1 [|a2 [|a3 l1']]]]; cbn [app] in H.
  - injection H as <- <-. left. auto.
  - injection H as <- <- <-. right; left. auto.
  - injection H as <- <- <- <-. do 2 right; left. auto.
  - injection H as <- <- <- <- <-. do 3 right; left. auto.
  - injection H as <- <- <- <- H. do 4 right.
    apply app_eq_app in H. destruct H as (m & [[H1 H2] | [H1 H2]]).
    + destruct m as [|c m]; cbn [app] in H2.
      * injection H2 as -> ->. rewrite app_nil_r in H1. subst payload.
        right; left. auto.
      * injection H2 as -> ->. left. exists l1', m. auto.
    + destruct m as [|c m]; cbn [app] in H2.
      * injection H2 as -> ->. rewrite app_nil_r in H1. subst l1'.
        right; left. auto.
      * injection H2 as -> ->. right; right. exists m. subst l1'. auto.
Qed.


(** The flipped byte is outside the region a conjunct speaks about. *)
Ltac off_region H :=
  exfalso; unfold len in *; cbn [app length] in H;
  rewrite ?length_app in H; cbn [length] in H; lia.



(** ** The extended-form receiver never delivers *)

(** X19. Because [PacketHeader.unpack] raises on every input,
    [receive_packet] of the extended form returns [None] or raises; it
    never returns a packet, whatever bytes arrive and however long it may
    wait. *)
Lemma receive_packet_never_delivers (connected : bool) (fuel : nat)
    (rx : bytes) (p : SerialInterfaceV2.packet) :
  fst (SerialInterfaceV2.receive_packet connected fuel rx) <> Ok (Some p).
Proof.
  unfold SerialInterfaceV2.receive_packet.
  destruct connected; cbn [negb]; [|discriminate].
  unfold pbind at 1.
  destruct (SerialInterfaceV2.seek_sync fuel rx) as [[[|]|e] rx1];
    cbn [negb]; try discriminate.
  unfold pbind at 1, read at 1. cbv iota.
  destruct (len _ <? PacketHeader.SIZE - 3); [discriminate|].
  unfold pbind at 1, lift at 1.
  change (bytes_of_ints [SYNC_BYTE_1; SYNC_BYTE_2; SYNC_BYTE_3])
    with (Ok [byte.of_Z 0xAA; byte.of_Z 0x55; byte.of_Z 0xCC]).
  cbv iota. unfold pbind at 1, lift at 1.
  destruct (header_unpack_raises
              ([byte.of_Z 0xAA; byte.of_Z 0x55; byte.of_Z 0xCC]
                 ++ firstn (Z.to_nat (PacketHeader.SIZE - 3)) rx1)) as [E|E];
    rewrite E; discriminate.
Qed.

(** ** Sanity checks by evaluation *)

Example encode_nop_runs :
  UartPacket.encode 0 [] = Ok (map byte.of_Z [0xAA; 0x55; 0; 0; 0]).
Proof. vm_compute. reflexivity. Qed.

Example crc_detection_test :
  bind (flip_bit (map byte.of_Z [0xAA; 0x55; 0x01; 5; 10; 20; 255; 0; 0; 0xE5])
          5 0) UartPacket.decode
  = Err ChecksumMismatch.
Proof. vm_compute. reflexivity. Qed.

Example magic_detection_test :
  UartPacket.decode (map byte.of_Z [0xBB; 0x55; 0; 0; 0]) = Err BadMagic.
Proof. vm_compute. reflexivity. Qed.

Example truncated_test :
  UartPacket.decode (map byte.of_Z [0xAA; 0x55; 0x01]) = Err PacketTooShort.
Proof. vm_compute. reflexivity. Qed.

Example stray_byte_is_skipped :
  SerialInterface.receive_packet true 2
    (map byte.of_Z [0x00; 0xAA; 0x55; 0x10; 0x00; 0x10])
  = (Ok (Some (0x10, [])), []).
Proof. vm_compute. reflexivity. Qed.

Example extended_receiver_raises_after_sync :
  fst (SerialInterfaceV2.receive_packet true 2
         (map byte.of_Z [0x00; 0xAA; 0x55; 0xCC; 0x01; 0x00; 0x00; 0x00; 0x00;
                         0x00; 0x00; 0x01; 0xCD; 0x01; 0x55]))
  = Err StructError.
Proof. vm_compute. reflexivity. Qed.

(** * Further properties of the modelled code *)

(** ** Short form: [encode], [decode] and the receiver *)

(** X1. [UartPacket.encode] succeeds exactly when the payload has at most 255
    bytes and the command is in 0..255, and then returns [5 + len(payload)]
    bytes; it raises the "Payload too large" error exactly when the payload
    is longer, and the [bytes()] range error exactly when the payload fits
    and the command does not. The length check comes first. *)
Theorem encode_outcomes (cmd : Z) (payload : bytes) :
  ((exists packet,
       UartPacket.encode cmd payload = Ok packet
       /\ len packet = 5 + len payload)
   <-> len payload <= 255 /\ 0 <= cmd <= 255)
  /\ (UartPacket.encode cmd payload = Err PayloadTooLarge
      <-> 255 < len payload)
  /\ (UartPacket.encode cmd payload = Err ByteRange
      <-> len payload <= 255 /\ ~ (0 <= cmd <= 255)).
Proof.
  pose proof (len_nonneg payload) as Hn.
  destruct (Z.ltb_spec 255 (len payload)) as [Hbig|Hfit].
  { assert (E : UartPacket.encode cmd payload = Err PayloadTooLarge).
    { unfold UartPacket.encode, UartPacket.MAX_PAYLOAD.
      destruct (Z.ltb_spec 255 (len payload)); [reflexivity|lia]. }
    rewrite E. repeat split; intros; try discriminate; try lia;
      destruct H as (packet & H & _); discriminate. }
  destruct (Z.leb_spec 0 cmd) as [Hlo|Hlo];
    [destruct (Z.ltb_spec cmd 256) as [Hhi|Hhi]|].
  - rewrite encode_bytes by lia.
    repeat split; intros; try discriminate. all: try lia.
    eexists. split; [reflexivity|].
    rewrite !len_cons, len_app, len_cons. unfold len. simpl length. lia.
  - assert (E : UartPacket.encode cmd payload = Err ByteRange).
    { unfold UartPacket.encode, UartPacket.MAX_PAYLOAD.
      destruct (Z.ltb_spec 255 (len payload)); [lia|].
      cbn [bytes_of_ints].
      destruct (Z.ltb_spec cmd 256); [lia|].
      rewrite andb_false_r. reflexivity. }
    rewrite E. repeat split; intros; try discriminate; try lia;
      destruct H as (packet & H & _); discriminate.
  - assert (E : UartPacket.encode cmd payload = Err ByteRange).
    { unfold UartPacket.encode, UartPacket.MAX_PAYLOAD.
      destruct (Z.ltb_spec 255 (len payload)); [lia|].
      cbn [bytes_of_ints].
      destruct (Z.leb_spec 0 cmd); [lia|]. reflexivity. }
    rewrite E. repeat split; intros; try discriminate; try lia;
      destruct H as (packet & H & _); discriminate.
Qed.

(** X2. Every buffer that [decode] accepts starts with exactly the packet
    that [encode] builds from the decoded command and payload: the accepted
    frames are the encoder's outputs, there is no second encoding of a
    packet. *)
Theorem decode_then_encode (data : bytes) (cmd : Z) (payload : bytes) :
  UartPacket.decode data = Ok (cmd, payload) ->
  UartPacket.encode cmd payload = Ok (firstn (5 + length payload) data).
Proof.
  intros H.
  destruct (decode_Ok_inv _ _ _ H) as (cb & l & crc & tail & -> & -> & Hp & Hc).
  pose proof (unsigned_range256 cb). pose proof (unsigned_range256 l).
  rewrite encode_bytes by lia.
  rewrite Hp, !byte.of_Z_unsigned, <- Hc, byte.of_Z_unsigned.
  replace (5 + length payload)%nat
    with (S (S (S (S (length payload + 1))))) by lia.
  cbn [firstn]. do 5 f_equal.
  rewrite firstn_app.
  replace (length payload + 1 - length payload)%nat with 1%nat by lia.
  rewrite firstn_all2 by lia. reflexivity.
Qed.

Lemma decode_then_encode_witness :
  UartPacket.encode 0x10 []
  = Ok (firstn (5 + length (@nil byte))
          (map byte.of_Z [0xAA; 0x55; 0x10; 0x00; 0x10; 0xDE; 0xAD])).
Proof.
  apply (decode_then_encode
           (map byte.of_Z [0xAA; 0x55; 0x10; 0x00; 0x10; 0xDE; 0xAD]) 0x10 []).
  vm_compute. reflexivity.
Defined.

Lemma xor_of_permutation (x y : list Z) :
  Permutation x y -> xor_of x = xor_of y.
Proof.
  unfold xor_of. induction 1; simpl.
  - reflexivity.
  - f_equal. assumption.
  - rewrite <- (Z.lxor_assoc y x), <- (Z.lxor_assoc x y).
    f_equal. apply Z.lxor_comm.
  - congruence.
Qed.

(** X3. The XOR checksum does not see the order of the payload bytes: in a
    packet built by [encode], replacing the payload by any reordering of it
    and keeping the checksum byte gives a buffer that [decode] accepts, as
    the reordered payload. *)
Theorem reordered_payload_is_accepted (cmd : Z) (payload reordered : bytes) :
  0 <= cmd <= 255 ->
  (length payload <= 255)%nat ->
  Permutation payload reordered ->
  exists header crc,
    UartPacket.encode cmd payload = Ok (header ++ payload ++ [crc])
    /\ length header = 4%nat
    /\ UartPacket.decode (header ++ reordered ++ [crc]) = Ok (cmd, reordered).
Proof.
  intros Hc Hl Hperm.
  assert (Hlen : 0 <= len payload <= 255) by (unfold len; lia).
  assert (Hlen' : len reordered = len payload).
  { unfold len. rewrite (Permutation_length Hperm). reflexivity. }
  exists [xAA; x55; byte.of_Z cmd; byte.of_Z (len payload)],
    (byte.of_Z (UartPacket.xor_bytes (Z.lxor cmd (len payload)) payload)).
  split; [apply encode_bytes; lia|]. split; [reflexivity|].
  cbn [app].
  rewrite decode_frame by (rewrite unsigned_of_Z_small; lia).
  rewrite !unsigned_of_Z_small; try lia.
  - rewrite !xor_bytes_xor_of.
    rewrite (xor_of_permutation _ _ (Permutation_map byte.unsigned Hperm)).
    rewrite Z.eqb_refl. reflexivity.
  - apply xor_bytes_range, lxor_byte_range; lia.
Qed.

Lemma reordered_payload_is_accepted_witness :
  exists header crc,
    UartPacket.encode 0x01 (map byte.of_Z [1; 2; 3])
    = Ok (header ++ map byte.of_Z [1; 2; 3] ++ [crc])
    /\ length header = 4%nat
    /\ UartPacket.decode (header ++ map byte.of_Z [3; 1; 2] ++ [crc])
       = Ok (0x01, map byte.of_Z [3; 1; 2]).
Proof.
  apply (reordered_payload_is_accepted 0x01 (map byte.of_Z [1; 2; 3])
           (map byte.of_Z [3; 1; 2])).
  - lia.
  - simpl. lia.
  - simpl. apply Permutation_sym, Permutation_cons_app with (l1 := [_; _]).
    simpl. apply Permutation_refl.
Defined.

Lemma seek_magic_here (fuel : nat) (s : bytes) :
  SerialInterface.seek_magic (S fuel) (xAA :: x55 :: s) = (Ok true, s).
Proof.
  cbn [SerialInterface.seek_magic]. unfold pbind at 1, read at 1.
  change (Z.to_nat 1) with 1%nat. cbn [firstn skipn].
  unfold xAA at 1. rewrite unsigned_of_Z_small by lia.
  cbn [Z.eqb Pos.eqb].
  unfold pbind at 1, read at 1. change (Z.to_nat 1) with 1%nat.
  cbn [firstn skipn].
  unfold x55 at 1. rewrite unsigned_of_Z_small by lia. reflexivity.
Qed.

Lemma seek_magic_after_noise (noise : bytes) (fuel : nat) (s : bytes) :
  Forall (fun b => byte.unsigned b <> 0xAA) noise ->
  (length noise < fuel)%nat ->
  SerialInterface.seek_magic fuel (noise ++ xAA :: x55 :: s) = (Ok true, s).
Proof.
  intros Hnoise. revert fuel.
  induction Hnoise as [|b noise Hb Hnoise IH]; intros fuel Hfuel;
    (destruct fuel as [|fuel]; [simpl in Hfuel; lia|]); cbn [app].
  - apply seek_magic_here.
  - rewrite seek_magic_skip by exact Hb. apply IH. simpl in Hfuel. lia.
Qed.

(** Once the magic was found, the rest of [receive_packet] does not depend
    on how it was found. *)
Lemma receive_packet_from_magic (fuel : nat) (rx rx1 : bytes) :
  SerialInterface.seek_magic fuel rx = (Ok true, rx1) ->
  SerialInterface.receive_packet true fuel rx
  = SerialInterface.receive_packet true 1 (xAA :: x55 :: rx1).
Proof.
  intros H. unfold SerialInterface.receive_packet. cbn [negb].
  match goal with |- pbind _ ?k _ = _ => set (K := k) end.
  unfold pbind. rewrite H, seek_magic_here. reflexivity.
Qed.

Lemma receive_framed (cb l crc : byte) (p tail : bytes) :
  len p = byte.unsigned l ->
  SerialInterface.receive_packet true 1 (xAA :: x55 :: cb :: l :: p ++ crc :: tail)
  = (if byte.unsigned crc =?
        UartPacket.xor_bytes (Z.lxor (byte.unsigned cb) (byte.unsigned l)) p
     then Ok (Some (byte.unsigned cb, p))
     else Ok None,
     tail).
Proof.
  intros Hp. unfold SerialInterface.receive_packet. cbn [negb].
  unfold pbind at 1. rewrite seek_magic_here. cbn [negb].
  unfold pbind at 1, read at 1. change (Z.to_nat 2) with 2%nat.
  cbn [firstn skipn].
  change (len [cb; l] <? 2) with false. cbv iota.
  unfold pbind at 1, lift at 1.
  change (getitem [cb; l] 0) with (Ok (byte.unsigned cb)). cbv iota.
  unfold pbind at 1, lift at 1.
  change (getitem [cb; l] 1) with (Ok (byte.unsigned l)). cbv iota.
  unfold pbind at 1, read at 1.
  pose proof (unsigned_range256 l) as Hl.
  replace (Z.to_nat (byte.unsigned l + 1)) with (length p + 1)%nat
    by (unfold len in Hp; lia).
  rewrite firstn_app.
  replace (length p + 1 - length p)%nat with 1%nat by lia.
  rewrite firstn_all2 by lia. cbn [firstn].
  rewrite skipn_app.
  replace (length p + 1 - length p)%nat with 1%nat by lia.
  rewrite skipn_all2 by lia. cbn [skipn app].
  rewrite len_app, len_cons. change (len (@nil byte)) with 0.
  destruct (Z.ltb_spec (len p + (1 + 0)) (byte.unsigned l + 1)); [lia|].
  unfold slice. change (Z.to_nat 0) with 0%nat. cbn [skipn].
  replace (Z.to_nat (byte.unsigned l)) with (length p)
    by (unfold len in Hp; lia).
  rewrite firstn_app, Nat.sub_diag, firstn_all. cbn [firstn].
  rewrite app_nil_r.
  unfold pbind at 1, lift at 1, getitem.
  destruct (Z.ltb_spec (byte.unsigned l) 0); [lia|].
  replace (Z.to_nat (byte.unsigned l)) with (length p)
    by (unfold len in Hp; lia).
  rewrite nth_error_app2, Nat.sub_diag by lia. cbn [nth_error].
  rewrite land_ff_small
    by (apply xor_bytes_range, lxor_byte_range; apply unsigned_range256).
  destruct (byte.unsigned crc =? _); reflexivity.
Qed.

(** With too few bytes after the magic, nothing is delivered. *)
Lemma receive_starved (rx1 : bytes) :
  (forall cb l rx2,
      rx1 = cb :: l :: rx2 ->
      (length rx2 <= Z.to_nat (byte.unsigned l))%nat) ->
  exists rx',
    SerialInterface.receive_packet true 1 (xAA :: x55 :: rx1) = (Ok None, rx').
Proof.
  intros Hshort. unfold SerialInterface.receive_packet. cbn [negb].
  unfold pbind at 1. rewrite seek_magic_here. cbn [negb].
  unfold pbind at 1, read at 1. change (Z.to_nat 2) with 2%nat.
  destruct rx1 as [|cb [|l rx2]]; cbn [firstn skipn].
  - eexists. reflexivity.
  - eexists. reflexivity.
  - specialize (Hshort cb l rx2 eq_refl).
    change (len [cb; l] <? 2) with false. cbv iota.
    unfold pbind at 1, lift at 1.
    change (getitem [cb; l] 0) with (Ok (byte.unsigned cb)). cbv iota.
    unfold pbind at 1, lift at 1.
    change (getitem [cb; l] 1) with (Ok (byte.unsigned l)). cbv iota.
    unfold pbind at 1, read at 1.
    pose proof (unsigned_range256 l) as Hl.
    destruct (Z.ltb_spec
                (len (firstn (Z.to_nat (byte.unsigned l + 1)) rx2))
                (byte.unsigned l + 1)) as [|Hge].
    + eexists. reflexivity.
    + exfalso. unfold len in Hge. rewrite length_firstn in Hge. lia.
Qed.

(** X4. The short-form receiver finds a packet behind line noise: when the
    input is any bytes other than [0xAA], then a packet built by [encode],
    then anything, and the deadline allows one loop iteration per noise byte
    and one more, [receive_packet] returns the packet's command and payload
    and leaves exactly what follows the packet unread. *)
Theorem receive_packet_after_noise (noise : bytes) (cmd : Z)
    (payload rest : bytes) (fuel : nat) :
  Forall (fun b => byte.unsigned b <> 0xAA) noise ->
  0 <= cmd <= 255 ->
  (length payload <= 255)%nat ->
  (length noise < fuel)%nat ->
  exists packet,
    UartPacket.encode cmd payload = Ok packet
    /\ SerialInterface.receive_packet true fuel (noise ++ packet ++ rest)
       = (Ok (Some (cmd, payload)), rest).
Proof.
  intros Hnoise Hc Hl Hfuel.
  assert (Hlen : 0 <= len payload <= 255) by (unfold len; lia).
  eexists. split; [apply encode_bytes; lia|].
  cbn [app]. rewrite <- app_assoc. cbn [app].
  rewrite (receive_packet_from_magic fuel _ _
             (seek_magic_after_noise noise fuel _ Hnoise Hfuel)).
  rewrite receive_framed by (rewrite unsigned_of_Z_small; lia).
  rewrite !unsigned_of_Z_small; try lia.
  - rewrite Z.eqb_refl. reflexivity.
  - apply xor_bytes_range, lxor_byte_range; lia.
Qed.

Lemma receive_packet_after_noise_witness :
  exists packet,
    UartPacket.encode 0x10 [] = Ok packet
    /\ SerialInterface.receive_packet true 2
         ([byte.of_Z 0x00] ++ packet ++ [byte.of_Z 0x07])
       = (Ok (Some (0x10, [])), [byte.of_Z 0x07]).
Proof.
  apply (receive_packet_after_noise [byte.of_Z 0x00] 0x10 []
           [byte.of_Z 0x07] 2).
  - constructor; [vm_compute; discriminate | constructor].
  - lia.
  - simpl. lia.
  - simpl. lia.
Defined.

Lemma seek_magic_nil (fuel : nat) :
  SerialInterface.seek_magic (S fuel) [] = SerialInterface.seek_magic fuel [].
Proof. reflexivity. Qed.

Lemma seek_magic_lone (fuel : nat) (b : byte) :
  byte.unsigned b = 0xAA ->
  SerialInterface.seek_magic (S fuel) [b] = SerialInterface.seek_magic fuel [].
Proof.
  intros Hb. cbn [SerialInterface.seek_magic]. unfold pbind at 1, read at 1.
  change (Z.to_nat 1) with 1%nat. cbn [firstn skipn].
  rewrite Hb. reflexivity.
Qed.

Lemma seek_magic_sound (fuel : nat) (rx : bytes) :
  (exists rx1, SerialInterface.seek_magic fuel rx = (Ok false, rx1))
  \/ (exists noise rx1,
        SerialInterface.seek_magic fuel rx = (Ok true, rx1)
        /\ rx = noise ++ xAA :: x55 :: rx1).
Proof.
  revert rx. induction fuel as [|fuel IH]; intros rx.
  { left. exists rx. reflexivity. }
  destruct rx as [|b0 rx].
  { rewrite seek_magic_nil.
    destruct (IH []) as [H|(noise & rx1 & H & E)]; [left; exact H|].
    destruct noise; discriminate. }
  destruct (Z.eq_dec (byte.unsigned b0) 0xAA) as [E0|E0].
  - destruct rx as [|n0 rx].
    + rewrite seek_magic_lone by exact E0.
      destruct (IH []) as [H|(noise & rx1 & H & E)]; [left; exact H|].
      destruct noise; discriminate.
    + destruct (Z.eq_dec (byte.unsigned n0) 0x55) as [E1|E1].
      * right. exists [], rx.
        rewrite (unsigned_eq_of_Z _ _ E0), (unsigned_eq_of_Z _ _ E1).
        split; [apply seek_magic_here | reflexivity].
      * rewrite seek_magic_restarts_past_mismatch by assumption.
        destruct (IH rx) as [H|(noise & rx1 & H & E)]; [left; exact H|].
        right. exists (b0 :: n0 :: noise), rx1. split; [exact H|].
        rewrite E. reflexivity.
  - rewrite seek_magic_skip by exact E0.
    destruct (IH rx) as [H|(noise & rx1 & H & E)]; [left; exact H|].
    right. exists (b0 :: noise), rx1. split; [exact H|].
    rewrite E. reflexivity.
Qed.

(** X5. The short-form receiver never raises and never delivers a packet
    it did not see: [receive_packet] returns [None], or a command and
    payload whose encoded packet stands in the input, right before the
    unread rest; a delivered packet always passes [decode]. *)
Theorem receive_packet_sound (connected : bool) (fuel : nat) (rx : bytes) :
  (exists rx',
      SerialInterface.receive_packet connected fuel rx = (Ok None, rx'))
  \/ (exists noise cmd payload frame rx',
        SerialInterface.receive_packet connected fuel rx
        = (Ok (Some (cmd, payload)), rx')
        /\ rx = noise ++ frame ++ rx'
        /\ UartPacket.encode cmd payload = Ok frame
        /\ UartPacket.decode frame = Ok (cmd, payload)).
Proof.
  destruct connected; [|left; exists rx; reflexivity].
  destruct (seek_magic_sound fuel rx) as [(rx1 & H)|(noise & rx1 & H & E)].
  { left. exists rx1. unfold SerialInterface.receive_packet. cbn [negb].
    unfold pbind at 1. rewrite H. reflexivity. }
  rewrite (receive_packet_from_magic _ _ _ H).
  destruct rx1 as [|cb [|l rx2]].
  1,2: left; apply receive_starved; intros; discriminate.
  destruct (Nat.leb_spec (length rx2) (Z.to_nat (byte.unsigned l)))
    as [Hshort|Hlong].
  { left. apply receive_starved. intros cb' l' rx2' Heq.
    injection Heq as <- <- <-. exact Hshort. }
  destruct (nth_error rx2 (Z.to_nat (byte.unsigned l))) as [crc|] eqn:En.
  2:{ apply nth_error_None in En. lia. }
  destruct (nth_error_split _ _ En) as (p & tail & -> & Hp).
  pose proof (unsigned_range256 l) as Hl.
  assert (Hlen : len p = byte.unsigned l) by (unfold len; lia).
  rewrite receive_framed by exact Hlen.
  destruct (Z.eqb_spec (byte.unsigned crc)
              (UartPacket.xor_bytes
                 (Z.lxor (byte.unsigned cb) (byte.unsigned l)) p)) as [Ec|Ec].
  2:{ left. eexists. reflexivity. }
  right.
  exists noise, (byte.unsigned cb), p,
    (xAA :: x55 :: cb :: l :: p ++ [crc]), tail.
  pose proof (unsigned_range256 cb) as Hcb.
  split; [reflexivity|]. split; [|split].
  - rewrite E. cbn [app]. rewrite <- app_assoc. reflexivity.
  - rewrite encode_bytes by lia.
    rewrite Hlen, !byte.of_Z_unsigned, <- Ec, byte.of_Z_unsigned.
    reflexivity.
  - rewrite decode_frame by exact Hlen. rewrite Ec, Z.eqb_refl. reflexivity.
Qed.

Lemma encode_outcomes_aux (cmd : Z) (payload : bytes) :
  (exists packet, UartPacket.encode cmd payload = Ok packet)
  <-> len payload <= 255 /\ 0 <= cmd <= 255.
Proof.
  pose proof (len_nonneg payload) as Hn.
  split.
  - intros (packet & H). unfold UartPacket.encode, UartPacket.MAX_PAYLOAD in H.
    destruct (Z.ltb_spec 255 (len payload)); [discriminate|].
    cbn [bytes_of_ints] in H.
    destruct (Z.leb_spec 0 cmd); [|discriminate].
    destruct (Z.ltb_spec cmd 256); [|discriminate]. lia.
  - intros (Hl & Hc). eexists. apply encode_bytes; lia.
Qed.

(** X6. [send_packet] reports success exactly when the port is connected,
    the command is in 0..255 and the payload has at most 255 bytes; on
    failure it writes nothing; on success it appends the encoded packet to
    what was written, and a receiver reading what was appended gets the
    command and the payload back. *)
Theorem send_packet_loopback (connected : bool) (cmd : Z) (payload tx : bytes) :
  (fst (send_packet connected cmd payload tx) = true
   <-> connected = true /\ 0 <= cmd <= 255 /\ len payload <= 255)
  /\ (fst (send_packet connected cmd payload tx) = false ->
      snd (send_packet connected cmd payload tx) = tx)
  /\ (fst (send_packet connected cmd payload tx) = true ->
      exists packet,
        snd (send_packet connected cmd payload tx) = tx ++ packet
        /\ UartPacket.encode cmd payload = Ok packet
        /\ forall fuel rest,
             SerialInterface.receive_packet true (S fuel) (packet ++ rest)
             = (Ok (Some (cmd, payload)), rest)).
Proof.
  pose proof (len_nonneg payload) as Hn.
  unfold send_packet.
  destruct connected; cbn [negb fst snd].
  2:{ repeat split; intros; try discriminate; try reflexivity.
      all: destruct H as (H & _); discriminate. }
  destruct (UartPacket.encode cmd payload) as [packet|e] eqn:Eenc;
    cbn [fst snd].
  - assert (Hok : len payload <= 255 /\ 0 <= cmd <= 255).
    { apply (proj1 (encode_outcomes_aux cmd payload)).
      exists packet. exact Eenc. }
    repeat split; intros; try discriminate; try lia.
    exists packet. split; [reflexivity|]. split; [reflexivity|].
    intros fuel rest.
    rewrite encode_bytes in Eenc by lia. injection Eenc as <-.
    cbn [app]. rewrite <- app_assoc. cbn [app].
    rewrite (receive_packet_from_magic (S fuel) _ _ (seek_magic_here fuel _)).
    rewrite receive_framed by (rewrite unsigned_of_Z_small; lia).
    rewrite !unsigned_of_Z_small; try lia.
    + rewrite Z.eqb_refl. reflexivity.
    + apply xor_bytes_range, lxor_byte_range; lia.
  - repeat split; intros; try discriminate; try reflexivity.
    exfalso. destruct H as (_ & Hc & Hl).
    rewrite encode_bytes in Eenc by lia. discriminate.
Qed.

Lemma send_packet_loopback_witness :
  exists packet,
    snd (send_packet true 0x10 [] []) = [] ++ packet
    /\ UartPacket.encode 0x10 [] = Ok packet
    /\ forall fuel rest,
         SerialInterface.receive_packet true (S fuel) (packet ++ rest)
         = (Ok (Some (0x10, [])), rest).
Proof.
  apply (proj2 (proj2 (send_packet_loopback true 0x10 [] []))).
  vm_compute. reflexivity.
Defined.

(** ** Extended form: packing, checksum and the builders *)

Lemma pack_one_out_of_range (c : struct.code) (v : Z) :
  ~ (0 <= v < 2 ^ (8 * Z.of_nat (struct.size c))) ->
  struct.pack_one c v = Err StructError.
Proof.
  intros Hv. unfold struct.pack_one.
  destruct (Z.leb_spec 0 v); [|reflexivity].
  destruct (Z.ltb_spec v (2 ^ (8 * Z.of_nat (struct.size c)))); [lia|].
  reflexivity.
Qed.

(** [struct.pack] yields [calcsize] bytes, or raises [struct.error]. *)
Lemma pack_outcome (fmt : list struct.code) (vs : list Z) :
  (exists b, struct.pack fmt vs = Ok b /\ length b = struct.calcsize fmt)
  \/ struct.pack fmt vs = Err StructError.
Proof.
  revert vs. induction fmt as [|c fmt IH]; intros [|v vs]; cbn [struct.pack];
    try (right; reflexivity).
  - left. exists []. split; reflexivity.
  - destruct (pack_one_outcome c v) as [E|E]; rewrite E; cbn [bind];
      [|right; reflexivity].
    destruct (IH vs) as [(b & Eb & Hb)|Eb]; rewrite Eb; cbn [bind];
      [|right; reflexivity].
    left. eexists. split; [reflexivity|].
    rewrite length_app, length_le_split, Hb. reflexivity.
Qed.

Lemma le_combine_split_small (n : nat) (z : Z) :
  0 <= z < 2 ^ (8 * Z.of_nat n) -> le_combine (le_split n z) = z.
Proof.
  intros Hz. rewrite le_combine_split. apply Z.mod_small.
  replace (Z.of_nat n * 8) with (8 * Z.of_nat n) by lia. exact Hz.
Qed.

(** X7. [PacketFooter.pack] succeeds exactly when the checksum fits 16 bits
    and the end byte 8 bits, it then yields three bytes that
    [PacketFooter.unpack] turns back into the same footer; otherwise it
    raises [struct.error]. [unpack] raises "Not enough data" exactly below
    three bytes, and with three bytes or more it reads the first three and
    accepts any end byte. *)
Theorem footer_pack_unpack (f : PacketFooter.t) (data : bytes) :
  ((exists b,
       PacketFooter.pack f = Ok b
       /\ length b = 3%nat
       /\ PacketFooter.unpack b = Ok f
       /\ PacketFooter.unpack (b ++ data) = Ok f)
   <-> 0 <= PacketFooter.checksum f <= 65535
       /\ 0 <= PacketFooter.end_byte f <= 255)
  /\ (PacketFooter.pack f = Err StructError
      <-> ~ (0 <= PacketFooter.checksum f <= 65535
             /\ 0 <= PacketFooter.end_byte f <= 255))
  /\ (PacketFooter.unpack data = Err NotEnoughData <-> len data < 3)
  /\ (3 <= len data <->
      exists lo hi e rest,
        data = lo :: hi :: e :: rest
        /\ PacketFooter.unpack data
           = Ok (PacketFooter.mk (byte.unsigned lo + 256 * byte.unsigned hi)
                   (byte.unsigned e))).
Proof.
  destruct f as [checksum end_byte]. cbn [PacketFooter.checksum PacketFooter.end_byte].
  assert (Hpack_ok :
            0 <= checksum <= 65535 -> 0 <= end_byte <= 255 ->
            PacketFooter.pack (PacketFooter.mk checksum end_byte)
            = Ok (le_split 2 checksum ++ le_split 1 end_byte ++ [])).
  { intros Hc He. unfold PacketFooter.pack, PacketFooter.fmt.
    cbn [PacketFooter.checksum PacketFooter.end_byte struct.pack].
    rewrite !pack_one_ok; [reflexivity| |].
    - cbn [struct.size]. change (2 ^ (8 * Z.of_nat 1)) with 256. lia.
    - cbn [struct.size]. change (2 ^ (8 * Z.of_nat 2)) with 65536. lia. }
  assert (Hpack_err :
            ~ (0 <= checksum <= 65535 /\ 0 <= end_byte <= 255) ->
            PacketFooter.pack (PacketFooter.mk checksum end_byte)
            = Err StructError).
  { intros Hbad. unfold PacketFooter.pack, PacketFooter.fmt.
    cbn [PacketFooter.checksum PacketFooter.end_byte struct.pack].
    destruct (pack_one_outcome struct.H checksum) as [E|E]; rewrite E;
      cbn [bind]; [|reflexivity].
    rewrite (pack_one_out_of_range struct.B end_byte); [reflexivity|].
    cbn [struct.size]. change (2 ^ (8 * Z.of_nat 1)) with 256.
    intros He. apply Hbad. split; [|lia].
    unfold struct.pack_one in E. cbn [struct.size] in E.
    change (2 ^ (8 * Z.of_nat 2)) with 65536 in E.
    destruct (Z.leb_spec 0 checksum); [|discriminate].
    destruct (Z.ltb_spec checksum 65536); [lia|discriminate]. }
  assert (Hround :
            0 <= checksum <= 65535 -> 0 <= end_byte <= 255 ->
            forall rest,
              PacketFooter.unpack
                ((le_split 2 checksum ++ le_split 1 end_byte ++ []) ++ rest)
              = Ok (PacketFooter.mk checksum end_byte)).
  { intros Hc He rest.
    change (le_split 2 checksum)
      with [byte.of_Z checksum; byte.of_Z (Z.shiftr checksum 8)].
    change (le_split 1 end_byte) with [byte.of_Z end_byte].
    cbn [app]. rewrite footer_unpack_prefix.
    rewrite <- le_combine_2, <- le_combine_1_unsigned.
    change [byte.of_Z checksum; byte.of_Z (Z.shiftr checksum 8)]
      with (le_split 2 checksum).
    change [byte.of_Z end_byte] with (le_split 1 end_byte).
    rewrite !le_combine_split_small; [reflexivity| |].
    - change (2 ^ (8 * Z.of_nat 1)) with 256. lia.
    - change (2 ^ (8 * Z.of_nat 2)) with 65536. lia. }
  split; [|split; [|split]].
  - split.
    + intros (b & Hb & _).
      destruct (Z.le_gt_cases 0 checksum); destruct (Z.le_gt_cases checksum 65535);
        destruct (Z.le_gt_cases 0 end_byte); destruct (Z.le_gt_cases end_byte 255);
        try lia; rewrite Hpack_err in Hb by lia; discriminate.
    + intros (Hc & He). eexists. split; [apply Hpack_ok; assumption|].
      split; [|split].
      * rewrite !length_app, !length_le_split. reflexivity.
      * rewrite <- (app_nil_r (le_split 2 checksum ++ le_split 1 end_byte ++ [])).
        apply Hround; assumption.
      * apply Hround; assumption.
  - split.
    + intros Hb Hok. destruct Hok as (Hc & He).
      rewrite Hpack_ok in Hb by assumption. discriminate.
    + apply Hpack_err.
  - unfold PacketFooter.unpack, PacketFooter.SIZE.
    destruct (Z.ltb_spec (len data) 3) as [Hs|Hs].
    + split; [intros _; exact Hs | reflexivity].
    + split; [|lia]. intros H. exfalso.
      destruct data as [|lo [|hi [|e rest]]];
        try (unfold len in Hs; simpl in Hs; lia).
      pose proof (footer_unpack_prefix lo hi e rest) as Hu.
      unfold PacketFooter.unpack, PacketFooter.SIZE in Hu.
      destruct (len (lo :: hi :: e :: rest) <? 3); [|rewrite Hu in H];
        discriminate.
  - split.
    + intros Hs. destruct data as [|lo [|hi [|e rest]]];
        try (unfold len in Hs; simpl in Hs; lia).
      exists lo, hi, e, rest. split; [reflexivity|].
      apply footer_unpack_prefix.
    + intros (lo & hi & e & rest & -> & _).
      rewrite !len_cons. pose proof (len_nonneg rest). lia.
Qed.

(** X8. [PacketHeader.pack] and [PacketHeader.unpack] are not inverse:
    [unpack] never returns a header, whatever it is given, and a header
    that [pack] accepts is packed into 11 bytes on which [unpack] raises
    [struct.error]. [pack] raises nothing but [struct.error]. *)
Theorem header_pack_unpack_mismatch (h : PacketHeader.t) (data : bytes) :
  (forall h', PacketHeader.unpack data <> Ok h')
  /\ ((exists b,
         PacketHeader.pack h = Ok b
         /\ length b = 11%nat
         /\ PacketHeader.unpack b = Err StructError)
      \/ PacketHeader.pack h = Err StructError).
Proof.
  split.
  - intros h' H. destruct (header_unpack_raises data) as [E|E];
      rewrite E in H; discriminate.
  - unfold PacketHeader.pack.
    destruct (pack_outcome PacketHeader.fmt
                [PacketHeader.sync1 h; PacketHeader.sync2 h;
                 PacketHeader.sync3 h; PacketHeader.msg_type h;
                 PacketHeader.payload_len h; PacketHeader.frame_num h;
                 PacketHeader.frag_index h; PacketHeader.frag_total h])
      as [(b & Eb & Hb)|Eb]; [left|right; exact Eb].
    exists b. split; [exact Eb|].
    change (struct.calcsize PacketHeader.fmt) with 11%nat in Hb.
    split; [exact Hb|].
    destruct (header_unpack_raises b) as [E|E]; [|exact E].
    exfalso. unfold PacketHeader.unpack, PacketHeader.SIZE in E.
    destruct (Z.ltb_spec (len b) 10) as [Hs|Hs].
    + unfold len in Hs. lia.
    + unfold struct.unpack in E.
      destruct (Nat.eqb _ _); discriminate.
Qed.

Lemma calc_checksum_range (data : bytes) : 0 <= calc_checksum data <= 65535.
Proof.
  rewrite calc_checksum_sum.
  pose proof (Z.mod_pos_bound (sum_of data) 65536 ltac:(lia)). lia.
Qed.

Lemma sum_of_permutation (x y : bytes) :
  Permutation x y -> sum_of x = sum_of y.
Proof.
  unfold sum_of. induction 1; simpl; lia.
Qed.

(** X9. The additive checksum of the extended form: [calc_checksum] stays
    within 16 bits, the checksum of a concatenation is the sum of the parts'
    checksums modulo 65536, and it does not see the order of the bytes; so
    [build_packet] gives a payload and any reordering of it the same header
    and the same footer. *)
Theorem additive_checksum_properties (x y : bytes) (msg_type : Z)
    (payload reordered : bytes) (frame_num frag_index frag_total : Z) :
  Permutation payload reordered ->
  fields_fit
    (PacketHeader.init msg_type (len payload) frame_num frag_index frag_total) ->
  len payload <= 65535 ->
  0 <= calc_checksum x <= 65535
  /\ calc_checksum (x ++ y) = (calc_checksum x + calc_checksum y) mod 65536
  /\ calc_checksum payload = calc_checksum reordered
  /\ exists header footer,
       length header = 11%nat
       /\ length footer = 3%nat
       /\ build_packet msg_type payload frame_num frag_index frag_total
          = Ok (header ++ payload ++ footer)
       /\ build_packet msg_type reordered frame_num frag_index frag_total
          = Ok (header ++ reordered ++ footer).
Proof.
  intros Hperm Hfit Hlen.
  assert (Hlen' : len reordered = len payload).
  { unfold len. rewrite (Permutation_length Hperm). reflexivity. }
  split; [apply calc_checksum_range|]. split; [|split].
  - rewrite !calc_checksum_sum, sum_of_app. rewrite <- Z.add_mod by lia.
    reflexivity.
  - rewrite !calc_checksum_sum, (sum_of_permutation _ _ Hperm). reflexivity.
  - exists (header_image
              (PacketHeader.init msg_type (len payload) frame_num frag_index
                 frag_total)),
      (le_split 2
         ((sum_of
             (header_image
                (PacketHeader.init msg_type (len payload) frame_num frag_index
                   frag_total)) + sum_of payload) mod 65536)
         ++ [byte.of_Z END_BYTE]).
    split; [apply header_image_length|].
    split; [rewrite length_app, length_le_split; reflexivity|].
    split.
    + apply build_packet_image; assumption.
    + rewrite (sum_of_permutation _ _ Hperm), <- Hlen'.
      apply build_packet_image; rewrite Hlen'; assumption.
Qed.

Lemma additive_checksum_properties_witness :
  calc_checksum (map byte.of_Z [1; 2; 3]) = calc_checksum (map byte.of_Z [3; 1; 2]).
Proof.
  refine (proj1 (proj2 (proj2
            (additive_checksum_properties [] [] MsgType.PING
               (map byte.of_Z [1; 2; 3]) (map byte.of_Z [3; 1; 2]) 0 0 1
               _ _ _)))).
  - simpl. apply Permutation_sym, Permutation_cons_app with (l1 := [_; _]).
    simpl. apply Permutation_refl.
  - unfold fields_fit, MsgType.PING. simpl. lia.
  - unfold len. simpl. lia.
Defined.

(** X10. [build_ping_packet] succeeds exactly for a timestamp that fits 32
    bits and raises [struct.error] otherwise.  The packet is, byte for
    byte, the header [AA 55 CC 01 00 04 00 00 00 00 01] (type PING in two
    bytes, payload length 4, frame 0, fragment 0 of 1), the timestamp in
    four little-endian bytes, the sum of all these bytes modulo 65536 in two
    little-endian bytes and the end byte [0x55]: 18 bytes in all, one more
    than [PacketHeader.SIZE + 4 + PacketFooter.SIZE]. *)
Theorem build_ping_packet_outcomes (timestamp_us : Z) :
  let stamp :=
    [byte.of_Z timestamp_us; byte.of_Z (Z.shiftr timestamp_us 8);
     byte.of_Z (Z.shiftr timestamp_us 16);
     byte.of_Z (Z.shiftr timestamp_us 24)] in
  let checksum := (0xAA + 0x55 + 0xCC + 0x01 + 0x04 + 0x01 + sum_of stamp)
                  mod 65536 in
  let packet :=
    map byte.of_Z [0xAA; 0x55; 0xCC; 0x01; 0x00; 0x04; 0x00; 0x00; 0x00;
                   0x00; 0x01]
      ++ stamp
      ++ [byte.of_Z checksum; byte.of_Z (Z.shiftr checksum 8);
          byte.of_Z 0x55] in
  (build_ping_packet timestamp_us = Ok packet
   <-> 0 <= timestamp_us < 2 ^ 32)
  /\ (build_ping_packet timestamp_us = Err StructError
      <-> ~ (0 <= timestamp_us < 2 ^ 32))
  /\ len packet = 18
  /\ 18 <> PacketHeader.SIZE + 4 + PacketFooter.SIZE.
Proof.
  intros stamp checksum packet.
  assert (Himage : packet_image (PacketHeader.init MsgType.PING 4 0 0 1)
                     (le_split 4 timestamp_us) = packet).
  { subst packet checksum stamp. unfold packet_image. f_equal. }
  assert (Hlen4 : len (le_split 4 timestamp_us) = 4)
    by (unfold len; rewrite length_le_split; reflexivity).
  unfold build_ping_packet. cbn [struct.pack].
  destruct (Z.leb_spec 0 timestamp_us) as [Hlo|Hlo];
    [destruct (Z.ltb_spec timestamp_us (2 ^ 32)) as [Hhi|Hhi]|].
  - rewrite pack_one_ok by (cbn [struct.size]; exact (conj Hlo Hhi)).
    cbn [bind struct.size]. rewrite app_nil_r.
    pose proof (build_packet_image MsgType.PING (le_split 4 timestamp_us) 0 0 1)
      as Hb.
    rewrite Hlen4 in Hb. rewrite Hb, Himage.
    + repeat split; intros; try discriminate; try lia; try assumption;
        reflexivity.
    + unfold fields_fit, MsgType.PING. simpl. lia.
    + lia.
  - rewrite pack_one_out_of_range by (cbn [struct.size]; lia).
    cbn [bind].
    repeat split; intros; try discriminate; try lia; try assumption;
      reflexivity.
  - rewrite pack_one_out_of_range by (cbn [struct.size]; lia).
    cbn [bind].
    repeat split; intros; try discriminate; try lia; try assumption;
      reflexivity.
Qed.

Lemma frame_num_out_of_range (msg_type : Z) (payload : bytes)
    (frame_num frag_index frag_total : Z) :
  ~ (0 <= frame_num <= 65535) ->
  build_packet msg_type payload frame_num frag_index frag_total
  = Err StructError.
Proof.
  intros Hf. unfold build_packet, PacketHeader.pack, PacketHeader.fmt,
    PacketHeader.init.
  cbn [PacketHeader.sync1 PacketHeader.sync2 PacketHeader.sync3
       PacketHeader.msg_type PacketHeader.payload_len PacketHeader.frame_num
       PacketHeader.frag_index PacketHeader.frag_total struct.pack].
  repeat match goal with
         | |- context [struct.pack_one ?c ?v] =>
             lazymatch v with
             | frame_num => fail
             | _ =>
                 destruct (pack_one_outcome c v) as [E|E]; rewrite E; clear E;
                 cbn [bind]; [|reflexivity]
             end
         end.
  rewrite (pack_one_out_of_range struct.H frame_num)
    by (cbn [struct.size]; change (2 ^ (8 * Z.of_nat 2)) with 65536; lia).
  reflexivity.
Qed.

(** X11. [build_hub75_frame_packet] raises the "Invalid HUB75 data size"
    error exactly when the frame does not have 12288 bytes, whatever the
    frame number; for a 12288-byte frame it raises [struct.error] when the
    frame number does not fit 16 bits, and otherwise returns one
    HUB75_FRAME packet of 12302 bytes that carries the whole frame as
    fragment 0 of 1: byte for byte the sync bytes, type [0x10], payload
    length 12288, the frame number, index 0, count 1, the frame, the
    checksum and the end byte. *)
Theorem build_hub75_frame_packet_outcomes (rgb_data : bytes) (frame_num : Z) :
  (build_hub75_frame_packet rgb_data frame_num = Err InvalidFrameSize
   <-> len rgb_data <> HUB75_RGB_SIZE)
  /\ (build_hub75_frame_packet rgb_data frame_num = Err StructError
      <-> len rgb_data = HUB75_RGB_SIZE /\ ~ (0 <= frame_num <= 65535))
  /\ (build_hub75_frame_packet rgb_data frame_num
      = Ok (packet_image
              (PacketHeader.init MsgType.HUB75_FRAME 12288 frame_num 0 1)
              rgb_data)
      <-> len rgb_data = HUB75_RGB_SIZE /\ 0 <= frame_num <= 65535)
  /\ (len rgb_data = HUB75_RGB_SIZE ->
      len (packet_image
             (PacketHeader.init MsgType.HUB75_FRAME 12288 frame_num 0 1)
             rgb_data) = 12302)
  /\ packet_image
       (PacketHeader.init MsgType.HUB75_FRAME 12288 frame_num 0 1) rgb_data
     = wire_packet 0x10 12288 frame_num 0 1 rgb_data.
Proof.
  change HUB75_RGB_SIZE with 12288.
  assert (Hsize : len rgb_data = 12288 ->
                  len (packet_image
                         (PacketHeader.init MsgType.HUB75_FRAME 12288 frame_num
                            0 1) rgb_data) = 12302).
  { intros H. unfold packet_image. rewrite !len_app, H. unfold len.
    rewrite header_image_length, length_le_split. reflexivity. }
  unfold build_hub75_frame_packet. change HUB75_RGB_SIZE with 12288.
  destruct (Z.eqb_spec (len rgb_data) 12288) as [Hlen|Hlen]; cbn [negb].
  2:{ repeat split; intros; try discriminate; try lia; try assumption;
        try (destruct H; lia). }
  destruct (Z.leb_spec 0 frame_num) as [Hlo|Hlo];
    [destruct (Z.leb_spec frame_num 65535) as [Hhi|Hhi]|].
  - pose proof (build_packet_image MsgType.HUB75_FRAME rgb_data frame_num 0 1)
      as Hb.
    rewrite Hlen in Hb. rewrite Hb.
    + repeat split; intros; try discriminate; try lia; try assumption;
        try (destruct H as (_ & H); lia).
    + unfold fields_fit, MsgType.HUB75_FRAME. simpl. lia.
    + lia.
  - rewrite frame_num_out_of_range by lia.
    repeat split; intros; try discriminate; try lia; try assumption;
      try (destruct H as (_ & H); lia).
  - rewrite frame_num_out_of_range by lia.
    repeat split; intros; try discriminate; try lia; try assumption;
      try (destruct H as (_ & H); lia).
Qed.

Lemma build_hub75_frame_packet_outcomes_witness :
  len (packet_image (PacketHeader.init MsgType.HUB75_FRAME 12288 7 0 1)
         (repeat (byte.of_Z 0) (Z.to_nat 12288))) = 12302.
Proof.
  apply (proj1 (proj2 (proj2 (proj2
           (build_hub75_frame_packet_outcomes
              (repeat (byte.of_Z 0) (Z.to_nat 12288)) 7))))).
  vm_compute. reflexivity.
Defined.

Lemma for_each_first_fails {A S : Type} (x : A) (xs : list A)
    (body : S -> A -> result S) (s : S) (e : error) :
  body s x = Err e -> for_each (x :: xs) body s = Err e.
Proof. intros H. cbn [for_each]. rewrite H. reflexivity. Qed.

(** X12. The fragment builders check the frame size before anything else:
    they raise the "Invalid data size" error exactly when the frame does
    not have the display's size (12288 bytes for HUB75, 2048 for OLED),
    whatever the frame number; with a frame of the right size they raise
    [struct.error] exactly when the frame number does not fit 16 bits, and
    then no packet list is returned at all. *)
Theorem fragment_builder_errors (rgb_data mono_data : bytes) (frame_num : Z) :
  (build_hub75_fragment_packets rgb_data frame_num = Err InvalidFrameSize
   <-> len rgb_data <> 12288)
  /\ (build_hub75_fragment_packets rgb_data frame_num = Err StructError
      <-> len rgb_data = 12288 /\ ~ (0 <= frame_num <= 65535))
  /\ (build_oled_fragment_packets mono_data frame_num = Err InvalidFrameSize
      <-> len mono_data <> 2048)
  /\ (build_oled_fragment_packets mono_data frame_num = Err StructError
      <-> len mono_data = 2048 /\ ~ (0 <= frame_num <= 65535)).
Proof.
  assert (Hhub : forall data,
            len data = 12288 ->
            (build_hub75_fragment_packets data frame_num = Err StructError
             <-> ~ (0 <= frame_num <= 65535))
            /\ build_hub75_fragment_packets data frame_num
               <> Err InvalidFrameSize).
  { intros data Hlen. unfold build_hub75_fragment_packets.
    change HUB75_RGB_SIZE with 12288. rewrite Hlen.
    change (negb (12288 =? 12288)) with false. cbv iota.
    destruct (Z.leb_spec 0 frame_num) as [Hlo|Hlo];
      [destruct (Z.leb_spec frame_num 65535) as [Hhi|Hhi]|].
    - match goal with
      | |- context [for_each ?r ?b ?a] =>
          assert (E : exists v, for_each r b a = Ok v)
            by (eexists;
                apply (fragment_loop data MsgType.HUB75_FRAG frame_num 12);
                unfold MsgType.HUB75_FRAG, FRAGMENT_SIZE; lia)
      end.
      destruct E as (v & E). rewrite E.
      split; [split; intros; [discriminate|lia] | discriminate].
    - change (range HUB75_FRAGMENT_COUNT) with (0 :: map Z.of_nat (seq 1 11)).
      rewrite (for_each_first_fails _ _ _ _ StructError)
        by (rewrite frame_num_out_of_range by lia; reflexivity).
      split; [split; intros; [lia|reflexivity] | discriminate].
    - change (range HUB75_FRAGMENT_COUNT) with (0 :: map Z.of_nat (seq 1 11)).
      rewrite (for_each_first_fails _ _ _ _ StructError)
        by (rewrite frame_num_out_of_range by lia; reflexivity).
      split; [split; intros; [lia|reflexivity] | discriminate]. }
  assert (Holed : forall data,
            len data = 2048 ->
            (build_oled_fragment_packets data frame_num = Err StructError
             <-> ~ (0 <= frame_num <= 65535))
            /\ build_oled_fragment_packets data frame_num
               <> Err InvalidFrameSize).
  { intros data Hlen. unfold build_oled_fragment_packets.
    change OLED_MONO_SIZE with 2048. rewrite Hlen.
    change (negb (2048 =? 2048)) with false. cbv iota.
    destruct (Z.leb_spec 0 frame_num) as [Hlo|Hlo];
      [destruct (Z.leb_spec frame_num 65535) as [Hhi|Hhi]|].
    - match goal with
      | |- context [for_each ?r ?b ?a] =>
          assert (E : exists v, for_each r b a = Ok v)
            by (eexists;
                apply (fragment_loop data MsgType.OLED_FRAG frame_num 2);
                unfold MsgType.OLED_FRAG, FRAGMENT_SIZE; lia)
      end.
      destruct E as (v & E). rewrite E.
      split; [split; intros; [discriminate|lia] | discriminate].
    - change (range OLED_FRAGMENT_COUNT) with (0 :: map Z.of_nat (seq 1 1)).
      rewrite (for_each_first_fails _ _ _ _ StructError)
        by (rewrite frame_num_out_of_range by lia; reflexivity).
      split; [split; intros; [lia|reflexivity] | discriminate].
    - change (range OLED_FRAGMENT_COUNT) with (0 :: map Z.of_nat (seq 1 1)).
      rewrite (for_each_first_fails _ _ _ _ StructError)
        by (rewrite frame_num_out_of_range by lia; reflexivity).
      split; [split; intros; [lia|reflexivity] | discriminate]. }
  assert (Hhub_bad : len rgb_data <> 12288 ->
                     build_hub75_fragment_packets rgb_data frame_num
                     = Err InvalidFrameSize).
  { intros Hlen. unfold build_hub75_fragment_packets.
    change HUB75_RGB_SIZE with 12288.
    destruct (Z.eqb_spec (len rgb_data) 12288); [contradiction|reflexivity]. }
  assert (Holed_bad : len mono_data <> 2048 ->
                      build_oled_fragment_packets mono_data frame_num
                      = Err InvalidFrameSize).
  { intros Hlen. unfold build_oled_fragment_packets.
    change OLED_MONO_SIZE with 2048.
    destruct (Z.eqb_spec (len mono_data) 2048); [contradiction|reflexivity]. }
  destruct (Z.eq_dec (len rgb_data) 12288) as [Hr|Hr];
    destruct (Z.eq_dec (len mono_data) 2048) as [Hm|Hm];
    try (destruct (Hhub rgb_data Hr) as [Hh1 Hh2]);
    try (destruct (Holed mono_data Hm) as [Ho1 Ho2]);
    try rewrite (Hhub_bad Hr); try rewrite (Holed_bad Hm);
    repeat split; intros; try discriminate; try contradiction;
      try reflexivity; try tauto; try lia.
Qed.

(** ** Extended form: the receiver *)

Lemma seek_sync_nil (fuel : nat) :
  SerialInterfaceV2.seek_sync (S fuel) [] = SerialInterfaceV2.seek_sync fuel [].
Proof. reflexivity. Qed.

Lemma seek_sync_one (fuel : nat) (b1 : byte) :
  SerialInterfaceV2.seek_sync (S fuel) [b1] = SerialInterfaceV2.seek_sync fuel [].
Proof.
  cbn [SerialInterfaceV2.seek_sync]. unfold pbind at 1, read at 1.
  change (Z.to_nat 1) with 1%nat. cbn [firstn skipn].
  destruct (byte.unsigned b1 =? SYNC_BYTE_1); reflexivity.
Qed.

Lemma seek_sync_two (fuel : nat) (b1 b2 : byte) :
  SerialInterfaceV2.seek_sync (S fuel) [b1; b2]
  = SerialInterfaceV2.seek_sync fuel
      (if byte.unsigned b1 =? SYNC_BYTE_1 then [] else [b2]).
Proof.
  cbn [SerialInterfaceV2.seek_sync]. unfold pbind at 1, read at 1.
  change (Z.to_nat 1) with 1%nat. cbn [firstn skipn].
  destruct (byte.unsigned b1 =? SYNC_BYTE_1); [|reflexivity].
  unfold pbind at 1, read at 1. change (Z.to_nat 1) with 1%nat.
  cbn [firstn skipn].
  destruct (byte.unsigned b2 =? SYNC_BYTE_2); reflexivity.
Qed.

(** After two sync bytes, a third byte that is not the third sync byte is
    dropped as well. *)
Lemma seek_sync_third_mismatch (fuel : nat) (b1 b2 b3 : byte) (s : bytes) :
  byte.unsigned b1 = SYNC_BYTE_1 ->
  byte.unsigned b2 = SYNC_BYTE_2 ->
  byte.unsigned b3 <> SYNC_BYTE_3 ->
  SerialInterfaceV2.seek_sync (S fuel) (b1 :: b2 :: b3 :: s)
  = SerialInterfaceV2.seek_sync fuel s.
Proof.
  intros H1 H2 H3. cbn [SerialInterfaceV2.seek_sync].
  unfold pbind at 1, read at 1. change (Z.to_nat 1) with 1%nat.
  cbn [firstn skipn]. rewrite H1, Z.eqb_refl.
  unfold pbind at 1, read at 1. change (Z.to_nat 1) with 1%nat.
  cbn [firstn skipn]. rewrite H2, Z.eqb_refl.
  unfold pbind at 1, read at 1. change (Z.to_nat 1) with 1%nat.
  cbn [firstn skipn].
  destruct (Z.eqb_spec (byte.unsigned b3) SYNC_BYTE_3); [contradiction|].
  reflexivity.
Qed.

Lemma seek_sync_sound (fuel : nat) (rx : bytes) :
  (exists rx1, SerialInterfaceV2.seek_sync fuel rx = (Ok false, rx1))
  \/ (exists skipped rx1,
        SerialInterfaceV2.seek_sync fuel rx = (Ok true, rx1)
        /\ rx = skipped
                  ++ byte.of_Z 0xAA :: byte.of_Z 0x55 :: byte.of_Z 0xCC :: rx1).
Proof.
  revert rx. induction fuel as [|fuel IH]; intros rx.
  { left. exists rx. reflexivity. }
  assert (Hrec : forall pre s,
            rx = pre ++ s ->
            SerialInterfaceV2.seek_sync (S fuel) rx
            = SerialInterfaceV2.seek_sync fuel s ->
            (exists rx1, SerialInterfaceV2.seek_sync (S fuel) rx = (Ok false, rx1))
            \/ (exists skipped rx1,
                  SerialInterfaceV2.seek_sync (S fuel) rx = (Ok true, rx1)
                  /\ rx = skipped
                            ++ byte.of_Z 0xAA :: byte.of_Z 0x55
                            :: byte.of_Z 0xCC :: rx1)).
  { intros pre s Hrx Hstep. rewrite Hstep.
    destruct (IH s) as [H|(skipped & rx1 & H & E)]; [left; exact H|].
    right. exists (pre ++ skipped), rx1. split; [exact H|].
    rewrite Hrx, E, <- app_assoc. reflexivity. }
  destruct rx as [|b1 rx].
  { apply (Hrec [] []); [reflexivity | apply seek_sync_nil]. }
  destruct (Z.eq_dec (byte.unsigned b1) SYNC_BYTE_1) as [E1|E1].
  2:{ apply (Hrec [b1] rx); [reflexivity | apply seek_sync_skip; exact E1]. }
  destruct rx as [|b2 rx].
  { apply (Hrec [b1] []); [reflexivity | apply seek_sync_one]. }
  destruct (Z.eq_dec (byte.unsigned b2) SYNC_BYTE_2) as [E2|E2].
  2:{ apply (Hrec [b1; b2] rx);
        [reflexivity | apply seek_sync_restarts_past_mismatch; assumption]. }
  destruct rx as [|b3 rx].
  { apply (Hrec [b1; b2] []); [reflexivity|].
    rewrite seek_sync_two, E1. reflexivity. }
  destruct (Z.eq_dec (byte.unsigned b3) SYNC_BYTE_3) as [E3|E3].
  2:{ apply (Hrec [b1; b2; b3] rx);
        [reflexivity | apply seek_sync_third_mismatch; assumption]. }
  right. exists [], rx.
  rewrite (unsigned_eq_of_Z _ _ E1), (unsigned_eq_of_Z _ _ E2),
    (unsigned_eq_of_Z _ _ E3).
  split; [apply seek_sync_here | reflexivity].
Qed.

(** X13. The sync search of the extended-form receiver never raises and
    reports success only after reading [AA 55 CC]: then the input was
    some skipped bytes, the marker, and the bytes left unread. It does find
    a marker that follows any bytes other than [0xAA], given one loop
    iteration per such byte and one more. *)
Theorem seek_sync_outcomes (fuel : nat) (rx noise rest : bytes) :
  ((exists rx1, SerialInterfaceV2.seek_sync fuel rx = (Ok false, rx1))
   \/ (exists skipped rx1,
         SerialInterfaceV2.seek_sync fuel rx = (Ok true, rx1)
         /\ rx = skipped
                   ++ byte.of_Z 0xAA :: byte.of_Z 0x55 :: byte.of_Z 0xCC :: rx1))
  /\ (Forall (fun b => byte.unsigned b <> 0xAA) noise ->
      (length noise < fuel)%nat ->
      SerialInterfaceV2.seek_sync fuel
        (noise ++ byte.of_Z 0xAA :: byte.of_Z 0x55 :: byte.of_Z 0xCC :: rest)
      = (Ok true, rest)).
Proof.
  split; [apply seek_sync_sound|].
  intros Hnoise. revert fuel.
  induction Hnoise as [|b noise Hb Hnoise IH]; intros fuel Hfuel;
    (destruct fuel as [|fuel]; [simpl in Hfuel; lia|]); cbn [app].
  - apply seek_sync_here.
  - rewrite seek_sync_skip by exact Hb. apply IH. simpl in Hfuel. lia.
Qed.

Lemma seek_sync_outcomes_witness :
  SerialInterfaceV2.seek_sync 2
    ([byte.of_Z 0x00]
       ++ byte.of_Z 0xAA :: byte.of_Z 0x55 :: byte.of_Z 0xCC :: [byte.of_Z 0x01])
  = (Ok true, [byte.of_Z 0x01]).
Proof.
  apply (proj2 (seek_sync_outcomes 2 [] [byte.of_Z 0x00] [byte.of_Z 0x01])).
  - constructor; [vm_compute; discriminate | constructor].
  - simpl. lia.
Defined.

(** ** Fragments put together again *)

(** X14. The payloads of the fragment packets give the frame back: in each
    packet of [build_hub75_fragment_packets] the 1024 bytes from offset 11
    on (after the 11 header bytes) are the fragment's slice of the frame,
    every packet has 11 + 1024 + 3 bytes, and the slices in list order
    concatenate to the original 12288-byte frame. *)
Theorem fragments_reassemble (rgb_data : bytes) (frame_num : Z) :
  len rgb_data = 12288 ->
  0 <= frame_num <= 65535 ->
  exists packets,
    build_hub75_fragment_packets rgb_data frame_num = Ok packets
    /\ Forall (fun packet => len packet = 11 + 1024 + 3) packets
    /\ concat (map (fun packet => slice packet 11 (11 + 1024)) packets)
       = rgb_data.
Proof.
  intros Hlen Hf.
  assert (Hchunk : forall i, In i (range 12) -> len (chunk rgb_data i) = 1024).
  { intros i Hi. apply in_range in Hi.
    apply len_chunk; unfold FRAGMENT_SIZE; lia. }
  eexists. split; [|split].
  - unfold build_hub75_fragment_packets. change HUB75_RGB_SIZE with 12288.
    rewrite Hlen. change (negb (12288 =? 12288)) with false. cbv iota.
    apply (fragment_loop rgb_data MsgType.HUB75_FRAG frame_num 12);
      unfold MsgType.HUB75_FRAG, FRAGMENT_SIZE; lia.
  - apply Forall_map, Forall_forall. intros i Hi.
    unfold packet_image. rewrite !len_app, (Hchunk i Hi). unfold len.
    rewrite header_image_length, length_le_split. reflexivity.
  - rewrite map_map.
    rewrite (map_ext_in _ (chunk rgb_data)).
    + unfold range. change (Z.to_nat (Z.of_nat 12)) with 12%nat.
      rewrite concat_chunks. apply firstn_all2.
      unfold len in Hlen. unfold FRAGMENT_SIZE. lia.
    + intros i Hi. unfold packet_image.
      pose proof (slice_app_middle
                    (header_image
                       (PacketHeader.init MsgType.HUB75_FRAG FRAGMENT_SIZE
                          frame_num i (Z.of_nat 12)))
                    (chunk rgb_data i)
                    (le_split 2
                       ((sum_of
                           (header_image
                              (PacketHeader.init MsgType.HUB75_FRAG
                                 FRAGMENT_SIZE frame_num i (Z.of_nat 12)))
                         + sum_of (chunk rgb_data i)) mod 65536)
                       ++ [byte.of_Z END_BYTE])) as Hs.
      rewrite (Hchunk i Hi) in Hs. unfold len in Hs at 1 2.
      rewrite header_image_length in Hs. exact Hs.
Qed.

Lemma fragments_reassemble_witness :
  exists packets,
    build_hub75_fragment_packets (repeat (byte.of_Z 7) (Z.to_nat 12288)) 1
    = Ok packets
    /\ Forall (fun packet => len packet = 11 + 1024 + 3) packets
    /\ concat (map (fun packet => slice packet 11 (11 + 1024)) packets)
       = repeat (byte.of_Z 7) (Z.to_nat 12288).
Proof.
  apply (fragments_reassemble (repeat (byte.of_Z 7) (Z.to_nat 12288)) 1).
  - vm_compute. reflexivity.
  - lia.
Defined.

(** ** The noisy channel simulator *)

Lemma transmit_length (packet : bytes) (noise : list (option Z)) :
  length (UartSimulator.transmit packet noise) = length packet.
Proof.
  revert noise. induction packet as [|b packet IH]; intros noise;
    cbn [UartSimulator.transmit length]; [reflexivity|].
  rewrite IH. reflexivity.
Qed.

Lemma transmit_in_range (packet : bytes) (noise : list (option Z)) :
  UartSimulator.noise_ok noise ->
  Forall (fun v => 0 <= v < 256) (UartSimulator.transmit packet noise).
Proof.
  revert noise. induction packet as [|b packet IH]; intros noise Hn;
    cbn [UartSimulator.transmit]; constructor.
  - pose proof (unsigned_range256 b) as Hb.
    destruct noise as [|[k|] noise]; cbn [hd]; try exact Hb.
    apply lxor_byte_range; [exact Hb|].
    pose proof (bit_mask_range k) as Hk.
    assert (0 <= k <= 7)
      by (apply (Forall_inv Hn); reflexivity).
    lia.
  - apply IH. destruct noise as [|n noise]; cbn [tl]; [constructor|].
    exact (Forall_inv_tail Hn).
Qed.

Lemma transmit_clean (packet : bytes) :
  UartSimulator.transmit packet [] = map byte.unsigned packet.
Proof.
  induction packet as [|b packet IH]; cbn [UartSimulator.transmit map hd tl];
    [reflexivity|].
  rewrite IH. reflexivity.
Qed.

Lemma bytes_of_ints_in_range (vs : list Z) :
  Forall (fun v => 0 <= v < 256) vs ->
  bytes_of_ints vs = Ok (map byte.of_Z vs).
Proof.
  induction 1 as [|v vs Hv Hvs IH]; cbn [bytes_of_ints map]; [reflexivity|].
  destruct (Z.leb_spec 0 v); [|lia]. destruct (Z.ltb_spec v 256); [|lia].
  cbn [andb]. rewrite IH. reflexivity.
Qed.

Lemma bytes_of_ints_unsigned (data : bytes) :
  bytes_of_ints (map byte.unsigned data) = Ok data.
Proof.
  rewrite bytes_of_ints_in_range.
  - rewrite map_map. f_equal.
    rewrite <- (map_id data) at 2. apply map_ext. apply byte.of_Z_unsigned.
  - apply Forall_map, Forall_forall. intros b _. apply unsigned_range256.
Qed.

(** X15. In every state the simulator can reach from a fresh one, by any
    sequence of [send_packet], [receive] and [try_decode] calls with any
    random outcomes, the transmit buffer holds only byte values and never
    more than [bytes_sent] of them, so [receive] never raises; the counters
    are never negative; and [rx_buffer] and [bytes_received] are never
    touched. *)
Theorem simulator_invariant (self : UartSimulator.t) :
  UartSimulator.reachable self ->
  Forall (fun v => 0 <= v < 256) (UartSimulator.tx_buffer self)
  /\ len (UartSimulator.tx_buffer self) <= UartSimulator.bytes_sent self
  /\ (exists data self',
        UartSimulator.receive self = Ok (data, self')
        /\ map byte.unsigned data = UartSimulator.tx_buffer self
        /\ UartSimulator.tx_buffer self' = [])
  /\ 0 <= UartSimulator.packets_sent self
  /\ 0 <= UartSimulator.packets_dropped self
  /\ 0 <= UartSimulator.crc_errors self
  /\ UartSimulator.rx_buffer self = []
  /\ UartSimulator.bytes_received self = 0.
Proof.
  intros Hreach.
  assert (Hinv :
            Forall (fun v => 0 <= v < 256) (UartSimulator.tx_buffer self)
            /\ len (UartSimulator.tx_buffer self) <= UartSimulator.bytes_sent self
            /\ 0 <= UartSimulator.packets_sent self
            /\ 0 <= UartSimulator.packets_dropped self
            /\ 0 <= UartSimulator.crc_errors self
            /\ UartSimulator.rx_buffer self = []
            /\ UartSimulator.bytes_received self = 0).
  { induction Hreach as
        [ | self self' cmd payload dropped noise sent _ IH Hnoise Hsend
          | self self' data _ IH Hrecv
          | self self' data r _ IH Htry ].
    - cbn. repeat split; try constructor; try lia; discriminate.
    - destruct IH as (Hb & Hl & Hs & Hd & Hc & Hrx & Hbr).
      unfold UartSimulator.send_packet in Hsend.
      destruct (UartPacket.encode cmd payload) as [packet|e]; [|discriminate].
      cbn [bind] in Hsend.
      destruct dropped; injection Hsend as _ <-;
        cbn [UartSimulator.tx_buffer UartSimulator.bytes_sent
             UartSimulator.packets_sent UartSimulator.packets_dropped
             UartSimulator.crc_errors UartSimulator.rx_buffer
             UartSimulator.bytes_received].
      + repeat split; try assumption; lia.
      + repeat split; try assumption; try lia.
        * apply Forall_app. split; [exact Hb|].
          apply transmit_in_range. exact Hnoise.
        * rewrite len_app. unfold len at 2. rewrite transmit_length.
          fold (len packet). lia.
    - destruct IH as (Hb & Hl & Hs & Hd & Hc & Hrx & Hbr).
      unfold UartSimulator.receive in Hrecv.
      destruct (bytes_of_ints (UartSimulator.tx_buffer self)); [|discriminate].
      cbn [bind] in Hrecv. injection Hrecv as _ <-.
      cbn [UartSimulator.tx_buffer UartSimulator.bytes_sent
           UartSimulator.packets_sent UartSimulator.packets_dropped
           UartSimulator.crc_errors UartSimulator.rx_buffer
           UartSimulator.bytes_received].
      pose proof (len_nonneg (UartSimulator.tx_buffer self)).
      repeat split; try assumption; try constructor.
      change (len (@nil Z)) with 0. lia.
    - destruct IH as (Hb & Hl & Hs & Hd & Hc & Hrx & Hbr).
      unfold UartSimulator.try_decode in Htry.
      destruct (UartPacket.decode data) as [res|e].
      + injection Htry as _ <-. repeat split; assumption.
      + destruct (UartSimulator.is_value_error e); [|discriminate].
        destruct (UartSimulator.mentions_crc e); injection Htry as _ <-;
          cbn [UartSimulator.tx_buffer UartSimulator.bytes_sent
               UartSimulator.packets_sent UartSimulator.packets_dropped
               UartSimulator.crc_errors UartSimulator.rx_buffer
               UartSimulator.bytes_received];
          repeat split; try assumption; lia. }
  destruct Hinv as (Hb & Hl & Hs & Hd & Hc & Hrx & Hbr).
  repeat split; try assumption.
  unfold UartSimulator.receive.
  rewrite (bytes_of_ints_in_range _ Hb). cbn [bind].
  eexists. eexists. split; [reflexivity|]. split; [|reflexivity].
  rewrite map_map. rewrite <- (map_id (UartSimulator.tx_buffer self)) at 2.
  apply map_ext_in. intros v Hv.
  apply unsigned_of_Z_small. exact (proj1 (Forall_forall _ _) Hb v Hv).
Qed.

Lemma simulator_invariant_witness :
  len (UartSimulator.tx_buffer
         (UartSimulator.mk [0xAA; 0x55; 0x10; 0x00; 0x10] [] 5 0 1 0 0))
  <= UartSimulator.bytes_sent
       (UartSimulator.mk [0xAA; 0x55; 0x10; 0x00; 0x10] [] 5 0 1 0 0).
Proof.
  refine (proj1 (proj2 (simulator_invariant _ _))).
  apply (UartSimulator.reach_send UartSimulator.init _ 0x10 [] false [] true).
  - apply UartSimulator.reach_init.
  - constructor.
  - vm_compute. reflexivity.
Defined.

(** X16. A clean channel delivers: when the transmit buffer is empty and a
    packet is sent without being dropped and without bit errors, [receive]
    returns exactly the encoded packet and empties the buffer, and
    [try_decode] of it returns the command and the payload; [packets_sent]
    grows by one, [bytes_sent] by [5 + len(payload)], and no CRC error is
    counted. *)
Theorem simulator_clean_channel (self : UartSimulator.t) (cmd : Z)
    (payload : bytes) :
  UartSimulator.tx_buffer self = [] ->
  0 <= cmd <= 255 ->
  len payload <= 255 ->
  exists packet sent received,
    UartPacket.encode cmd payload = Ok packet
    /\ UartSimulator.send_packet self cmd payload false [] = Ok (true, sent)
    /\ UartSimulator.receive sent = Ok (packet, received)
    /\ UartSimulator.try_decode received packet
       = Ok (Some (cmd, payload), received)
    /\ UartSimulator.tx_buffer received = []
    /\ UartSimulator.packets_sent received = UartSimulator.packets_sent self + 1
    /\ UartSimulator.bytes_sent received
       = UartSimulator.bytes_sent self + 5 + len payload
    /\ UartSimulator.crc_errors received = UartSimulator.crc_errors self
    /\ UartSimulator.packets_dropped received
       = UartSimulator.packets_dropped self.
Proof.
  intros Hempty Hc Hl.
  pose proof (len_nonneg payload) as Hn.
  pose proof (encode_bytes cmd payload ltac:(lia) Hl) as Henc.
  eexists. eexists. eexists.
  split; [exact Henc|]. split; [|split; [|split]].
  - unfold UartSimulator.send_packet. rewrite Henc. cbn [bind]. reflexivity.
  - unfold UartSimulator.receive. cbn [UartSimulator.tx_buffer].
    rewrite Hempty. cbn [app]. rewrite transmit_clean, bytes_of_ints_unsigned.
    cbn [bind]. reflexivity.
  - unfold UartSimulator.try_decode.
    rewrite decode_frame by (rewrite unsigned_of_Z_small; lia).
    rewrite !unsigned_of_Z_small; try lia.
    + rewrite Z.eqb_refl. reflexivity.
    + apply xor_bytes_range, lxor_byte_range; lia.
  - cbn [UartSimulator.tx_buffer UartSimulator.packets_sent
         UartSimulator.bytes_sent UartSimulator.crc_errors
         UartSimulator.packets_dropped].
    repeat split; try reflexivity.
    rewrite !len_cons, len_app, len_cons. change (len (@nil byte)) with 0. lia.
Qed.

Lemma simulator_clean_channel_witness :
  exists packet sent received,
    UartPacket.encode 0x01 (map byte.of_Z [10; 20; 255; 0; 0]) = Ok packet
    /\ UartSimulator.send_packet UartSimulator.init 0x01
         (map byte.of_Z [10; 20; 255; 0; 0]) false [] = Ok (true, sent)
    /\ UartSimulator.receive sent = Ok (packet, received)
    /\ UartSimulator.try_decode received packet
       = Ok (Some (0x01, map byte.of_Z [10; 20; 255; 0; 0]), received).
Proof.
  destruct (simulator_clean_channel UartSimulator.init 0x01
              (map byte.of_Z [10; 20; 255; 0; 0]))
    as (packet & sent & received & H1 & H2 & H3 & H4 & _).
  - reflexivity.
  - lia.
  - unfold len. simpl. lia.
  - exists packet, sent, received. repeat split; assumption.
Defined.

(** One byte of a valid frame replaced by a different one: the magic check
    or the checksum check catches it, depending on where the byte sits. *)
Lemma decode_one_byte_changed (cb l crc x x' : byte)
    (payload tail l1 l2 : bytes) :
  len payload = byte.unsigned l ->
  byte.unsigned crc
  = UartPacket.xor_bytes (Z.lxor (byte.unsigned cb) (byte.unsigned l)) payload ->
  xAA :: x55 :: cb :: l :: payload ++ crc :: tail = l1 ++ x :: l2 ->
  byte.unsigned x' <> byte.unsigned x ->
  (len l1 < 2 -> UartPacket.decode (l1 ++ x' :: l2) = Err BadMagic)
  /\ (len l1 = 2 \/ 4 <= len l1 <= 4 + len payload ->
      UartPacket.decode (l1 ++ x' :: l2) = Err ChecksumMismatch).
Proof.
  intros Hp Hc Hb Hne.
  pose proof (len_nonneg payload) as Hn.
  destruct (frame_split_cases _ _ _ _ _ _ _ _ Hb)
    as [(-> & -> & ->) | [(-> & -> & ->) | [(-> & -> & ->) | [(-> & -> & ->)
        | [(p1 & p2 & -> & -> & ->) | [(-> & -> & ->) | (t1 & -> & ->)]]]]]];
    clear Hb.
  - split; intros H; [|off_region H].
    cbn [app]. rewrite decode_framed by (rewrite length_app; simpl; lia).
    unfold xAA in Hne. rewrite unsigned_of_Z_small in Hne by lia.
    destruct (Z.eqb_spec (byte.unsigned x') 0xAA); [contradiction|].
    reflexivity.
  - split; intros H; [|off_region H].
    cbn [app]. rewrite decode_framed by (rewrite length_app; simpl; lia).
    unfold x55 in Hne. rewrite unsigned_of_Z_small in Hne by lia.
    destruct (Z.eqb_spec (byte.unsigned x') 0x55); [contradiction|].
    rewrite andb_false_r. reflexivity.
  - split; intros H; [off_region H|].
    cbn [app]. rewrite decode_frame by exact Hp.
    destruct (Z.eqb_spec (byte.unsigned crc)
                (UartPacket.xor_bytes
                   (Z.lxor (byte.unsigned x') (byte.unsigned l)) payload))
      as [E|]; [|reflexivity].
    exfalso. apply Hne. rewrite Hc, !xor_bytes_xor_of in E.
    apply lxor_cancel_r in E. apply lxor_cancel_r in E.
    symmetry. exact E.
  - split; intros H; off_region H.
  - split; intros H; [off_region H|].
    cbn [app].
    replace (p1 ++ x' :: p2 ++ crc :: tail)
      with ((p1 ++ x' :: p2) ++ crc :: tail)
      by (rewrite <- app_assoc; reflexivity).
    rewrite decode_frame
      by (rewrite <- Hp; unfold len; rewrite !length_app; simpl; lia).
    destruct (Z.eqb_spec (byte.unsigned crc)
                (UartPacket.xor_bytes
                   (Z.lxor (byte.unsigned cb) (byte.unsigned l))
                   (p1 ++ x' :: p2)))
      as [E|]; [|reflexivity].
    exfalso. rewrite Hc in E. symmetry in E.
    exact (xor_bytes_one_byte _ _ _ _ _ Hne E).
  - split; intros H; [off_region H|].
    cbn [app]. rewrite decode_frame by exact Hp. rewrite <- Hc.
    destruct (Z.eqb_spec (byte.unsigned x') (byte.unsigned crc));
      [contradiction|reflexivity].
  - split; intros H; off_region H.
Qed.

Lemma transmit_one_error (l1 : bytes) (x : byte) (l2 : bytes) (k : Z) :
  UartSimulator.transmit (l1 ++ x :: l2) (repeat None (length l1) ++ [Some k])
  = map byte.unsigned l1
      ++ Z.lxor (byte.unsigned x) (Z.shiftl 1 k) :: map byte.unsigned l2.
Proof.
  induction l1 as [|b l1 IH];
    cbn [app length repeat UartSimulator.transmit hd tl map].
  - rewrite transmit_clean. reflexivity.
  - rewrite IH. reflexivity.
Qed.

(** X17. One bit error on the simulated channel: a packet sent from an
    empty buffer with bit [k] of byte [i] flipped is never decoded. When the
    flipped byte is the command, a payload byte or the checksum byte,
    [try_decode] returns [None] and counts a CRC error; when it is one of the
    two magic bytes, [try_decode] returns [None] and counts nothing, so
    [crc_errors] undercounts the corrupted packets. *)
Theorem simulator_one_bit_error (self : UartSimulator.t) (cmd : Z)
    (payload : bytes) (i : nat) (k : Z) :
  UartSimulator.tx_buffer self = [] ->
  0 <= cmd <= 255 ->
  len payload <= 255 ->
  0 <= k <= 7 ->
  (i < 2 \/ i = 2 \/ 4 <= i <= 4 + length payload)%nat ->
  exists sent data received counted,
    UartSimulator.send_packet self cmd payload false
      (repeat None i ++ [Some k]) = Ok (true, sent)
    /\ UartSimulator.receive sent = Ok (data, received)
    /\ UartSimulator.try_decode received data = Ok (None, counted)
    /\ UartSimulator.crc_errors counted
       = UartSimulator.crc_errors self + (if (i <? 2)%nat then 0 else 1).
Proof.
  intros Hempty Hc Hl Hk Hi.
  pose proof (len_nonneg payload) as Hn.
  pose proof (encode_bytes cmd payload ltac:(lia) Hl) as Henc.
  set (crc := byte.of_Z
                (UartPacket.xor_bytes (Z.lxor cmd (len payload)) payload))
    in Henc.
  set (frame := xAA :: x55 :: byte.of_Z cmd :: byte.of_Z (len payload)
                  :: payload ++ [crc]) in Henc.
  assert (Hframe_len : length frame = (5 + length payload)%nat).
  { unfold frame. cbn [length]. rewrite length_app. cbn [length]. lia. }
  destruct (nth_error frame i) as [x|] eqn:Ex.
  2:{ apply nth_error_None in Ex. lia. }
  destruct (nth_error_split _ _ Ex) as (l1 & l2 & Hsplit & Hl1).
  pose proof (bit_mask_range k Hk) as Hm.
  pose proof (unsigned_range256 x) as Hx.
  assert (Hr : 0 <= Z.lxor (byte.unsigned x) (Z.shiftl 1 k) < 256)
    by (apply lxor_byte_range; lia).
  set (x' := byte.of_Z (Z.lxor (byte.unsigned x) (Z.shiftl 1 k))).
  assert (Hx' : byte.unsigned x' <> byte.unsigned x).
  { unfold x'. rewrite unsigned_of_Z_small by exact Hr.
    apply lxor_mask_changes. lia. }
  assert (Hdata :
            bytes_of_ints
              (UartSimulator.transmit frame (repeat None i ++ [Some k]))
            = Ok (l1 ++ x' :: l2)).
  { rewrite Hsplit, <- Hl1, transmit_one_error.
    rewrite bytes_of_ints_in_range.
    - rewrite map_app. cbn [map]. rewrite !map_map.
      rewrite !(map_ext _ (fun b => b) byte.of_Z_unsigned), !map_id.
      reflexivity.
    - apply Forall_app. split; [|constructor; [exact Hr|]];
        apply Forall_map, Forall_forall; intros b _; apply unsigned_range256. }
  assert (Hvalid_len : len payload = byte.unsigned (byte.of_Z (len payload)))
    by (rewrite unsigned_of_Z_small; lia).
  assert (Hvalid_crc :
            byte.unsigned crc
            = UartPacket.xor_bytes
                (Z.lxor (byte.unsigned (byte.of_Z cmd))
                   (byte.unsigned (byte.of_Z (len payload)))) payload).
  { unfold crc. rewrite !unsigned_of_Z_small; try lia.
    apply xor_bytes_range, lxor_byte_range; lia. }
  destruct (decode_one_byte_changed _ _ _ _ x' _ [] _ _
              Hvalid_len Hvalid_crc Hsplit Hx') as [Hmagic Hcrc].
  assert (Hlen1 : len l1 = Z.of_nat i) by (unfold len; lia).
  assert (Hrecv : forall s,
            UartSimulator.tx_buffer s
            = UartSimulator.transmit frame (repeat None i ++ [Some k]) ->
            exists received,
              UartSimulator.receive s = Ok (l1 ++ x' :: l2, received)
              /\ UartSimulator.crc_errors received
                 = UartSimulator.crc_errors s).
  { intros s Hs. unfold UartSimulator.receive. rewrite Hs, Hdata. cbn [bind].
    eexists. split; reflexivity. }
  unfold UartSimulator.send_packet. rewrite Henc. cbn [bind].
  rewrite Hempty, app_nil_l.
  match goal with
  | |- exists sent _ _ _, Ok (true, ?s) = Ok (true, sent) /\ _ =>
      destruct (Hrecv s eq_refl) as (received & Hr1 & Hr2); exists s
  end.
  exists (l1 ++ x' :: l2), received.
  cbn [UartSimulator.crc_errors] in Hr2.
  unfold UartSimulator.try_decode.
  destruct (Nat.ltb_spec i 2) as [Hlt|Hge].
  - rewrite Hmagic by lia. cbn [UartSimulator.is_value_error
                                 UartSimulator.mentions_crc].
    eexists. split; [reflexivity|]. split; [exact Hr1|].
    split; [reflexivity|]. lia.
  - rewrite Hcrc by (unfold len; lia).
    cbn [UartSimulator.is_value_error UartSimulator.mentions_crc].
    eexists. split; [reflexivity|]. split; [exact Hr1|].
    split; [reflexivity|]. cbn [UartSimulator.crc_errors]. lia.
Qed.

Lemma simulator_one_bit_error_witness :
  exists sent data received counted,
    UartSimulator.send_packet UartSimulator.init 0x01
      (map byte.of_Z [10; 20; 255; 0; 0]) false
      (repeat None 5 ++ [Some 0]) = Ok (true, sent)
    /\ UartSimulator.receive sent = Ok (data, received)
    /\ UartSimulator.try_decode received data = Ok (None, counted)
    /\ UartSimulator.crc_errors counted
       = UartSimulator.crc_errors UartSimulator.init
         + (if (5 <? 2)%nat then 0 else 1).
Proof.
  apply (simulator_one_bit_error UartSimulator.init 0x01
           (map byte.of_Z [10; 20; 255; 0; 0]) 5 0).
  - reflexivity.
  - lia.
  - unfold len. simpl. lia.
  - lia.
  - simpl. lia.
Defined.

(** X18. Packets sent back to back come out of [receive] as one buffer, in
    the order sent, and [try_decode] of that buffer returns the first
    packet only: what follows it is not looked at. *)
Theorem simulator_back_to_back (self : UartSimulator.t) (cmd1 cmd2 : Z)
    (payload1 payload2 : bytes) :
  UartSimulator.tx_buffer self = [] ->
  0 <= cmd1 <= 255 -> len payload1 <= 255 ->
  0 <= cmd2 <= 255 -> len payload2 <= 255 ->
  exists packet1 packet2 sent1 sent2 received,
    UartPacket.encode cmd1 payload1 = Ok packet1
    /\ UartPacket.encode cmd2 payload2 = Ok packet2
    /\ UartSimulator.send_packet self cmd1 payload1 false [] = Ok (true, sent1)
    /\ UartSimulator.send_packet sent1 cmd2 payload2 false [] = Ok (true, sent2)
    /\ UartSimulator.receive sent2 = Ok (packet1 ++ packet2, received)
    /\ UartSimulator.try_decode received (packet1 ++ packet2)
       = Ok (Some (cmd1, payload1), received).
Proof.
  intros Hempty Hc1 Hl1 Hc2 Hl2.
  pose proof (len_nonneg payload1) as Hn1.
  pose proof (len_nonneg payload2) as Hn2.
  pose proof (encode_bytes cmd1 payload1 ltac:(lia) Hl1) as Henc1.
  pose proof (encode_bytes cmd2 payload2 ltac:(lia) Hl2) as Henc2.
  do 5 eexists.
  split; [exact Henc1|]. split; [exact Henc2|].
  split; [|split; [|split]].
  - unfold UartSimulator.send_packet. rewrite Henc1. reflexivity.
  - unfold UartSimulator.send_packet. rewrite Henc2. reflexivity.
  - unfold UartSimulator.receive. cbn [UartSimulator.tx_buffer].
    rewrite Hempty. cbn [app].
    rewrite !transmit_clean, <- map_app, bytes_of_ints_unsigned.
    reflexivity.
  - unfold UartSimulator.try_decode. cbn [app]. rewrite <- app_assoc.
    cbn [app].
    rewrite decode_frame by (rewrite unsigned_of_Z_small; lia).
    rewrite !unsigned_of_Z_small; try lia.
    + rewrite Z.eqb_refl. reflexivity.
    + apply xor_bytes_range, lxor_byte_range; lia.
Qed.

Lemma simulator_back_to_back_witness :
  exists packet1 packet2 sent1 sent2 received,
    UartPacket.encode 0x10 [] = Ok packet1
    /\ UartPacket.encode 0x11 [] = Ok packet2
    /\ UartSimulator.send_packet UartSimulator.init 0x10 [] false []
       = Ok (true, sent1)
    /\ UartSimulator.send_packet sent1 0x11 [] false [] = Ok (true, sent2)
    /\ UartSimulator.receive sent2 = Ok (packet1 ++ packet2, received)
    /\ UartSimulator.try_decode received (packet1 ++ packet2)
       = Ok (Some (0x10, []), received).
Proof.
  apply (simulator_back_to_back UartSimulator.init 0x10 0x11 [] []).
  - reflexivity.
  - lia.
  - unfold len. simpl. lia.
  - lia.
  - unfold len. simpl. lia.
Defined.

(** ** Lists indexed the Python way *)

Lemma list_index_in (n : nat) (i : Z) :
  0 <= i < Z.of_nat n -> list_index n i = Some (Z.to_nat i).
Proof.
  intros Hi. unfold list_index.
  destruct (Z.ltb_spec i 0); [lia|].
  destruct (Z.leb_spec 0 i); [|lia].
  destruct (Z.ltb_spec i (Z.of_nat n)); [|lia]. reflexivity.
Qed.

Lemma list_get_in {A : Type} (l : list A) (i : Z) (d : A) :
  0 <= i < len l -> list_get l i = Ok (nth (Z.to_nat i) l d).
Proof.
  intros Hi. unfold list_get, len in *. rewrite list_index_in by exact Hi.
  destruct (nth_error l (Z.to_nat i)) eqn:E.
  - f_equal. symmetry. apply nth_error_nth. exact E.
  - apply nth_error_None in E. lia.
Qed.

Lemma list_set_in {A : Type} (l : list A) (i : Z) (v : A) :
  0 <= i < len l ->
  list_set l i v
  = Ok (firstn (Z.to_nat i) l ++ v :: skipn (S (Z.to_nat i)) l).
Proof.
  intros Hi. unfold list_set, len in *. rewrite list_index_in by exact Hi.
  reflexivity.
Qed.

Lemma length_update {A : Type} (l : list A) (k : nat) (v : A) :
  (k < length l)%nat ->
  length (firstn k l ++ v :: skipn (S k) l) = length l.
Proof.
  intros Hk. rewrite length_app, length_firstn. cbn [length].
  rewrite length_skipn. lia.
Qed.

Lemma nth_update {A : Type} (l : list A) (k j : nat) (v d : A) :
  (k < length l)%nat ->
  nth j (firstn k l ++ v :: skipn (S k) l) d
  = if Nat.eqb j k then v else nth j l d.
Proof.
  intros Hk.
  assert (Hf : length (firstn k l) = k) by (rewrite length_firstn; lia).
  destruct (Nat.eqb_spec j k) as [->|Hne].
  - rewrite app_nth2 by lia. rewrite Hf, Nat.sub_diag. reflexivity.
  - destruct (Nat.lt_ge_cases j k) as [Hlt|Hge].
    + rewrite app_nth1 by lia.
      rewrite <- (firstn_skipn k l) at 2.
      rewrite app_nth1 by lia. reflexivity.
    + rewrite app_nth2 by lia. rewrite Hf.
      destruct (j - k)%nat as [|m] eqn:E; [lia|]. cbn [nth].
      rewrite nth_skipn. f_equal. lia.
Qed.

Lemma Forall_firstn' {A : Type} (P : A -> Prop) (k : nat) (l : list A) :
  Forall P l -> Forall P (firstn k l).
Proof.
  intros Hl. revert k. induction Hl; intros [|k]; cbn; auto.
Qed.

Lemma Forall_skipn' {A : Type} (P : A -> Prop) (k : nat) (l : list A) :
  Forall P l -> Forall P (skipn k l).
Proof.
  intros Hl. revert k. induction Hl; intros [|k]; cbn; auto.
Qed.

Lemma grid_row (W H : nat) (pixels : list (list Z)) (k : nat) :
  grid W H pixels -> (k < H)%nat -> length (nth k pixels []) = W.
Proof.
  intros (Hl & Hr) Hk. rewrite Forall_forall in Hr.
  apply Hr. apply nth_In. lia.
Qed.

Lemma store_spec (W H : nat) (pixels : list (list Z)) (x y color : Z) :
  grid W H pixels -> 0 <= x < Z.of_nat W -> 0 <= y < Z.of_nat H ->
  exists pixels',
    FrameBuffer.store pixels x y color = Ok pixels'
    /\ grid W H pixels'
    /\ forall x' y', 0 <= x' -> 0 <= y' ->
         pixel_at pixels' x' y'
         = if (x' =? x) && (y' =? y) then color else pixel_at pixels x' y'.
Proof.
  intros Hg Hx Hy.
  pose proof Hg as (Hl & Hr).
  pose proof (grid_row W H pixels (Z.to_nat y) Hg ltac:(lia)) as Hrow.
  unfold FrameBuffer.store.
  rewrite (list_get_in pixels y []) by (unfold len; lia).
  cbn [bind].
  rewrite list_set_in by (unfold len; lia). cbn [bind].
  rewrite list_set_in by (unfold len; lia).
  eexists. split; [reflexivity|]. split.
  - split.
    + rewrite length_update by lia. exact Hl.
    + apply Forall_app. split; [apply Forall_firstn'; exact Hr|].
      constructor; [|apply Forall_skipn'; exact Hr].
      rewrite length_update by lia. exact Hrow.
  - intros x' y' Hx' Hy'. unfold pixel_at.
    rewrite nth_update by lia.
    destruct (Nat.eqb_spec (Z.to_nat y') (Z.to_nat y)) as [Ey|Ey].
    + rewrite nth_update by lia.
      assert (y' = y) as -> by lia. rewrite Z.eqb_refl, andb_true_r.
      destruct (Nat.eqb_spec (Z.to_nat x') (Z.to_nat x)) as [Ex|Ex].
      * assert (x' = x) as -> by lia. rewrite Z.eqb_refl. reflexivity.
      * destruct (Z.eqb_spec x' x); [subst; lia|]. reflexivity.
    + destruct (Z.eqb_spec y' y); [subst; lia|].
      rewrite andb_false_r. reflexivity.
Qed.

Lemma inside_cons (v x : Z) (xs : list Z) :
  inside v (x :: xs) = (v =? x) || inside v xs.
Proof. reflexivity. Qed.

Lemma row_loop (W H : nat) (xs : list Z) (y color : Z) :
  (forall x, In x xs -> 0 <= x < Z.of_nat W) -> 0 <= y < Z.of_nat H ->
  forall pixels, grid W H pixels ->
  exists pixels',
    for_each xs (fun pixels x => FrameBuffer.store pixels x y color) pixels
    = Ok pixels'
    /\ grid W H pixels'
    /\ forall x' y', 0 <= x' -> 0 <= y' ->
         pixel_at pixels' x' y'
         = if inside x' xs && (y' =? y) then color else pixel_at pixels x' y'.
Proof.
  intros Hxs Hy. induction xs as [|x xs IH]; intros pixels Hg.
  - exists pixels. repeat split; try apply Hg. 
  - destruct (store_spec W H pixels x y color Hg) as (p1 & E1 & G1 & P1);
      [apply Hxs; left; reflexivity|exact Hy|].
    destruct (IH (fun v Hv => Hxs v (or_intror Hv)) p1 G1) as (p2 & E2 & G2 & P2).
    exists p2. cbn [for_each]. rewrite E1. cbn [bind]. rewrite E2.
    repeat split; try apply G2.
    intros x' y' Hx' Hy'. rewrite P2, P1 by assumption.
    rewrite inside_cons.
    destruct (inside x' xs), (x' =? x), (y' =? y); reflexivity.
Qed.

Lemma rect_loop (W H : nat) (xs ys : list Z) (color : Z) :
  (forall x, In x xs -> 0 <= x < Z.of_nat W) ->
  (forall y, In y ys -> 0 <= y < Z.of_nat H) ->
  forall pixels, grid W H pixels ->
  exists pixels',
    for_each ys
      (fun pixels y =>
         for_each xs (fun pixels x => FrameBuffer.store pixels x y color) pixels)
      pixels
    = Ok pixels'
    /\ grid W H pixels'
    /\ forall x' y', 0 <= x' -> 0 <= y' ->
         pixel_at pixels' x' y'
         = if inside x' xs && inside y' ys then color else pixel_at pixels x' y'.
Proof.
  intros Hxs Hys. induction ys as [|y ys IH]; intros pixels Hg.
  - exists pixels. repeat split; try apply Hg.
    intros. rewrite andb_false_r. reflexivity.
  - destruct (row_loop W H xs y color Hxs (Hys y (or_introl eq_refl)) pixels Hg)
      as (p1 & E1 & G1 & P1).
    destruct (IH (fun v Hv => Hys v (or_intror Hv)) p1 G1) as (p2 & E2 & G2 & P2).
    exists p2. cbn [for_each]. rewrite E1. cbn [bind]. rewrite E2.
    repeat split; try apply G2.
    intros x' y' Hx' Hy'. rewrite P2, P1 by assumption.
    rewrite inside_cons.
    destruct (inside x' xs), (inside y' ys), (y' =? y); reflexivity.
Qed.

Lemma in_range2 (a b v : Z) : In v (range2 a b) <-> a <= v < b.
Proof.
  unfold range2. rewrite in_map_iff. split.
  - intros (k & <- & Hk). apply in_seq in Hk. lia.
  - intros Hv. exists (Z.to_nat (v - a)). split; [lia|]. apply in_seq. lia.
Qed.

Lemma inside_spec (v : Z) (xs : list Z) : inside v xs = true <-> In v xs.
Proof.
  unfold inside. rewrite existsb_exists. split.
  - intros (x & Hx & E). apply Z.eqb_eq in E. subst. exact Hx.
  - intros Hv. exists v. split; [exact Hv|apply Z.eqb_refl].
Qed.

Lemma inside_range2 (a b v : Z) :
  inside v (range2 a b) = (a <=? v) && (v <? b).
Proof.
  apply eq_true_iff_eq. rewrite inside_spec, in_range2, andb_true_iff.
  rewrite Z.leb_le, Z.ltb_lt. reflexivity.
Qed.

Lemma range2_0 (n : Z) : range2 0 n = range n.
Proof.
  unfold range2, range. rewrite Z.sub_0_r. apply map_ext. intros; lia.
Qed.

(** ** The frame buffer *)

Lemma init_shaped (width height : Z) :
  FrameBuffer.shaped (FrameBuffer.init width height).
Proof.
  unfold FrameBuffer.shaped, FrameBuffer.init. cbn.
  split.
  - rewrite length_map. apply range_length.
  - apply Forall_forall. intros row Hrow. apply in_map_iff in Hrow.
    destruct Hrow as (k & <- & _). apply repeat_length.
Qed.

Lemma in_bounds_spec (self : FrameBuffer.t) (x y : Z) :
  FrameBuffer.in_bounds self x y = true
  <-> 0 <= x < FrameBuffer.width self /\ 0 <= y < FrameBuffer.height self.
Proof.
  unfold FrameBuffer.in_bounds.
  rewrite !andb_true_iff, !Z.leb_le, !Z.ltb_lt. tauto.
Qed.

Lemma load_spec (W H : nat) (pixels : list (list Z)) (x y : Z) :
  grid W H pixels -> 0 <= x < Z.of_nat W -> 0 <= y < Z.of_nat H ->
  FrameBuffer.load pixels x y = Ok (pixel_at pixels x y).
Proof.
  intros Hg Hx Hy. pose proof Hg as (Hl & _).
  pose proof (grid_row W H pixels (Z.to_nat y) Hg ltac:(lia)) as Hrow.
  unfold FrameBuffer.load.
  rewrite (list_get_in pixels y []) by (unfold len; lia). cbn [bind].
  rewrite (list_get_in _ x 0) by (unfold len; lia). reflexivity.
Qed.

Lemma get_pixel_spec (self : FrameBuffer.t) (x y : Z) :
  FrameBuffer.shaped self ->
  FrameBuffer.get_pixel self x y
  = Ok (if FrameBuffer.in_bounds self x y
        then pixel_at (FrameBuffer.pixels self) x y else 0).
Proof.
  intros Hs. unfold FrameBuffer.get_pixel.
  destruct (FrameBuffer.in_bounds self x y) eqn:E; [|reflexivity].
  apply in_bounds_spec in E.
  apply (load_spec _ _ _ _ _ Hs); lia.
Qed.

Lemma set_pixel_spec (self : FrameBuffer.t) (x y color : Z) :
  FrameBuffer.shaped self ->
  exists self',
    FrameBuffer.set_pixel self x y color = Ok self'
    /\ FrameBuffer.shaped self'
    /\ FrameBuffer.width self' = FrameBuffer.width self
    /\ FrameBuffer.height self' = FrameBuffer.height self
    /\ (FrameBuffer.in_bounds self x y = false -> self' = self)
    /\ forall x' y', 0 <= x' -> 0 <= y' ->
         pixel_at (FrameBuffer.pixels self') x' y'
         = if FrameBuffer.in_bounds self x y && ((x' =? x) && (y' =? y))
           then color else pixel_at (FrameBuffer.pixels self) x' y'.
Proof.
  intros Hs. unfold FrameBuffer.set_pixel.
  destruct (FrameBuffer.in_bounds self x y) eqn:E.
  - apply in_bounds_spec in E.
    destruct (store_spec _ _ (FrameBuffer.pixels self) x y color Hs)
      as (p & Ep & Gp & Pp); [lia|lia|].
    rewrite Ep. cbn [bind]. eexists. split; [reflexivity|].
    repeat split; try apply Gp; try discriminate.
    intros x' y' Hx' Hy'. cbn. apply Pp; assumption.
  - exists self. repeat split; try apply Hs. 
Qed.

Lemma fill_rect_spec (self : FrameBuffer.t) (x y w h color : Z) :
  FrameBuffer.shaped self ->
  exists self',
    FrameBuffer.fill_rect self x y w h color = Ok self'
    /\ FrameBuffer.shaped self'
    /\ FrameBuffer.width self' = FrameBuffer.width self
    /\ FrameBuffer.height self' = FrameBuffer.height self
    /\ forall px py, 0 <= px -> 0 <= py ->
         pixel_at (FrameBuffer.pixels self') px py
         = if ((x <=? px) && (px <? Z.min (FrameBuffer.width self) (x + w)))
              && ((y <=? py) && (py <? Z.min (FrameBuffer.height self) (y + h)))
           then color else pixel_at (FrameBuffer.pixels self) px py.
Proof.
  intros Hs. unfold FrameBuffer.fill_rect.
  destruct (rect_loop (Z.to_nat (FrameBuffer.width self))
              (Z.to_nat (FrameBuffer.height self))
              (range2 (Z.max 0 x) (Z.min (FrameBuffer.width self) (x + w)))
              (range2 (Z.max 0 y) (Z.min (FrameBuffer.height self) (y + h)))
              color) with (pixels := FrameBuffer.pixels self)
    as (p & Ep & Gp & Pp).
  - intros v Hv. apply in_range2 in Hv. lia.
  - intros v Hv. apply in_range2 in Hv. lia.
  - exact Hs.
  - rewrite Ep. cbn [bind]. eexists. split; [reflexivity|].
    repeat split; try apply Gp.
    intros px py Hpx Hpy.
    cbn [FrameBuffer.pixels FrameBuffer.width FrameBuffer.height].
    rewrite Pp by assumption.
    rewrite !inside_range2.
    replace (Z.max 0 x <=? px) with (x <=? px)
      by (destruct (Z.leb_spec x px), (Z.leb_spec (Z.max 0 x) px); lia).
    replace (Z.max 0 y <=? py) with (y <=? py)
      by (destruct (Z.leb_spec y py), (Z.leb_spec (Z.max 0 y) py); lia).
    reflexivity.
Qed.

Lemma clear_is_fill_rect (self : FrameBuffer.t) (color : Z) :
  FrameBuffer.clear self color
  = FrameBuffer.fill_rect self 0 0 (FrameBuffer.width self)
      (FrameBuffer.height self) color.
Proof.
  unfold FrameBuffer.clear, FrameBuffer.fill_rect.
  rewrite !Z.max_id, !Z.add_0_l, !Z.min_id, !range2_0. reflexivity.
Qed.

Lemma grid_ext (W H : nat) (p q : list (list Z)) :
  grid W H p -> grid W H q ->
  (forall x y, 0 <= x < Z.of_nat W -> 0 <= y < Z.of_nat H ->
     pixel_at p x y = pixel_at q x y) ->
  p = q.
Proof.
  intros Hp Hq Heq.
  apply (nth_ext _ _ [] []).
  - destruct Hp as (-> & _), Hq as (-> & _). reflexivity.
  - intros j Hj. destruct Hp as (Lp & Fp). rewrite Lp in Hj.
    apply (nth_ext _ _ 0 0).
    + rewrite (grid_row W H p j) by (try split; assumption).
      rewrite (grid_row W H q j) by assumption. reflexivity.
    + intros i Hi.
      rewrite (grid_row W H p j) in Hi by (try split; assumption).
      specialize (Heq (Z.of_nat i) (Z.of_nat j) ltac:(lia) ltac:(lia)).
      unfold pixel_at in Heq. rewrite !Nat2Z.id in Heq. exact Heq.
Qed.

Lemma grid_uniform (W H : nat) (c : Z) : grid W H (repeat (repeat c W) H).
Proof.
  split; [apply repeat_length|].
  apply Forall_forall. intros row Hrow. apply repeat_spec in Hrow. subst.
  apply repeat_length.
Qed.

Lemma pixel_at_uniform (W H : nat) (c x y : Z) :
  0 <= x < Z.of_nat W -> 0 <= y < Z.of_nat H ->
  pixel_at (repeat (repeat c W) H) x y = c.
Proof.
  intros Hx Hy. unfold pixel_at.
  rewrite nth_repeat_lt by lia.
  apply nth_repeat_lt. lia.
Qed.

Lemma init_uniform (width height : Z) :
  FrameBuffer.init width height
  = FrameBuffer.mk width height
      (repeat (repeat 0 (Z.to_nat width)) (Z.to_nat height)).
Proof.
  unfold FrameBuffer.init. f_equal. unfold range. rewrite map_map.
  generalize (Z.to_nat height) as n. intros n.
  generalize 0%nat as s. induction n as [|n IH]; intros s; cbn; [reflexivity|].
  f_equal. apply IH.
Qed.

Lemma clear_spec (self : FrameBuffer.t) (color : Z) :
  FrameBuffer.shaped self ->
  FrameBuffer.clear self color
  = Ok (FrameBuffer.mk (FrameBuffer.width self) (FrameBuffer.height self)
          (repeat (repeat color (Z.to_nat (FrameBuffer.width self)))
                  (Z.to_nat (FrameBuffer.height self)))).
Proof.
  intros Hs. rewrite clear_is_fill_rect.
  destruct (fill_rect_spec self 0 0 (FrameBuffer.width self)
              (FrameBuffer.height self) color Hs)
    as (self' & E & S' & Hw & Hh & P).
  rewrite E. f_equal. destruct self' as [w' h' p'].
  cbn [FrameBuffer.pixels FrameBuffer.width FrameBuffer.height] in *.
  subst w' h'.
  f_equal. apply (grid_ext _ _ _ _ S' (grid_uniform _ _ _)).
  intros x y Hx Hy.
  cbn [FrameBuffer.width FrameBuffer.height] in Hx, Hy.
  rewrite P by lia.
  rewrite pixel_at_uniform by assumption.
  destruct (Z.leb_spec 0 x); [|lia]. destruct (Z.leb_spec 0 y); [|lia].
  destruct (Z.ltb_spec x (Z.min (FrameBuffer.width self)
                            (0 + FrameBuffer.width self))); [|lia].
  destruct (Z.ltb_spec y (Z.min (FrameBuffer.height self)
                            (0 + FrameBuffer.height self))); [|lia].
  reflexivity.
Qed.

(** X20. On a frame buffer whose rows have the shape [__init__] gives
    them, [set_pixel] never raises and keeps the shape and the size; out of
    bounds it changes nothing.  Afterwards [get_pixel] returns the new
    colour at the written position when that is in bounds, and what it
    returned before everywhere else; out of bounds [get_pixel] returns 0. *)
Theorem set_pixel_then_get_pixel (self : FrameBuffer.t)
    (x y color x' y' : Z) :
  FrameBuffer.shaped self ->
  exists self' old,
    FrameBuffer.set_pixel self x y color = Ok self'
    /\ FrameBuffer.shaped self'
    /\ FrameBuffer.width self' = FrameBuffer.width self
    /\ FrameBuffer.height self' = FrameBuffer.height self
    /\ (FrameBuffer.in_bounds self x y = false -> self' = self)
    /\ FrameBuffer.get_pixel self x' y' = Ok old
    /\ (FrameBuffer.in_bounds self x' y' = false -> old = 0)
    /\ FrameBuffer.get_pixel self' x' y'
       = Ok (if FrameBuffer.in_bounds self x y && ((x' =? x) && (y' =? y))
             then color else old).
Proof.
  intros Hs.
  destruct (set_pixel_spec self x y color Hs)
    as (self' & E & S' & Hw & Hh & Hout & P).
  exists self'. eexists. split; [exact E|].
  split; [exact S'|]. split; [exact Hw|]. split; [exact Hh|].
  split; [exact Hout|].
  split; [apply get_pixel_spec; exact Hs|].
  split.
  - intros Hb. rewrite Hb. reflexivity.
  - rewrite get_pixel_spec by exact S'.
    assert (Hb : FrameBuffer.in_bounds self' x' y'
                 = FrameBuffer.in_bounds self x' y')
      by (unfold FrameBuffer.in_bounds; rewrite Hw, Hh; reflexivity).
    rewrite Hb.
    destruct (FrameBuffer.in_bounds self x' y') eqn:E'.
    + apply in_bounds_spec in E'. rewrite P by lia. reflexivity.
    + destruct (FrameBuffer.in_bounds self x y) eqn:Exy; [|reflexivity].
      destruct (Z.eqb_spec x' x); [|reflexivity].
      destruct (Z.eqb_spec y' y); [|reflexivity].
      subst. congruence.
Qed.

Lemma set_pixel_then_get_pixel_witness :
  let self := FrameBuffer.init 3 2 in
  exists self' old,
    FrameBuffer.set_pixel self 2 1 7 = Ok self'
    /\ FrameBuffer.shaped self'
    /\ FrameBuffer.width self' = FrameBuffer.width self
    /\ FrameBuffer.height self' = FrameBuffer.height self
    /\ (FrameBuffer.in_bounds self 2 1 = false -> self' = self)
    /\ FrameBuffer.get_pixel self 2 1 = Ok old
    /\ (FrameBuffer.in_bounds self 2 1 = false -> old = 0)
    /\ FrameBuffer.get_pixel self' 2 1
       = Ok (if FrameBuffer.in_bounds self 2 1 && ((2 =? 2) && (1 =? 1))
             then 7 else old).
Proof.
  apply (set_pixel_then_get_pixel (FrameBuffer.init 3 2) 2 1 7 2 1).
  split; [reflexivity | repeat constructor].
Defined.

(** X21. On a shaped frame buffer [fill_rect] never raises, whatever the
    rectangle (negative origin or size, or reaching past the edges): it
    keeps the shape and the size, and afterwards [get_pixel] returns the
    fill colour exactly at the in-bounds positions of the rectangle
    [x <= px < x + w], [y <= py < y + h] and the former value at every
    other position. *)
Theorem fill_rect_clips_to_buffer (self : FrameBuffer.t)
    (x y w h color px py : Z) :
  FrameBuffer.shaped self ->
  exists self' old,
    FrameBuffer.fill_rect self x y w h color = Ok self'
    /\ FrameBuffer.shaped self'
    /\ FrameBuffer.width self' = FrameBuffer.width self
    /\ FrameBuffer.height self' = FrameBuffer.height self
    /\ FrameBuffer.get_pixel self px py = Ok old
    /\ FrameBuffer.get_pixel self' px py
       = Ok (if FrameBuffer.in_bounds self px py
                && (((x <=? px) && (px <? x + w))
                    && ((y <=? py) && (py <? y + h)))
             then color else old).
Proof.
  intros Hs.
  destruct (fill_rect_spec self x y w h color Hs)
    as (self' & E & S' & Hw & Hh & P).
  exists self'. eexists. split; [exact E|].
  split; [exact S'|]. split; [exact Hw|]. split; [exact Hh|].
  split; [apply get_pixel_spec; exact Hs|].
  rewrite get_pixel_spec by exact S'.
  assert (Hb : FrameBuffer.in_bounds self' px py
               = FrameBuffer.in_bounds self px py)
    by (unfold FrameBuffer.in_bounds; rewrite Hw, Hh; reflexivity).
  rewrite Hb.
  destruct (FrameBuffer.in_bounds self px py) eqn:E'; [|reflexivity].
  apply in_bounds_spec in E'. rewrite P by lia. cbn [andb].
  replace (px <? Z.min (FrameBuffer.width self) (x + w)) with (px <? x + w)
    by (destruct (Z.ltb_spec px (x + w)),
          (Z.ltb_spec px (Z.min (FrameBuffer.width self) (x + w))); lia).
  replace (py <? Z.min (FrameBuffer.height self) (y + h)) with (py <? y + h)
    by (destruct (Z.ltb_spec py (y + h)),
          (Z.ltb_spec py (Z.min (FrameBuffer.height self) (y + h))); lia).
  reflexivity.
Qed.

Lemma fill_rect_clips_to_buffer_witness :
  let self := FrameBuffer.init 3 2 in
  exists self' old,
    FrameBuffer.fill_rect self (-1) 1 3 5 9 = Ok self'
    /\ FrameBuffer.shaped self'
    /\ FrameBuffer.width self' = FrameBuffer.width self
    /\ FrameBuffer.height self' = FrameBuffer.height self
    /\ FrameBuffer.get_pixel self 1 1 = Ok old
    /\ FrameBuffer.get_pixel self' 1 1
       = Ok (if FrameBuffer.in_bounds self 1 1
                && (((-1 <=? 1) && (1 <? -1 + 3))
                    && ((1 <=? 1) && (1 <? 1 + 5)))
             then 9 else old).
Proof.
  apply (fill_rect_clips_to_buffer (FrameBuffer.init 3 2) (-1) 1 3 5 9 1 1).
  split; [reflexivity | repeat constructor].
Defined.

(** X22. On a shaped frame buffer [clear] never raises and leaves every
    row filled with the colour; it does what [fill_rect] does for the
    rectangle covering the whole buffer, and clearing to 0 gives back the
    buffer [__init__] builds. *)
Theorem clear_fills_every_pixel (self : FrameBuffer.t) (color : Z) :
  FrameBuffer.shaped self ->
  FrameBuffer.clear self color
  = Ok (FrameBuffer.mk (FrameBuffer.width self) (FrameBuffer.height self)
          (repeat (repeat color (Z.to_nat (FrameBuffer.width self)))
                  (Z.to_nat (FrameBuffer.height self))))
  /\ FrameBuffer.clear self color
     = FrameBuffer.fill_rect self 0 0 (FrameBuffer.width self)
         (FrameBuffer.height self) color
  /\ FrameBuffer.clear self 0
     = Ok (FrameBuffer.init (FrameBuffer.width self)
             (FrameBuffer.height self)).
Proof.
  intros Hs. split; [apply clear_spec; exact Hs|].
  split; [apply clear_is_fill_rect|].
  rewrite init_uniform. apply clear_spec. exact Hs.
Qed.

Lemma clear_fills_every_pixel_witness :
  FrameBuffer.clear (FrameBuffer.mk 2 2 [[1; 2]; [3; 4]]) 5
  = Ok (FrameBuffer.mk 2 2 [[5; 5]; [5; 5]]).
Proof.
  refine (proj1 (clear_fills_every_pixel
                   (FrameBuffer.mk 2 2 [[1; 2]; [3; 4]]) 5 _)).
  split; [reflexivity | repeat constructor].
Defined.

(** ** The GPU simulator *)

Lemma slice_length {A : Type} (l : list A) (a b : Z) :
  0 <= a <= b -> b <= len l -> length (slice l a b) = Z.to_nat (b - a).
Proof.
  intros Hab Hb. unfold slice, len in *.
  rewrite length_skipn, length_firstn. lia.
Qed.

Lemma unpack1_ok (c : struct.code) (data : bytes) :
  length data = struct.size c ->
  GpuSimulator.unpack1 c data = Ok (le_combine data).
Proof.
  intros Hl. unfold GpuSimulator.unpack1, struct.unpack.
  cbn [struct.calcsize fold_right]. rewrite Nat.add_0_r, Hl, Nat.eqb_refl.
  cbn [bind struct.unpack_fields]. rewrite <- Hl, firstn_all. reflexivity.
Qed.

Lemma unpack2_ok (c1 c2 : struct.code) (data : bytes) :
  length data = (struct.size c1 + struct.size c2)%nat ->
  GpuSimulator.unpack2 c1 c2 data
  = Ok (le_combine (firstn (struct.size c1) data),
        le_combine (skipn (struct.size c1) data)).
Proof.
  intros Hl. unfold GpuSimulator.unpack2, struct.unpack.
  cbn [struct.calcsize fold_right]. rewrite Nat.add_0_r, Hl, Nat.eqb_refl.
  cbn [bind struct.unpack_fields].
  rewrite (firstn_all2 (n := struct.size c2))
    by (rewrite length_skipn; lia).
  reflexivity.
Qed.

Lemma unpack4_ok (data : bytes) :
  length data = 8%nat ->
  GpuSimulator.unpack4 struct.H struct.H struct.H struct.H data
  = Ok (le_combine (firstn 2 data),
        le_combine (firstn 2 (skipn 2 data)),
        le_combine (firstn 2 (skipn 4 data)),
        le_combine (skipn 6 data)).
Proof.
  intros Hl. unfold GpuSimulator.unpack4, struct.unpack.
  cbn [struct.calcsize fold_right struct.size Nat.add].
  rewrite Hl. cbn [Nat.eqb bind struct.unpack_fields struct.size].
  rewrite !skipn_skipn. cbn [Nat.add].
  rewrite (firstn_all2 (n := 2%nat) (skipn 6 data))
    by (rewrite length_skipn; lia).
  reflexivity.
Qed.

Lemma clear_color_ok (payload : bytes) :
  (if 4 <=? len payload
   then GpuSimulator.unpack1 struct.I (slice payload 0 4) else Ok 0)
  = Ok (if 4 <=? len payload then le_combine (slice payload 0 4) else 0).
Proof.
  destruct (Z.leb_spec 4 (len payload)); [|reflexivity].
  apply unpack1_ok. rewrite slice_length by lia. reflexivity.
Qed.

(** What one [execute] does to the shape of the frame buffer and to the
    command counter. *)
Lemma execute_spec (self : GpuSimulator.t) (cmd : Z) (payload : bytes) :
  FrameBuffer.shaped (GpuSimulator.fb self) ->
  exists ok self',
    GpuSimulator.execute self cmd payload = Ok (ok, self')
    /\ FrameBuffer.shaped (GpuSimulator.fb self')
    /\ FrameBuffer.width (GpuSimulator.fb self')
       = FrameBuffer.width (GpuSimulator.fb self)
    /\ FrameBuffer.height (GpuSimulator.fb self')
       = FrameBuffer.height (GpuSimulator.fb self)
    /\ GpuSimulator.commands_executed self'
       = (if cmd =? Opcode.RESET then 0
          else GpuSimulator.commands_executed self + 1)
    /\ (ok = false ->
        GpuSimulator.fb self' = GpuSimulator.fb self
        /\ GpuSimulator.current_color self'
           = GpuSimulator.current_color self)
    /\ (cmd = Opcode.RESET ->
        self' = GpuSimulator.init (FrameBuffer.width (GpuSimulator.fb self))
                  (FrameBuffer.height (GpuSimulator.fb self)))
    /\ ok = ((cmd =? Opcode.NOP) || (cmd =? Opcode.CLEAR)
             || (cmd =? Opcode.FLIP) || (cmd =? Opcode.RESET)
             || ((cmd =? Opcode.SET_PIXEL) && (6 <=? len payload))
             || ((cmd =? Opcode.FILL_RECT) && (12 <=? len payload))
             || ((cmd =? Opcode.SET_COLOR) && (4 <=? len payload))).
Proof.
  intros Hs. unfold GpuSimulator.execute.
  destruct (Z.eqb_spec cmd Opcode.NOP) as [->|H0].
  { eexists _, _. split; [reflexivity|]. cbn.
    repeat split; try apply Hs; discriminate. }
  destruct (Z.eqb_spec cmd Opcode.CLEAR) as [->|H1].
  { rewrite clear_color_ok. cbn [bind GpuSimulator.fb].
    rewrite clear_spec by exact Hs. cbn [bind].
    eexists _, _. split; [reflexivity|].
    cbn [GpuSimulator.with_fb GpuSimulator.fb GpuSimulator.commands_executed
         FrameBuffer.width FrameBuffer.height].
    repeat split; try discriminate; try apply grid_uniform. }
  destruct (Z.eqb_spec cmd Opcode.SET_PIXEL) as [->|H2].
  { destruct (6 <=? len payload) eqn:Hl; [apply Z.leb_le in Hl|].
    - rewrite unpack2_ok by (rewrite slice_length by lia; reflexivity).
      cbn [bind].
      rewrite unpack1_ok by (rewrite slice_length by lia; reflexivity).
      cbn [bind GpuSimulator.fb fst snd].
      match goal with
      | |- context [FrameBuffer.set_pixel _ ?x ?y ?c] =>
          destruct (set_pixel_spec (GpuSimulator.fb self) x y c Hs)
            as (fb' & E & S' & Hw & Hh & _)
      end.
      rewrite E. cbn [bind]. eexists _, _. split; [reflexivity|].
      cbn [GpuSimulator.with_fb GpuSimulator.fb
           GpuSimulator.commands_executed].
      repeat split; try discriminate; try assumption; try apply S';
        reflexivity.
    - eexists _, _. split; [reflexivity|]. cbn.
      repeat split; try apply Hs; discriminate. }
  destruct (Z.eqb_spec cmd Opcode.FILL_RECT) as [->|H3].
  { destruct (12 <=? len payload) eqn:Hl; [apply Z.leb_le in Hl|].
    - rewrite unpack4_ok by (rewrite slice_length by lia; reflexivity).
      cbn [bind].
      rewrite unpack1_ok by (rewrite slice_length by lia; reflexivity).
      cbn [bind GpuSimulator.fb].
      match goal with
      | |- context [FrameBuffer.fill_rect _ ?x ?y ?w ?h ?c] =>
          destruct (fill_rect_spec (GpuSimulator.fb self) x y w h c Hs)
            as (fb' & E & S' & Hw & Hh & _)
      end.
      rewrite E. cbn [bind]. eexists _, _. split; [reflexivity|].
      cbn [GpuSimulator.with_fb GpuSimulator.fb
           GpuSimulator.commands_executed].
      repeat split; try discriminate; try assumption; try apply S';
        reflexivity.
    - eexists _, _. split; [reflexivity|]. cbn.
      repeat split; try apply Hs; discriminate. }
  destruct (Z.eqb_spec cmd Opcode.SET_COLOR) as [->|H4].
  { destruct (4 <=? len payload) eqn:Hl; [apply Z.leb_le in Hl|].
    - rewrite unpack1_ok by (rewrite slice_length by lia; reflexivity).
      cbn [bind]. eexists _, _. split; [reflexivity|]. cbn.
      repeat split; try apply Hs; discriminate.
    - eexists _, _. split; [reflexivity|]. cbn.
      repeat split; try apply Hs; discriminate. }
  destruct (Z.eqb_spec cmd Opcode.FLIP) as [->|H5].
  { eexists _, _. split; [reflexivity|]. cbn.
    repeat split; try apply Hs; discriminate. }
  destruct (Z.eqb_spec cmd Opcode.RESET) as [->|H6].
  { eexists _, _. split; [reflexivity|].
    cbn [GpuSimulator.fb].
    repeat split; try discriminate; apply init_shaped. }
  eexists _, _. split; [reflexivity|]. cbn.
  repeat split; try apply Hs; congruence.
Qed.

(** X23. On a simulator whose frame buffer is shaped, [execute] never
    raises, whatever the command byte and the payload.  It returns [True]
    for NOP, CLEAR, FLIP and RESET with any payload, for SET_PIXEL,
    FILL_RECT and SET_COLOR when the payload has at least 6, 12 and 4
    bytes, and [False] otherwise; a command answered [False] leaves the
    frame buffer and the colour as they were, and RESET puts the simulator
    back in the state [__init__] gives for the same size. *)
Theorem execute_outcomes (self : GpuSimulator.t) (cmd : Z) (payload : bytes) :
  FrameBuffer.shaped (GpuSimulator.fb self) ->
  exists ok self',
    GpuSimulator.execute self cmd payload = Ok (ok, self')
    /\ ok = ((cmd =? Opcode.NOP) || (cmd =? Opcode.CLEAR)
             || (cmd =? Opcode.FLIP) || (cmd =? Opcode.RESET)
             || ((cmd =? Opcode.SET_PIXEL) && (6 <=? len payload))
             || ((cmd =? Opcode.FILL_RECT) && (12 <=? len payload))
             || ((cmd =? Opcode.SET_COLOR) && (4 <=? len payload)))
    /\ FrameBuffer.shaped (GpuSimulator.fb self')
    /\ FrameBuffer.width (GpuSimulator.fb self')
       = FrameBuffer.width (GpuSimulator.fb self)
    /\ FrameBuffer.height (GpuSimulator.fb self')
       = FrameBuffer.height (GpuSimulator.fb self)
    /\ (ok = false ->
        GpuSimulator.fb self' = GpuSimulator.fb self
        /\ GpuSimulator.current_color self'
           = GpuSimulator.current_color self)
    /\ (cmd = Opcode.RESET ->
        self' = GpuSimulator.init (FrameBuffer.width (GpuSimulator.fb self))
                  (FrameBuffer.height (GpuSimulator.fb self))).
Proof.
  intros Hs.
  destruct (execute_spec self cmd payload Hs)
    as (ok & self' & E & S' & Hw & Hh & _ & Hrej & Hreset & Hok).
  exists ok, self'. repeat split; try assumption; try apply S'.
  - apply Hrej; assumption.
  - apply Hrej; assumption.
Qed.

Lemma execute_outcomes_witness :
  let self := GpuSimulator.init 2 2 in
  let cmd := Opcode.SET_PIXEL in
  let payload := map byte.of_Z [1; 0; 1; 0; 7] in
  exists ok self',
    GpuSimulator.execute self cmd payload = Ok (ok, self')
    /\ ok = ((cmd =? Opcode.NOP) || (cmd =? Opcode.CLEAR)
             || (cmd =? Opcode.FLIP) || (cmd =? Opcode.RESET)
             || ((cmd =? Opcode.SET_PIXEL) && (6 <=? len payload))
             || ((cmd =? Opcode.FILL_RECT) && (12 <=? len payload))
             || ((cmd =? Opcode.SET_COLOR) && (4 <=? len payload)))
    /\ FrameBuffer.shaped (GpuSimulator.fb self')
    /\ FrameBuffer.width (GpuSimulator.fb self')
       = FrameBuffer.width (GpuSimulator.fb self)
    /\ FrameBuffer.height (GpuSimulator.fb self')
       = FrameBuffer.height (GpuSimulator.fb self)
    /\ (ok = false ->
        GpuSimulator.fb self' = GpuSimulator.fb self
        /\ GpuSimulator.current_color self'
           = GpuSimulator.current_color self)
    /\ (cmd = Opcode.RESET ->
        self' = GpuSimulator.init (FrameBuffer.width (GpuSimulator.fb self))
                  (FrameBuffer.height (GpuSimulator.fb self))).
Proof.
  apply (execute_outcomes (GpuSimulator.init 2 2) Opcode.SET_PIXEL
           (map byte.of_Z [1; 0; 1; 0; 7])).
  split; [reflexivity | repeat constructor].
Defined.

(** ** Command sequences *)

Lemma for_each_app {A S : Type} (xs ys : list A) (body : S -> A -> result S)
    (s : S) :
  for_each (xs ++ ys) body s
  = (s' <- for_each xs body s ;; for_each ys body s').
Proof.
  revert s. induction xs as [|x xs IH]; intros s; cbn [app for_each bind].
  - reflexivity.
  - destruct (body s x) as [s'|e]; cbn [bind]; [apply IH | reflexivity].
Qed.

Lemma run_spec (commands : list (Z * bytes)) :
  forall self, FrameBuffer.shaped (GpuSimulator.fb self) ->
  exists self',
    GpuSimulator.run commands self = Ok self'
    /\ FrameBuffer.shaped (GpuSimulator.fb self')
    /\ FrameBuffer.width (GpuSimulator.fb self')
       = FrameBuffer.width (GpuSimulator.fb self)
    /\ FrameBuffer.height (GpuSimulator.fb self')
       = FrameBuffer.height (GpuSimulator.fb self)
    /\ (Forall (fun command => fst command <> Opcode.RESET) commands ->
        GpuSimulator.commands_executed self'
        = GpuSimulator.commands_executed self + len commands).
Proof.
  unfold GpuSimulator.run.
  induction commands as [|[cmd payload] commands IH]; intros self Hs.
  - exists self. repeat split; try apply Hs. intros _. unfold len. cbn. lia.
  - destruct (execute_spec self cmd payload Hs)
      as (ok & s1 & E & S1 & Hw & Hh & Hc & _).
    destruct (IH s1 S1) as (s2 & E2 & S2 & Hw2 & Hh2 & Hc2).
    exists s2. cbn [for_each fst snd]. rewrite E. cbn [bind snd]. rewrite E2.
    repeat split; try apply S2; try congruence.
    intros Hall. inversion Hall as [|? ? Hcmd Hrest]; subst.
    rewrite Hc2 by exact Hrest. rewrite Hc. cbn [fst] in Hcmd.
    destruct (Z.eqb_spec cmd Opcode.RESET); [contradiction|].
    rewrite len_cons. lia.
Qed.

(** X24. Running any list of commands on a shaped simulator never raises
    and keeps the shape and the size of the frame buffer.
    [commands_executed] counts the commands since the last RESET: after a
    list that contains a RESET it is the number of commands that follow the
    last one, and after a list without RESET it has grown by the length of
    the list. *)
Theorem commands_counted_since_reset (self : GpuSimulator.t)
    (commands : list (Z * bytes)) :
  FrameBuffer.shaped (GpuSimulator.fb self) ->
  exists self',
    GpuSimulator.run commands self = Ok self'
    /\ FrameBuffer.shaped (GpuSimulator.fb self')
    /\ FrameBuffer.width (GpuSimulator.fb self')
       = FrameBuffer.width (GpuSimulator.fb self)
    /\ FrameBuffer.height (GpuSimulator.fb self')
       = FrameBuffer.height (GpuSimulator.fb self)
    /\ (forall before payload rest,
          commands = before ++ (Opcode.RESET, payload) :: rest ->
          Forall (fun command => fst command <> Opcode.RESET) rest ->
          GpuSimulator.commands_executed self' = len rest)
    /\ (Forall (fun command => fst command <> Opcode.RESET) commands ->
        GpuSimulator.commands_executed self'
        = GpuSimulator.commands_executed self + len commands).
Proof.
  intros Hs.
  destruct (run_spec commands self Hs) as (self' & E & S' & Hw & Hh & Hc).
  exists self'. split; [exact E|]. split; [exact S'|].
  split; [exact Hw|]. split; [exact Hh|]. split; [|exact Hc].
  intros before payload rest -> Hrest.
  destruct (run_spec before self Hs) as (s1 & E1 & S1 & _).
  destruct (execute_spec s1 Opcode.RESET payload S1)
    as (ok & s2 & E2 & S2 & _ & _ & Hc2 & _).
  destruct (run_spec rest s2 S2) as (s3 & E3 & _ & _ & _ & Hc3).
  unfold GpuSimulator.run in *.
  rewrite for_each_app, E1 in E. cbn [bind for_each fst snd] in E.
  rewrite E2 in E. cbn [bind snd] in E. rewrite E3 in E.
  injection E as <-.
  rewrite Hc3 by exact Hrest. rewrite Hc2. cbn. lia.
Qed.

Lemma commands_counted_since_reset_witness :
  let self := GpuSimulator.init 4 4 in
  let rest :=
    [(Opcode.CLEAR, le_split 4 0);
     (Opcode.SET_COLOR, le_split 4 0xFF0000);
     (Opcode.SET_PIXEL, le_split 2 1 ++ le_split 2 1 ++ le_split 2 0xFF00);
     (Opcode.FILL_RECT,
      le_split 2 2 ++ le_split 2 2 ++ le_split 2 1 ++ le_split 2 1
        ++ le_split 4 0x0000FF);
     (Opcode.FLIP, [])] in
  let commands := [(Opcode.NOP, []); (Opcode.RESET, [])] ++ rest in
  exists self',
    GpuSimulator.run commands self = Ok self'
    /\ FrameBuffer.shaped (GpuSimulator.fb self')
    /\ FrameBuffer.width (GpuSimulator.fb self') = 4
    /\ FrameBuffer.height (GpuSimulator.fb self') = 4
    /\ GpuSimulator.commands_executed self' = 5.
Proof.
  intros self rest commands.
  destruct (commands_counted_since_reset self commands)
    as (self' & E & S' & Hw & Hh & Hreset & _).
  - split; [reflexivity | repeat constructor].
  - exists self'. split; [exact E|]. split; [exact S'|].
    split; [exact Hw|]. split; [exact Hh|].
    apply (Hreset [(Opcode.NOP, [])] [] rest); [reflexivity|].
    repeat constructor; discriminate.
Defined.

(** ** Drawing commands and their packed operands *)

Lemma len_le_split (n : nat) (v : Z) : len (le_split n v) = Z.of_nat n.
Proof. unfold len. rewrite length_le_split. reflexivity. Qed.

(** X25. The drawing commands read their operands as [struct.pack] writes
    them, and ignore any payload bytes after them.  On a shaped simulator,
    SET_PIXEL with [pack('<HHH', x, y, color)] does what
    [fb.set_pixel(x, y, color)] does, FILL_RECT with
    [pack('<HHHHI', x, y, w, h, color)] what [fb.fill_rect(x, y, w, h, color)]
    does, CLEAR with [pack('<I', color)] what [fb.clear(color)] does, and
    SET_COLOR with [pack('<I', color)] stores the colour and leaves the
    frame buffer alone; each returns [True]. *)
Theorem drawing_commands_take_packed_operands (self : GpuSimulator.t)
    (x y w h color16 color32 : Z) (extra : bytes) :
  FrameBuffer.shaped (GpuSimulator.fb self) ->
  0 <= x < 2 ^ 16 -> 0 <= y < 2 ^ 16 ->
  0 <= w < 2 ^ 16 -> 0 <= h < 2 ^ 16 ->
  0 <= color16 < 2 ^ 16 -> 0 <= color32 < 2 ^ 32 ->
  exists pixel rect word,
    struct.pack [struct.H; struct.H; struct.H] [x; y; color16] = Ok pixel
    /\ struct.pack [struct.H; struct.H; struct.H; struct.H; struct.I]
         [x; y; w; h; color32] = Ok rect
    /\ struct.pack [struct.I] [color32] = Ok word
    /\ (exists self',
          GpuSimulator.execute self Opcode.SET_PIXEL (pixel ++ extra)
          = Ok (true, self')
          /\ FrameBuffer.set_pixel (GpuSimulator.fb self) x y color16
             = Ok (GpuSimulator.fb self'))
    /\ (exists self',
          GpuSimulator.execute self Opcode.FILL_RECT (rect ++ extra)
          = Ok (true, self')
          /\ FrameBuffer.fill_rect (GpuSimulator.fb self) x y w h color32
             = Ok (GpuSimulator.fb self'))
    /\ (exists self',
          GpuSimulator.execute self Opcode.CLEAR (word ++ extra)
          = Ok (true, self')
          /\ FrameBuffer.clear (GpuSimulator.fb self) color32
             = Ok (GpuSimulator.fb self'))
    /\ (exists self',
          GpuSimulator.execute self Opcode.SET_COLOR (word ++ extra)
          = Ok (true, self')
          /\ GpuSimulator.current_color self' = color32
          /\ GpuSimulator.fb self' = GpuSimulator.fb self).
Proof.
  intros Hs Hx Hy Hw Hh Hc16 Hc32.
  assert (P2 : forall v, 0 <= v < 2 ^ 16 ->
             struct.pack_one struct.H v = Ok (le_split 2 v))
    by (intros v Hv; apply pack_one_ok; exact Hv).
  assert (P4 : struct.pack_one struct.I color32 = Ok (le_split 4 color32))
    by (apply pack_one_ok; exact Hc32).
  assert (C2 : forall v, 0 <= v < 2 ^ 16 -> le_combine (le_split 2 v) = v)
    by (intros v Hv; apply le_combine_split_small; exact Hv).
  assert (C4 : le_combine (le_split 4 color32) = color32)
    by (apply le_combine_split_small; exact Hc32).
  cbn [struct.pack]. rewrite !P2, P4 by assumption. cbn [bind].
  eexists _, _, _. split; [reflexivity|]. split; [reflexivity|].
  split; [reflexivity|].
  rewrite !app_nil_r.
  split; [|split; [|split]].
  - destruct (set_pixel_spec (GpuSimulator.fb self) x y color16 Hs)
      as (fb' & E & _).
    unfold GpuSimulator.execute.
    change (Opcode.SET_PIXEL =? Opcode.NOP) with false.
    change (Opcode.SET_PIXEL =? Opcode.CLEAR) with false.
    change (Opcode.SET_PIXEL =? Opcode.SET_PIXEL) with true. cbv iota.
    destruct (Z.leb_spec 6 (len ((le_split 2 x ++ le_split 2 y
                                    ++ le_split 2 color16) ++ extra)))
      as [_|Hl];
      [|rewrite !len_app, !len_le_split in Hl; pose proof (len_nonneg extra);
        lia].
    change (slice ((le_split 2 x ++ le_split 2 y ++ le_split 2 color16)
                     ++ extra) 0 4)
      with (le_split 2 x ++ le_split 2 y).
    change (slice ((le_split 2 x ++ le_split 2 y ++ le_split 2 color16)
                     ++ extra) 4 6)
      with (le_split 2 color16).
    rewrite unpack2_ok by reflexivity. cbn [bind].
    rewrite unpack1_ok by reflexivity. cbn [bind fst snd GpuSimulator.fb].
    change (firstn (struct.size struct.H) (le_split 2 x ++ le_split 2 y))
      with (le_split 2 x).
    change (skipn (struct.size struct.H) (le_split 2 x ++ le_split 2 y))
      with (le_split 2 y).
    rewrite !C2 by assumption. rewrite E. cbn [bind].
    eexists. split; reflexivity.
  - destruct (fill_rect_spec (GpuSimulator.fb self) x y w h color32 Hs)
      as (fb' & E & _).
    unfold GpuSimulator.execute.
    change (Opcode.FILL_RECT =? Opcode.NOP) with false.
    change (Opcode.FILL_RECT =? Opcode.CLEAR) with false.
    change (Opcode.FILL_RECT =? Opcode.SET_PIXEL) with false.
    change (Opcode.FILL_RECT =? Opcode.FILL_RECT) with true. cbv iota.
    destruct (Z.leb_spec 12 (len ((le_split 2 x ++ le_split 2 y
                                     ++ le_split 2 w ++ le_split 2 h
                                     ++ le_split 4 color32) ++ extra)))
      as [_|Hl];
      [|rewrite !len_app, !len_le_split in Hl; pose proof (len_nonneg extra);
        lia].
    change (slice ((le_split 2 x ++ le_split 2 y ++ le_split 2 w
                      ++ le_split 2 h ++ le_split 4 color32) ++ extra) 0 8)
      with (le_split 2 x ++ le_split 2 y ++ le_split 2 w ++ le_split 2 h).
    change (slice ((le_split 2 x ++ le_split 2 y ++ le_split 2 w
                      ++ le_split 2 h ++ le_split 4 color32) ++ extra) 8 12)
      with (le_split 4 color32).
    rewrite unpack4_ok by reflexivity. cbn [bind].
    rewrite unpack1_ok by reflexivity. cbn [bind GpuSimulator.fb].
    change (firstn 2 (le_split 2 x ++ le_split 2 y ++ le_split 2 w
                        ++ le_split 2 h))
      with (le_split 2 x).
    change (firstn 2 (skipn 2 (le_split 2 x ++ le_split 2 y ++ le_split 2 w
                                 ++ le_split 2 h)))
      with (le_split 2 y).
    change (firstn 2 (skipn 4 (le_split 2 x ++ le_split 2 y ++ le_split 2 w
                                 ++ le_split 2 h)))
      with (le_split 2 w).
    change (skipn 6 (le_split 2 x ++ le_split 2 y ++ le_split 2 w
                       ++ le_split 2 h))
      with (le_split 2 h).
    rewrite !C2 by assumption. rewrite C4, E. cbn [bind].
    eexists. split; reflexivity.
  - unfold GpuSimulator.execute.
    change (Opcode.CLEAR =? Opcode.NOP) with false.
    change (Opcode.CLEAR =? Opcode.CLEAR) with true. cbv iota.
    rewrite clear_color_ok.
    destruct (Z.leb_spec 4 (len (le_split 4 color32 ++ extra))) as [_|Hl];
      [|rewrite !len_app, !len_le_split in Hl; pose proof (len_nonneg extra);
        lia].
    change (slice (le_split 4 color32 ++ extra) 0 4)
      with (le_split 4 color32).
    rewrite C4. cbn [bind GpuSimulator.fb].
    rewrite clear_spec by exact Hs. cbn [bind].
    eexists. split; reflexivity.
  - unfold GpuSimulator.execute.
    change (Opcode.SET_COLOR =? Opcode.NOP) with false.
    change (Opcode.SET_COLOR =? Opcode.CLEAR) with false.
    change (Opcode.SET_COLOR =? Opcode.SET_PIXEL) with false.
    change (Opcode.SET_COLOR =? Opcode.FILL_RECT) with false.
    change (Opcode.SET_COLOR =? Opcode.SET_COLOR) with true. cbv iota.
    destruct (Z.leb_spec 4 (len (le_split 4 color32 ++ extra))) as [_|Hl];
      [|rewrite !len_app, !len_le_split in Hl; pose proof (len_nonneg extra);
        lia].
    change (slice (le_split 4 color32 ++ extra) 0 4)
      with (le_split 4 color32).
    rewrite unpack1_ok by reflexivity. cbn [bind]. rewrite C4.
    eexists. repeat split.
Qed.

Lemma drawing_commands_take_packed_operands_witness :
  let self := GpuSimulator.init 4 4 in
  exists pixel rect word,
    struct.pack [struct.H; struct.H; struct.H] [1; 2; 0xFF00] = Ok pixel
    /\ struct.pack [struct.H; struct.H; struct.H; struct.H; struct.I]
         [1; 2; 2; 1; 0xFF] = Ok rect
    /\ struct.pack [struct.I] [0xFF] = Ok word
    /\ (exists self',
          GpuSimulator.execute self Opcode.SET_PIXEL (pixel ++ [])
          = Ok (true, self')
          /\ FrameBuffer.set_pixel (GpuSimulator.fb self) 1 2 0xFF00
             = Ok (GpuSimulator.fb self'))
    /\ (exists self',
          GpuSimulator.execute self Opcode.FILL_RECT (rect ++ [])
          = Ok (true, self')
          /\ FrameBuffer.fill_rect (GpuSimulator.fb self) 1 2 2 1 0xFF
             = Ok (GpuSimulator.fb self'))
    /\ (exists self',
          GpuSimulator.execute self Opcode.CLEAR (word ++ [])
          = Ok (true, self')
          /\ FrameBuffer.clear (GpuSimulator.fb self) 0xFF
             = Ok (GpuSimulator.fb self'))
    /\ (exists self',
          GpuSimulator.execute self Opcode.SET_COLOR (word ++ [])
          = Ok (true, self')
          /\ GpuSimulator.current_color self' = 0xFF
          /\ GpuSimulator.fb self' = GpuSimulator.fb self).
Proof.
  apply (drawing_commands_take_packed_operands (GpuSimulator.init 4 4)
           1 2 2 1 0xFF00 0xFF []);
    [split; [reflexivity | repeat constructor] | lia ..].
Defined.

(** ** Fixed-point arithmetic *)

(** X26. [fixed_mul] is the product divided by 65536 and rounded towards
    minus infinity, also for negative operands; 65536 (the number one) is
    its unit, and the product of two whole numbers is exact.  [fixed_div]
    returns 0 for a zero divisor instead of raising, is the quotient
    scaled by 65536 and rounded towards minus infinity otherwise, leaves a
    value divided by one as it is, and undoes the multiplication of two
    whole numbers. *)
Theorem fixed_point_arithmetic (a b m n : Z) :
  (FIXED_SCALE * fixed_mul a b <= a * b
     < FIXED_SCALE * fixed_mul a b + FIXED_SCALE)
  /\ fixed_mul a FIXED_SCALE = a
  /\ fixed_mul FIXED_SCALE a = a
  /\ fixed_mul (m * FIXED_SCALE) (n * FIXED_SCALE) = m * n * FIXED_SCALE
  /\ fixed_div a 0 = 0
  /\ fixed_div a FIXED_SCALE = a
  /\ (0 < b ->
      b * fixed_div a b <= a * FIXED_SCALE < b * fixed_div a b + b)
  /\ (b < 0 ->
      b * fixed_div a b + b < a * FIXED_SCALE <= b * fixed_div a b)
  /\ (n <> 0 ->
      fixed_div (fixed_mul (m * FIXED_SCALE) (n * FIXED_SCALE))
        (n * FIXED_SCALE) = m * FIXED_SCALE).
Proof.
  unfold fixed_mul, fixed_div, FIXED_SCALE.
  rewrite !Z.shiftr_div_pow2, !Z.shiftl_mul_pow2 by lia.
  change (2 ^ 16) with 65536.
  assert (Hmn : m * 65536 * (n * 65536) / 65536 = m * n * 65536).
  { replace (m * 65536 * (n * 65536)) with (m * n * 65536 * 65536) by ring.
    apply Z.div_mul. lia. }
  repeat split.
  - pose proof (Z.mul_div_le (a * b) 65536 ltac:(lia)). lia.
  - pose proof (Z.mul_succ_div_gt (a * b) 65536 ltac:(lia)). lia.
  - apply Z.div_mul. lia.
  - rewrite Z.mul_comm. apply Z.div_mul. lia.
  - exact Hmn.
  - cbn [Z.eqb negb]. apply Z.div_mul. lia.
  - destruct (Z.eqb_spec b 0); [lia|]. cbn [negb].
    pose proof (Z.mul_div_le (a * 65536) b ltac:(lia)). lia.
  - destruct (Z.eqb_spec b 0); [lia|]. cbn [negb].
    pose proof (Z.mul_succ_div_gt (a * 65536) b ltac:(lia)). lia.
  - destruct (Z.eqb_spec b 0); [lia|]. cbn [negb].
    pose proof (Z.mod_neg_bound (a * 65536) b ltac:(lia)).
    pose proof (Z.div_mod (a * 65536) b ltac:(lia)). lia.
  - destruct (Z.eqb_spec b 0); [lia|]. cbn [negb].
    pose proof (Z.mod_neg_bound (a * 65536) b ltac:(lia)).
    pose proof (Z.div_mod (a * 65536) b ltac:(lia)). lia.
  - intros Hn. destruct (Z.eqb_spec (n * 65536) 0); [lia|]. cbn [negb].
    rewrite Hmn.
    replace (m * n * 65536 * 65536) with (m * 65536 * (n * 65536)) by ring.
    apply Z.div_mul. lia.
Qed.

Lemma fixed_point_arithmetic_witness :
  fixed_mul (-5 * FIXED_SCALE) (3 * FIXED_SCALE) = -5 * 3 * FIXED_SCALE
  /\ (3 * FIXED_SCALE * fixed_div (-1) (3 * FIXED_SCALE) <= -1 * FIXED_SCALE
      < 3 * FIXED_SCALE * fixed_div (-1) (3 * FIXED_SCALE) + 3 * FIXED_SCALE)
  /\ fixed_div (fixed_mul (-5 * FIXED_SCALE) (3 * FIXED_SCALE))
       (3 * FIXED_SCALE) = -5 * FIXED_SCALE.
Proof.
  pose proof (fixed_point_arithmetic (-1) (3 * FIXED_SCALE) (-5) 3)
    as (_ & _ & _ & Hm & _ & _ & Hpos & _ & Hdiv).
  split; [exact Hm|]. split.
  - apply Hpos. vm_compute. reflexivity.
  - apply Hdiv. discriminate.
Defined.

(** ** The line algorithm *)

Lemma last_cons_cons {A : Type} (p q : A) (l : list A) (d d' : A) :
  last (p :: q :: l) d = last (q :: l) d'.
Proof.
  cbn [last]. revert q. induction l as [|r l IH]; intros q; [reflexivity|].
  cbn [last]. destruct l; [reflexivity|]. apply (IH r).
Qed.

(** The loop, started [a] steps in [x] and [b] steps in [y] before the end
    point with the error term the algorithm has there. *)
Lemma bresenham_loop_spec (x1 y1 dx ady sx sy : Z) :
  0 <= dx -> 0 <= ady -> sx = 1 \/ sx = -1 -> sy = 1 \/ sy = -1 ->
  forall (fuel : nat) (a b cx cy err : Z) (points : list (Z * Z)),
  0 <= a <= dx -> 0 <= b <= ady ->
  cx = x1 - sx * a -> cy = y1 - sy * b ->
  err = dx - ady + a * ady - b * dx ->
  (ady <= dx -> - ady <= 2 * err) ->
  (dx <= ady -> 2 * err <= dx) ->
  a + b < Z.of_nat fuel ->
  exists path,
    bresenham_loop fuel cx cy x1 y1 dx (- ady) sx sy err points
    = Some (points ++ (cx, cy) :: path)
    /\ last ((cx, cy) :: path) (cx, cy) = (x1, y1)
    /\ consecutive (towards x1 y1) ((cx, cy) :: path)
    /\ Forall (fun p => 0 <= sx * (x1 - fst p) <= a
                        /\ 0 <= sy * (y1 - snd p) <= b) ((cx, cy) :: path)
    /\ (ady <= dx -> len path = a)
    /\ (dx <= ady -> len path = b).
Proof.
  intros Hdx Hady Hsx Hsy.
  induction fuel as [|fuel IH];
    intros a b cx cy err points Ha Hb Hcx Hcy Herr Hmx Hmy Hfuel; [lia|].
  cbn [bresenham_loop].
  assert (Hhere : 0 <= sx * (x1 - cx) <= a /\ 0 <= sy * (y1 - cy) <= b)
    by (destruct Hsx, Hsy; subst; lia).
  destruct (Z.eq_dec a 0) as [Ha0|Ha0], (Z.eq_dec b 0) as [Hb0|Hb0].
  - (* at the end point *)
    subst a b. replace cx with x1 by lia. replace cy with y1 by lia.
    rewrite !Z.eqb_refl. cbn [andb]. exists [].
    split; [reflexivity|]. split; [reflexivity|]. split; [exact I|].
    split; [constructor; [cbn [fst snd]; destruct Hsx, Hsy; subst; lia
                         |constructor]|].
    split; intros _; reflexivity.
  - (* only [y] is left *)
    assert (Hcy' : (cy =? y1) = false)
      by (apply Z.eqb_neq; destruct Hsy; subst; lia).
    rewrite Hcy', andb_false_r.
    assert (Hb1 : 0 <= (b - 1) * dx) by (apply Z.mul_nonneg_nonneg; lia).
    destruct (Z.leb_spec (- ady) (2 * err)) as [Hx|Hx]; [subst; lia|].
    destruct (Z.leb_spec (2 * err) dx) as [Hy|Hy]; [|subst; lia].
    destruct (IH a (b - 1) cx (cy + sy) (err + dx) (points ++ [(cx, cy)]))
      as (path & E & Hlast & Hcons & Hall & Hlx & Hly);
      try lia; try (subst; ring).
    exists ((cx, cy + sy) :: path).
      rewrite E, <- app_assoc. split; [reflexivity|].
      split; [rewrite (last_cons_cons _ _ _ _ (cx, cy + sy)); exact Hlast|].
      split; [split; [|exact Hcons]|].
      { unfold towards. cbn [fst snd]. destruct Hsx, Hsy; subst; lia. }
      split.
      { constructor; [exact Hhere|].
        eapply Forall_impl; [|exact Hall]. cbv beta. intros p Hp. lia. }
      rewrite len_cons. split; intros H; [lia|]. rewrite Hly by exact H. lia.
  - (* only [x] is left *)
    assert (Hcx' : (cx =? x1) = false)
      by (apply Z.eqb_neq; destruct Hsx; subst; lia).
    rewrite Hcx'. cbn [andb].
    assert (Ha1 : 0 <= (a - 1) * ady) by (apply Z.mul_nonneg_nonneg; lia).
    destruct (Z.leb_spec (2 * err) dx) as [Hy|Hy]; [subst; lia|].
    destruct (Z.leb_spec (- ady) (2 * err)) as [Hx|Hx]; [|subst; lia].
    destruct (IH (a - 1) b (cx + sx) cy (err + - ady) (points ++ [(cx, cy)]))
      as (path & E & Hlast & Hcons & Hall & Hlx & Hly);
      try lia; try (subst; ring).
    exists ((cx + sx, cy) :: path).
      rewrite E, <- app_assoc. split; [reflexivity|].
      split; [rewrite (last_cons_cons _ _ _ _ (cx + sx, cy)); exact Hlast|].
      split; [split; [|exact Hcons]|].
      { unfold towards. cbn [fst snd]. destruct Hsx, Hsy; subst; lia. }
      split.
      { constructor; [exact Hhere|].
        eapply Forall_impl; [|exact Hall]. cbv beta. intros p Hp. lia. }
      rewrite len_cons. split; intros H; [|lia]. rewrite Hlx by exact H. lia.
  - (* both are left *)
    assert (Hcx' : (cx =? x1) = false)
      by (apply Z.eqb_neq; destruct Hsx; subst; lia).
    rewrite Hcx'. cbn [andb].
    destruct (Z.leb_spec (- ady) (2 * err)) as [Hx|Hx];
      destruct (Z.leb_spec (2 * err) dx) as [Hy|Hy]; try lia.
    + destruct (IH (a - 1) (b - 1) (cx + sx) (cy + sy) (err + - ady + dx)
                  (points ++ [(cx, cy)]))
        as (path & E & Hlast & Hcons & Hall & Hlx & Hly);
        try lia; try (subst; ring).
      exists ((cx + sx, cy + sy) :: path).
        rewrite E, <- app_assoc. split; [reflexivity|].
        split;
          [rewrite (last_cons_cons _ _ _ _ (cx + sx, cy + sy)); exact Hlast|].
        split; [split; [|exact Hcons]|].
        { unfold towards. cbn [fst snd]. destruct Hsx, Hsy; subst; lia. }
        split.
        { constructor; [exact Hhere|].
          eapply Forall_impl; [|exact Hall]. cbv beta. intros p Hp. lia. }
        rewrite len_cons. split; intros H;
          [rewrite Hlx by exact H | rewrite Hly by exact H]; lia.
    + destruct (IH (a - 1) b (cx + sx) cy (err + - ady) (points ++ [(cx, cy)]))
        as (path & E & Hlast & Hcons & Hall & Hlx & Hly);
        try lia; try (subst; ring).
      exists ((cx + sx, cy) :: path).
        rewrite E, <- app_assoc. split; [reflexivity|].
        split; [rewrite (last_cons_cons _ _ _ _ (cx + sx, cy)); exact Hlast|].
        split; [split; [|exact Hcons]|].
        { unfold towards. cbn [fst snd]. destruct Hsx, Hsy; subst; lia. }
        split.
        { constructor; [exact Hhere|].
          eapply Forall_impl; [|exact Hall]. cbv beta. intros p Hp. lia. }
        rewrite len_cons. split; intros H; [|lia]. rewrite Hlx by exact H. lia.
    + destruct (IH a (b - 1) cx (cy + sy) (err + dx) (points ++ [(cx, cy)]))
        as (path & E & Hlast & Hcons & Hall & Hlx & Hly);
        try lia; try (subst; ring).
      exists ((cx, cy + sy) :: path).
        rewrite E, <- app_assoc. split; [reflexivity|].
        split; [rewrite (last_cons_cons _ _ _ _ (cx, cy + sy)); exact Hlast|].
        split; [split; [|exact Hcons]|].
        { unfold towards. cbn [fst snd]. destruct Hsx, Hsy; subst; lia. }
        split.
        { constructor; [exact Hhere|].
          eapply Forall_impl; [|exact Hall]. cbv beta. intros p Hp. lia. }
        rewrite len_cons. split; intros H; [lia|]. rewrite Hly by exact H. lia.
Qed.

Lemma bresenham_loop_more_fuel (x1 y1 dx dy sx sy : Z) (fuel : nat) :
  forall (x0 y0 err : Z) (points r : list (Z * Z)),
  bresenham_loop fuel x0 y0 x1 y1 dx dy sx sy err points = Some r ->
  forall extra : nat,
  bresenham_loop (extra + fuel) x0 y0 x1 y1 dx dy sx sy err points = Some r.
Proof.
  induction fuel as [|fuel IH]; intros x0 y0 err points r E extra;
    [discriminate|].
  rewrite Nat.add_succ_r. cbn [bresenham_loop] in *.
  destruct ((x0 =? x1) && (y0 =? y1)); [exact E|].
  destruct (dy <=? 2 * err), (2 * err <=? dx); apply IH; exact E.
Qed.

Lemma bresenham_line_spec (fuel : nat) (x0 y0 x1 y1 : Z) :
  Z.abs (x1 - x0) + Z.abs (y1 - y0) < Z.of_nat fuel ->
  exists path,
    bresenham_line fuel x0 y0 x1 y1 = Some ((x0, y0) :: path)
    /\ last ((x0, y0) :: path) (x0, y0) = (x1, y1)
    /\ len path = Z.max (Z.abs (x1 - x0)) (Z.abs (y1 - y0))
    /\ consecutive (towards x1 y1) ((x0, y0) :: path)
    /\ Forall (fun p => Z.min x0 x1 <= fst p <= Z.max x0 x1
                        /\ Z.min y0 y1 <= snd p <= Z.max y0 y1)
         ((x0, y0) :: path).
Proof.
  intros Hfuel. unfold bresenham_line.
  set (sx := if x0 <? x1 then 1 else -1).
  set (sy := if y0 <? y1 then 1 else -1).
  assert (Hsx : sx = 1 \/ sx = -1)
    by (subst sx; destruct (x0 <? x1); [left|right]; reflexivity).
  assert (Hsy : sy = 1 \/ sy = -1)
    by (subst sy; destruct (y0 <? y1); [left|right]; reflexivity).
  assert (Hx0 : x0 = x1 - sx * Z.abs (x1 - x0))
    by (subst sx; destruct (Z.ltb_spec x0 x1); lia).
  assert (Hy0 : y0 = y1 - sy * Z.abs (y1 - y0))
    by (subst sy; destruct (Z.ltb_spec y0 y1); lia).
  destruct (bresenham_loop_spec x1 y1 (Z.abs (x1 - x0)) (Z.abs (y1 - y0))
              sx sy ltac:(lia) ltac:(lia) Hsx Hsy fuel
              (Z.abs (x1 - x0)) (Z.abs (y1 - y0)) x0 y0
              (Z.abs (x1 - x0) + - Z.abs (y1 - y0)) [])
    as (path & E & Hlast & Hcons & Hall & Hlx & Hly);
    try lia; try exact Hx0; try exact Hy0.
  exists path. rewrite E. split; [reflexivity|]. split; [exact Hlast|].
  split.
  - destruct (Z.le_ge_cases (Z.abs (y1 - y0)) (Z.abs (x1 - x0))) as [H|H].
    + rewrite Hlx by exact H. lia.
    + rewrite Hly by exact H. lia.
  - split; [exact Hcons|].
    eapply Forall_impl; [|exact Hall]. cbv beta. intros p Hp.
    subst sx sy.
    destruct (Z.ltb_spec x0 x1), (Z.ltb_spec y0 y1); lia.
Qed.

(** X27. [bresenham_line] terminates for every pair of end points: the
    loop breaks after at most [|x1 - x0| + |y1 - y0| + 1] iterations.  The
    list it returns starts with [(x0, y0)], ends with [(x1, y1)] and has
    [max(|x1 - x0|, |y1 - y0|) + 1] points, one for a zero-length line. *)
Theorem bresenham_line_terminates (fuel : nat) (x0 y0 x1 y1 : Z) :
  Z.abs (x1 - x0) + Z.abs (y1 - y0) < Z.of_nat fuel ->
  exists path,
    bresenham_line fuel x0 y0 x1 y1 = Some ((x0, y0) :: path)
    /\ last ((x0, y0) :: path) (x0, y0) = (x1, y1)
    /\ len ((x0, y0) :: path)
       = Z.max (Z.abs (x1 - x0)) (Z.abs (y1 - y0)) + 1
    /\ (x0 = x1 -> y0 = y1 -> path = []).
Proof.
  intros Hfuel.
  destruct (bresenham_line_spec fuel x0 y0 x1 y1 Hfuel)
    as (path & E & Hlast & Hlen & _).
  exists path. split; [exact E|]. split; [exact Hlast|].
  split; [rewrite len_cons; lia|].
  intros Hx Hy. destruct path as [|p path]; [reflexivity|].
  rewrite len_cons in Hlen. pose proof (len_nonneg path). lia.
Qed.

Lemma bresenham_line_terminates_witness :
  exists path,
    bresenham_line 8 0 0 5 (-2) = Some ((0, 0) :: path)
    /\ last ((0, 0) :: path) (0, 0) = (5, -2)
    /\ len ((0, 0) :: path) = Z.max (Z.abs (5 - 0)) (Z.abs (-2 - 0)) + 1
    /\ (0 = 5 -> 0 = -2 -> path = []).
Proof.
  apply (bresenham_line_terminates 8 0 0 5 (-2)). simpl. lia.
Defined.

(** X28. Whenever the loop of [bresenham_line] has broken, the points it
    returns form a connected line that never turns back: each point is one
    of the eight neighbours of the one before it, no farther from the end
    point in either coordinate and strictly nearer in their sum, and every
    point lies in the rectangle spanned by the two end points.  The list
    does not depend on how many further iterations would have been
    allowed. *)
Theorem bresenham_line_is_connected (fuel : nat) (x0 y0 x1 y1 : Z)
    (points : list (Z * Z)) :
  bresenham_line fuel x0 y0 x1 y1 = Some points ->
  consecutive (towards x1 y1) points
  /\ Forall (fun p => Z.min x0 x1 <= fst p <= Z.max x0 x1
                      /\ Z.min y0 y1 <= snd p <= Z.max y0 y1) points
  /\ forall extra : nat,
       bresenham_line (extra + fuel) x0 y0 x1 y1 = Some points.
Proof.
  intros E.
  assert (Hmore : forall extra : nat,
             bresenham_line (extra + fuel) x0 y0 x1 y1 = Some points)
    by (intros extra; apply bresenham_loop_more_fuel; exact E).
  set (extra := Z.to_nat (Z.abs (x1 - x0) + Z.abs (y1 - y0) + 1)).
  destruct (bresenham_line_spec (extra + fuel) x0 y0 x1 y1 ltac:(lia))
    as (path & E' & _ & _ & Hcons & Hall).
  rewrite (Hmore extra) in E'. injection E' as ->.
  split; [exact Hcons|]. split; [exact Hall | exact Hmore].
Qed.

Lemma bresenham_line_is_connected_witness :
  let points := [(3, 1); (2, 2); (1, 2); (0, 3)] in
  consecutive (towards 0 3) points
  /\ Forall (fun p => Z.min 3 0 <= fst p <= Z.max 3 0
                      /\ Z.min 1 3 <= snd p <= Z.max 1 3) points
  /\ forall extra : nat,
       bresenham_line (extra + 4) 3 1 0 3 = Some points.
Proof.
  apply (bresenham_line_is_connected 4 3 1 0 3). vm_compute. reflexivity.
Defined.


(** ** Colour arithmetic *)

Lemma fields_come_back_all :
  forallb (fun hi =>
    forallb (fun mid =>
      forallb (fun lo => fields_come_back hi mid lo) (range 32))
      (range 64))
    (range 32) = true.
Proof. vm_compute. reflexivity. Qed.

Lemma fields_come_back_in (hi mid lo : Z) :
  0 <= hi < 32 -> 0 <= mid < 64 -> 0 <= lo < 32 ->
  fields_come_back hi mid lo = true.
Proof.
  intros Hhi Hmid Hlo.
  pose proof fields_come_back_all as H.
  rewrite forallb_forall in H.
  specialize (H hi (proj2 (in_range 32 hi) Hhi)).
  rewrite forallb_forall in H.
  specialize (H mid (proj2 (in_range 64 mid) Hmid)).
  rewrite forallb_forall in H.
  exact (H lo (proj2 (in_range 32 lo) Hlo)).
Qed.

(** X29. For 8-bit channels the RGB565 word fits sixteen bits, and
    converting back returns each channel with its low bits cleared (three
    for red and blue, two for green): the loss is at most 7 for red and
    blue and at most 3 for green, and never makes a channel brighter. *)
Theorem rgb565_round_trip (r g b : Z) :
  0 <= r < 256 -> 0 <= g < 256 -> 0 <= b < 256 ->
  0 <= rgb565 r g b < 65536
  /\ r_back (rgb565 r g b) = r - r mod 8
  /\ g_back (rgb565 r g b) = g - g mod 4
  /\ b_back (rgb565 r g b) = b - b mod 8
  /\ 0 <= r - r_back (rgb565 r g b) <= 7
  /\ 0 <= g - g_back (rgb565 r g b) <= 3
  /\ 0 <= b - b_back (rgb565 r g b) <= 7.
Proof.
  intros Hr Hg Hb.
  assert (Hhi : 0 <= r / 8 < 32)
    by (split; [apply Z.div_pos | apply Z.div_lt_upper_bound]; lia).
  assert (Hmid : 0 <= g / 4 < 64)
    by (split; [apply Z.div_pos | apply Z.div_lt_upper_bound]; lia).
  assert (Hlo : 0 <= b / 8 < 32)
    by (split; [apply Z.div_pos | apply Z.div_lt_upper_bound]; lia).
  pose proof (fields_come_back_in _ _ _ Hhi Hmid Hlo) as H.
  unfold fields_come_back in H.
  rewrite !andb_true_iff, !Z.eqb_eq, Z.ltb_lt in H.
  destruct H as (((H1 & H2) & H3) & H4).
  unfold rgb565, r_back, g_back, b_back.
  rewrite !(Z.shiftr_div_pow2 r), !(Z.shiftr_div_pow2 g),
    !(Z.shiftr_div_pow2 b) by lia.
  change (2 ^ 3) with 8. change (2 ^ 2) with 4.
  rewrite H1, H2, H3. rewrite !Z.shiftl_mul_pow2 by lia.
  change (2 ^ 3) with 8. change (2 ^ 2) with 4.
  pose proof (Z.div_mod r 8 ltac:(lia)).
  pose proof (Z.div_mod g 4 ltac:(lia)).
  pose proof (Z.div_mod b 8 ltac:(lia)).
  pose proof (Z.mod_pos_bound r 8 ltac:(lia)).
  pose proof (Z.mod_pos_bound g 4 ltac:(lia)).
  pose proof (Z.mod_pos_bound b 8 ltac:(lia)).
  assert (Hnn : 0 <= Z.lor (Z.lor (Z.shiftl (r / 8) 11) (Z.shiftl (g / 4) 5))
                      (b / 8)).
  { apply Z.lor_nonneg. split; [|lia]. apply Z.lor_nonneg.
    split; apply Z.shiftl_nonneg; lia. }
  rewrite !Z.shiftl_mul_pow2 in Hnn, H4 by lia.
  repeat split; try lia.
Qed.

Lemma rgb565_round_trip_witness :
  0 <= rgb565 255 130 7 < 65536
  /\ r_back (rgb565 255 130 7) = 255 - 255 mod 8
  /\ g_back (rgb565 255 130 7) = 130 - 130 mod 4
  /\ b_back (rgb565 255 130 7) = 7 - 7 mod 8
  /\ 0 <= 255 - r_back (rgb565 255 130 7) <= 7
  /\ 0 <= 130 - g_back (rgb565 255 130 7) <= 3
  /\ 0 <= 7 - b_back (rgb565 255 130 7) <= 7.
Proof.
  apply (rgb565_round_trip 255 130 7); lia.
Defined.

(** X30. For an alpha between 0 and 255 the blended value lies between
    the two inputs, whatever their sign or size; alpha 255 gives the
    source, alpha 0 the destination, and blending a value with itself
    returns it. *)
Theorem alpha_blend_between (src dst alpha : Z) :
  0 <= alpha <= 255 ->
  Z.min src dst <= alpha_blend src dst alpha <= Z.max src dst
  /\ alpha_blend src dst 255 = src
  /\ alpha_blend src dst 0 = dst
  /\ alpha_blend src src alpha = src.
Proof.
  intros Ha. unfold alpha_blend.
  assert (Hlo : Z.min src dst * 255
                <= src * alpha + dst * (255 - alpha)) by nia.
  assert (Hhi : src * alpha + dst * (255 - alpha)
                <= Z.max src dst * 255) by nia.
  repeat split.
  - apply Z.div_le_lower_bound; lia.
  - apply Z.div_le_upper_bound; lia.
  - replace (src * 255 + dst * (255 - 255)) with (src * 255) by ring.
    apply Z.div_mul. lia.
  - replace (src * 0 + dst * (255 - 0)) with (dst * 255) by ring.
    apply Z.div_mul. lia.
  - replace (src * alpha + src * (255 - alpha)) with (src * 255) by ring.
    apply Z.div_mul. lia.
Qed.

Lemma alpha_blend_between_witness :
  Z.min 100 200 <= alpha_blend 100 200 128 <= Z.max 100 200
  /\ alpha_blend 100 200 255 = 100
  /\ alpha_blend 100 200 0 = 200
  /\ alpha_blend 100 100 128 = 100.
Proof.
  apply (alpha_blend_between 100 200 128). lia.
Defined.
